(** * Mini-Git (C++): a shallow embedding of core.cpp and manager.cpp

    The program keeps all of its state in the file system below the current
    working directory: [.git/HEAD], [.git/staging_area/...] and
    [.git/commits/<id>/{Data/...,commitInfo.txt}].  The embedding therefore
    models a virtual file system (a finite map from paths to nodes), the
    [std::filesystem] and stream calls the program makes on it, and the
    functions of [core.cpp] and [manager.cpp] as computations over that
    file system and the console. *)

From stdpp Require Import gmap strings list fin_maps.
From Stdlib Require Import Ascii.

(** ** Paths and nodes *)

(** A path is the list of its components, relative to the current working
    directory ([fs::current_path()]); the empty list is that directory. *)
Abbreviation path := (list string).

(** A node is a regular file with its bytes, or a directory.  Symbolic links,
    permissions and devices are not modelled. *)
Inductive node : Type :=
  | File (content : string)
  | Dir.

#[global] Instance node_eq_dec : EqDecision node.
Proof. solve_decision. Defined.

Abbreviation filesystem := (gmap (list string) node).

(** Output written to [cout]/[cerr], one entry per line, and the files. *)
Record state : Type := State {
  files : filesystem;
  console : list string
}.

(** ** [std::filesystem] primitives *)

(** The working directory itself always exists and is a directory. *)
Definition node_at (fs : filesystem) (p : path) : option node :=
  match p with
  | [] => Some Dir
  | _ :: _ => fs !! p
  end.

(** [fs::exists] *)
Definition fs_exists (fs : filesystem) (p : path) : bool :=
  match node_at fs p with
  | Some _ => true
  | None => false
  end.

(** [fs::is_regular_file] *)
Definition is_regular_file (fs : filesystem) (p : path) : bool :=
  match node_at fs p with
  | Some (File _) => true
  | _ => false
  end.

Definition is_directory (fs : filesystem) (p : path) : bool :=
  match node_at fs p with
  | Some Dir => true
  | _ => false
  end.

(** Bytes of a regular file. *)
Definition read_file (fs : filesystem) (p : path) : option string :=
  match node_at fs p with
  | Some (File c) => Some c
  | _ => None
  end.

(** [fs::file_size]: the length of a regular file; on anything else the
    call throws [filesystem_error] (libstdc++, the library of the [g++]
    build the README prescribes), modelled as [None]. *)
Definition file_size (fs : filesystem) (p : path) : option nat :=
  match node_at fs p with
  | Some (File c) => Some (String.length c)
  | _ => None
  end.

(** [path::parent_path] *)
Definition parent_path (p : path) : path := removelast p.

(** [q = d / rel]: the remainder of [q] below [d]. *)
Fixpoint strip_prefix (d q : path) : option path :=
  match d, q with
  | [], _ => Some q
  | x :: d', y :: q' => if decide (x = y) then strip_prefix d' q' else None
  | _ :: _, [] => None
  end.

(** All entries strictly below directory [d], each with its path relative to
    [d] ([fs::relative(e.path(), d)]).  The order of a directory iteration is
    unspecified in C++; the model takes the order of the map's enumeration. *)
Definition entries_under (fs : filesystem) (d : path) : list (path * node) :=
  omap (λ qn, match strip_prefix d qn.1 with
              | Some (x :: r) => Some (x :: r, qn.2)
              | _ => None
              end) (map_to_list fs).

(** The directories above [p], nearest the root first. *)
Definition ancestors (p : path) : list path :=
  (λ n, take n p) <$> seq 1 (length p - 1).

(** A file system is well formed when every entry lies in a directory. *)
Definition well_formed (fs : filesystem) : Prop :=
  forallb (λ qn, forallb (λ a, bool_decide (fs !! a = Some Dir)) (ancestors qn.1))
          (map_to_list fs) = true.

(** [fs::recursive_directory_iterator(d)]: throws unless [d] is a directory. *)
Definition recursive_directory_iterator (fs : filesystem) (d : path)
  : option (list (path * node)) :=
  match node_at fs d with
  | Some Dir => Some (entries_under fs d)
  | _ => None
  end.

(** [fs::create_directories(base / p)], all of [base] existing already:
    creates every missing component; throws when a component is a regular
    file. *)
Fixpoint create_directories_from (base p : path) (fs : filesystem)
  : option filesystem :=
  match p with
  | [] => Some fs
  | x :: p' =>
      let q := base ++ [x] in
      match node_at fs q with
      | Some (File _) => None
      | Some Dir => create_directories_from q p' fs
      | None => create_directories_from q p' (<[q := Dir]> fs)
      end
  end.

Definition create_directories (p : path) (fs : filesystem) : option filesystem :=
  create_directories_from [] p fs.

(** [fs::create_directory(p)]: the parent must be a directory. *)
Definition create_directory (p : path) (fs : filesystem) : option filesystem :=
  match node_at fs p with
  | Some Dir => Some fs
  | Some (File _) => None
  | None => if is_directory fs (parent_path p) then Some (<[p := Dir]> fs) else None
  end.

Definition has_children (fs : filesystem) (p : path) : bool :=
  match entries_under fs p with
  | [] => false
  | _ :: _ => true
  end.

(** [fs::remove(p)]: deletes a file or an empty directory; a missing path is
    no error; a directory that is not empty throws. *)
Definition fs_remove (p : path) (fs : filesystem) : option filesystem :=
  match node_at fs p with
  | None => Some fs
  | Some (File _) => Some (delete p fs)
  | Some Dir => if has_children fs p then None else Some (delete p fs)
  end.

(** [fs::remove_all(p)]: deletes [p] and everything below it. *)
Definition remove_all (p : path) (fs : filesystem) : filesystem :=
  filter (λ qn, strip_prefix p qn.1 = None) fs.

(** [fs::copy_file(src, dst, options)]: [src] must be a regular file; an
    existing [dst] is an error unless [overwrite_existing] is given and [dst]
    is a regular file other than [src]; the directory of [dst] must exist. *)
Definition copy_file (overwrite : bool) (src dst : path) (fs : filesystem)
  : option filesystem :=
  match node_at fs src with
  | Some (File c) =>
      match node_at fs dst with
      | Some (File _) =>
          if overwrite && negb (bool_decide (src = dst))
          then Some (<[dst := File c]> fs) else None
      | Some Dir => None
      | None =>
          if is_directory fs (parent_path dst)
          then Some (<[dst := File c]> fs) else None
      end
  | _ => None
  end.

(** Opening an [ofstream] on [p] (truncating): succeeds when [p] is not a
    directory and its parent directory exists. *)
Definition ofstream_opens (fs : filesystem) (p : path) : bool :=
  negb (is_directory fs p) && is_directory fs (parent_path p).

(** [ofstream f(p); f << c; f.close()]: a stream that failed to open
    swallows the output silently. *)
Definition write_file (p : path) (c : string) (fs : filesystem) : filesystem :=
  if ofstream_opens fs p then <[p := File c]> fs else fs.

(** ** Strings and streams *)

(** [std::getline] on the unread rest of a stream: fails at end of input;
    otherwise yields the bytes before the first newline and the rest after
    it. *)
Fixpoint getline_go (s : string) : string * string :=
  match s with
  | "" => ("", "")
  | String c s' =>
      if Ascii.eqb c "010"%char then ("", s')
      else let '(l, r) := getline_go s' in (String c l, r)
  end.

Definition getline (s : string) : option (string * string) :=
  match s with
  | "" => None
  | _ => Some (getline_go s)
  end.

(** [while (getline(file, line))]: all lines of a stream.  The fuel is the
    length of the input, which every successful [getline] shortens. *)
Fixpoint read_lines_fuel (n : nat) (s : string) : list string :=
  match n with
  | O => []
  | S n' =>
      match getline s with
      | None => []
      | Some (l, r) => l :: read_lines_fuel n' r
      end
  end.

Definition read_lines (s : string) : list string :=
  read_lines_fuel (String.length s) s.

(** First line of the file at [p] through an [ifstream]; [None] when the
    stream did not open or is empty ([getline] fails). *)
Definition getline_file (fs : filesystem) (p : path) : option string :=
  match read_file fs p with
  | Some c => fst <$> getline c
  | None => None
  end.

(** The characters [" \n\r\t"] of [trim]. *)
Definition is_trim_char (c : ascii) : bool :=
  Ascii.eqb c " "%char || Ascii.eqb c "010"%char || Ascii.eqb c "013"%char || Ascii.eqb c "009"%char.

(** [s.erase(0, s.find_first_not_of(" \n\r\t"))] *)
Fixpoint drop_trim_chars (s : string) : string :=
  match s with
  | "" => ""
  | String c s' => if is_trim_char c then drop_trim_chars s' else s
  end.

(** [s.erase(s.find_last_not_of(" \n\r\t") + 1)], skipped when the search
    finds nothing. *)
Fixpoint drop_trailing_trim_chars (s : string) : string :=
  match s with
  | "" => ""
  | String c s' =>
      match drop_trailing_trim_chars s' with
      | "" => if is_trim_char c then "" else String c ""
      | t => String c t
      end
  end.

Definition all_trim_chars (s : string) : bool :=
  match drop_trim_chars s with
  | "" => true
  | _ => false
  end.

(** [trim] of core.cpp *)
Definition trim (s : string) : string :=
  match s with
  | "" => s
  | _ =>
      let s1 := drop_trim_chars s in
      if all_trim_chars s1 then s1 else drop_trailing_trim_chars s1
  end.

(** [::isspace] in the C locale. *)
Definition isspace (c : ascii) : bool :=
  Ascii.eqb c " "%char || Ascii.eqb c "009"%char || Ascii.eqb c "010"%char
  || Ascii.eqb c "011"%char || Ascii.eqb c "012"%char || Ascii.eqb c "013"%char.

(** [s.erase(remove_if(s.begin(), s.end(), ::isspace), s.end())] *)
Fixpoint remove_spaces (s : string) : string :=
  match s with
  | "" => ""
  | String c s' => if isspace c then remove_spaces s' else String c (remove_spaces s')
  end.

(** [line.substr(2)]: throws [std::out_of_range] on a line shorter than 2. *)
Definition substr2 (s : string) : option string :=
  match s with
  | String _ (String _ r) => Some r
  | _ => None
  end.

(** [line[0]]: the terminating NUL on an empty string. *)
Definition first_char (s : string) : ascii :=
  match s with
  | "" => "000"%char
  | String c _ => c
  end.

(** [std::equal(first1, last1, first2)] over the bytes of two streams: walks
    the first range and compares it with the second, element by element. *)
Fixpoint equal (xs ys : string) : bool :=
  match xs, ys with
  | "", _ => true
  | String x xs', String y ys' => Ascii.eqb x y && equal xs' ys'
  | String _ _, "" => false
  end.

(** Number of byte comparisons [equal] performs. *)
Fixpoint equal_comparisons (xs ys : string) : nat :=
  match xs, ys with
  | String x xs', String y ys' =>
      if Ascii.eqb x y then S (equal_comparisons xs' ys') else 1
  | _, _ => 0
  end.

(** ** manager.cpp: [filesAreSame] *)

(** The result, and how many bytes were compared to reach it.  [None] is the
    [filesystem_error] of [fs::file_size] on a path that exists but is not a
    regular file. *)
Definition filesAreSame_counting (fs : filesystem) (a b : path)
  : option (bool * nat) :=
  if negb (fs_exists fs a) || negb (fs_exists fs b) then Some (false, 0)
  else
    match file_size fs a, file_size fs b with
    | Some sa, Some sb =>
        if negb (sa =? sb) then Some (false, 0)
        else
          match read_file fs a, read_file fs b with
          | Some fa, Some fb => Some (equal fa fb, equal_comparisons fa fb)
          | _, _ => None
          end
    | _, _ => None
    end.

Definition filesAreSame (fs : filesystem) (a b : path) : option bool :=
  fst <$> filesAreSame_counting fs a b.

(** ** Computations *)

(** Functions that only touch files are functions [filesystem → option _],
    [None] standing for the abnormal end of the process (an uncaught
    exception, or the [exit(1)] of a [catch] block).  Functions that also
    print run over [state]. *)
Definition M (A : Type) : Type := state → option (A * state).

Definition ret {A} (a : A) : M A := λ st, Some (a, st).

Definition bind {A B} (m : M A) (k : A → M B) : M B :=
  λ st, match m st with
        | Some (a, st') => k a st'
        | None => None
        end.

Notation "x <- m ;; k" := (bind m (λ x, k))
  (at level 100, m at next level, right associativity).
Notation "m ;;; k" := (bind m (λ _, k))
  (at level 100, right associativity).

Definition get_files : M filesystem := λ st, Some (files st, st).

(** [cout << line << endl] *)
Definition print (line : string) : M unit :=
  λ st, Some (tt, State (files st) (console st ++ [line])).

(** A file-system call that may throw. *)
Definition fs_try (f : filesystem → option filesystem) : M unit :=
  λ st, match f (files st) with
        | Some fs' => Some (tt, State fs' (console st))
        | None => None
        end.

(** A value whose computation may throw. *)
Definition try_value {A} (o : option A) : M A :=
  λ st, match o with
        | Some a => Some (a, st)
        | None => None
        end.

(** A range-[for] over a list whose body may throw. *)
Fixpoint for_each {A} (body : A → filesystem → option filesystem)
    (l : list A) (fs : filesystem) : option filesystem :=
  match l with
  | [] => Some fs
  | x :: l' => fs' ← body x fs; for_each body l' fs'
  end.

Fixpoint for_eachM {A} (body : A → M unit) (l : list A) : M unit :=
  match l with
  | [] => ret tt
  | x :: l' => body x ;;; for_eachM body l'
  end.

(** ** Layout of the repository *)

Definition nl : string := String "010"%char "".

Definition gitDir : path := [".git"].
Definition HEAD : path := gitDir ++ ["HEAD"].
Definition staging : path := gitDir ++ ["staging_area"].
Definition commitsRoot : path := gitDir ++ ["commits"].
Definition commitPath (id : string) : path := commitsRoot ++ [id].
Definition dataPath (id : string) : path := commitPath id ++ ["Data"].
Definition commitInfoPath (id : string) : path := commitPath id ++ ["commitInfo.txt"].

(** ** core.cpp *)

Definition alphanum : string :=
  "0123456789ABCDEFGHIJKLMNOPQRSTUVWXYZabcdefghijklmnopqrstuvwxyz".

Definition char_at (s : string) (i : nat) : ascii :=
  match String.get i s with
  | Some c => c
  | None => "000"%char
  end.

(** [gen_random(len)]; [rnd i] is what the [i]-th call of [rand()] returns,
    and 62 is [sizeof(alphanum) - 1]. *)
Fixpoint gen_random_from (rnd : nat → nat) (i len : nat) : string :=
  match len with
  | O => ""
  | S len' => String (char_at alphanum (rnd i mod 62)) (gen_random_from rnd (S i) len')
  end.

Definition gen_random (rnd : nat → nat) (len : nat) : string :=
  gen_random_from rnd 0 len.

(** The block both loops of [createCommit] run for a regular file:
    [create_directories(dst.parent_path()); if (exists(dst)) remove(dst);
    copy_file(src, dst)]. *)
Definition install (src dst : path) (fs : filesystem) : option filesystem :=
  fs1 ← create_directories (parent_path dst) fs;
  fs2 ← (if fs_exists fs1 dst then fs_remove dst fs1 else Some fs1);
  copy_file false src dst fs2.

(** [for (e : recursive_directory_iterator(from)) if (is_regular_file(e))
    { rel = relative(e, from); ... copy to [to / rel] }] *)
Definition copy_entries (from to : path) (es : list (path * node))
    (fs : filesystem) : option filesystem :=
  for_each (λ e fs, if is_regular_file fs (from ++ e.1)
                    then install (from ++ e.1) (to ++ e.1) fs
                    else Some fs) es fs.

Definition copy_tree (from to : path) (fs : filesystem) : option filesystem :=
  es ← recursive_directory_iterator fs from;
  copy_entries from to es fs.

(** The four lines of [commitInfo.txt]; [now] is what [get_time()] returns. *)
Definition commitInfo_text (id parent msg now : string) : string :=
  "1." +:+ id +:+ nl +:+
  "2." +:+ (if bool_decide (parent = "") then "NULL" else parent) +:+ nl +:+
  "3." +:+ msg +:+ nl +:+
  "4." +:+ now +:+ nl.

(** [commitNode::createCommit], run by the constructor.  Both [catch] blocks
    end the process. *)
Definition createCommit (id parent msg now : string) (fs : filesystem)
  : option filesystem :=
  fs ← create_directories (dataPath id) fs;
  (* 1. INHERIT *)
  fs ← (if negb (bool_decide (parent = "")) then
          let parentData := dataPath parent in
          if fs_exists fs parentData then copy_tree parentData (dataPath id) fs
          else Some fs
        else Some fs);
  (* 2. OVERLAY *)
  fs ← (if fs_exists fs staging then copy_tree staging (dataPath id) fs
        else Some fs);
  (* 3. METADATA *)
  if ofstream_opens fs (commitInfoPath id)
  then Some (<[commitInfoPath id := File (commitInfo_text id parent msg now)]> fs)
  else None.

(** The parent a new commit gets: the first line of [.git/HEAD], trimmed,
    with ["NULL"] read as no parent. *)
Definition head_parent (fs : filesystem) : string :=
  let parentID := trim (default "" (getline_file fs HEAD)) in
  if bool_decide (parentID = "NULL") then "" else parentID.

(** [commitNodeList::addOnTail] *)
Definition addOnTail (rnd : nat → nat) (now msg : string) (fs : filesystem)
  : option filesystem :=
  let parentID := head_parent fs in
  let newCommitID := gen_random rnd 8 in
  fs ← createCommit newCommitID parentID msg now fs;
  Some (write_file HEAD newCommitID fs).

(** [while (getline(file, line)) if (line[0] == '3') msg = line.substr(2);] *)
Fixpoint revert_message (lines : list string) (msg : string) : option string :=
  match lines with
  | [] => Some msg
  | line :: rest =>
      if Ascii.eqb (first_char line) "3"%char
      then msg' ← substr2 line; revert_message rest msg'
      else revert_message rest msg
  end.

(** The reference [revertCommit] works on: the literal hash, or for ["HEAD"]
    the trimmed first line of [.git/HEAD].  [inl] carries the early
    [return false] with the line printed before it, if any.  The code
    appends the reference to the path of the commit store; [commitInfoPath]
    takes it as one component, which is what the code does for a reference
    that is a single ordinary component ([plain_component] below).  A
    reference with a separator, or [.] or [..], is outside this model. *)
Definition resolve_target (commitHash : string) (fs : filesystem)
  : list string + string :=
  if bool_decide (commitHash = "HEAD") then
    if negb (is_regular_file fs HEAD) then inl []
    else
      let targetHash := trim (default "" (getline_file fs HEAD)) in
      if bool_decide (targetHash = "NULL") || bool_decide (targetHash = "")
      then inl ["Error: No commits exist yet."]
      else inr targetHash
  else inr commitHash.

(** [commitNodeList::revertCommit] *)
Definition revertCommit (rnd : nat → nat) (now commitHash : string) : M bool :=
  fs <- get_files ;;
  match resolve_target commitHash fs with
  | inl out => for_eachM print out ;;; ret false
  | inr targetHash =>
      if negb (fs_exists fs (commitInfoPath targetHash)) then
        print ("Invalid commit hash: " +:+ targetHash) ;;; ret false
      else
        msg <- try_value (revert_message
                 (read_lines (default "" (read_file fs (commitInfoPath targetHash)))) "") ;;
        fs_try (addOnTail rnd now (msg +:+ " (Revert of " +:+ targetHash +:+ ")")) ;;;
        ret true
  end.

(** How a walk over the history ends: normally, by an uncaught exception, or
    not within the given number of iterations of the [while] loop. *)
Inductive walk_result : Type :=
  | Finished (out : list string)
  | Aborted
  | OutOfFuel.

(** The inner loop of [printCommitList] over the lines of one record:
    what it prints, and the parent it ends with. *)
Fixpoint print_record (lines : list string) (parentID : string)
  : option (list string * string) :=
  match lines with
  | [] => Some ([], parentID)
  | line :: rest =>
      if bool_decide (line = "") then print_record rest parentID
      else
        let c := first_char line in
        if Ascii.eqb c "1"%char then
          v ← substr2 line; r ← print_record rest parentID;
          Some (("Commit ID:    " +:+ v) :: r.1, r.2)
        else if Ascii.eqb c "3"%char then
          v ← substr2 line; r ← print_record rest parentID;
          Some (("Commit Msg:   " +:+ v) :: r.1, r.2)
        else if Ascii.eqb c "4"%char then
          v ← substr2 line; r ← print_record rest parentID;
          Some (("Date & Time:  " +:+ v) :: r.1, r.2)
        else if Ascii.eqb c "2"%char then
          v ← substr2 line; print_record rest v
        else print_record rest parentID
  end.

(** The [while] loop of [printCommitList], at most [fuel] iterations. *)
Fixpoint printCommitList_loop (fuel : nat) (fs : filesystem) (currID : string)
  : walk_result :=
  if bool_decide (currID = "") || bool_decide (currID = "NULL") then Finished []
  else if negb (fs_exists fs (commitInfoPath currID)) then Finished []
  else
    match fuel with
    | O => OutOfFuel
    | S fuel' =>
        match print_record
                (read_lines (default "" (read_file fs (commitInfoPath currID)))) "" with
        | None => Aborted
        | Some (out, parentID) =>
            match printCommitList_loop fuel' fs (trim parentID) with
            | Finished out' =>
                Finished (out ++ ["============================"; ""] ++ out')
            | r => r
            end
        end
    end.

(** [commitNodeList::printCommitList] *)
Definition printCommitList (fuel : nat) (fs : filesystem) : walk_result :=
  printCommitList_loop fuel fs (trim (default "" (getline_file fs HEAD))).

(** ** manager.cpp *)

(** [rel.string()] of a relative path; the working directory relative to
    itself is ["."].  (The separator is the generic one; no function below
    depends on it.) *)
Definition rel_string (rel : path) : string :=
  match rel with
  | [] => "."
  | _ :: _ => String.concat "/" rel
  end.

(** [rel.filename()] *)
Definition filename (rel : path) : string := default "." (last rel).

(** [s.find(t) == 0] *)
Definition starts_with (t s : string) : bool := String.prefix t s.

(** [gitClass::isIgnored] *)
Definition isIgnored (rel : path) : bool :=
  let s := rel_string rel in
  if bool_decide (s = "") then true
  else if starts_with ".git" s then true
  else if starts_with ".vscode" s then true
  else if bool_decide (filename rel = "mygit.exe") || bool_decide (filename rel = "mygit")
       then true
  else false.

(** [gitClass::getHEAD] *)
Definition getHEAD (fs : filesystem) : string :=
  match getline_file fs HEAD with
  | None => "NULL"
  | Some head =>
      let head := remove_spaces head in
      if bool_decide (head = "") then "NULL" else head
  end.

(** [committedData]: the snapshot of the head commit; [None] is the empty
    [fs::path()] the code uses when there is no commit yet, which no
    [fs::exists] finds. *)
Definition committedData (fs : filesystem) : option path :=
  let head := getHEAD fs in
  if bool_decide (head = "NULL") then None else Some (dataPath head).

(** [fs::exists(committedData / rel)], false for the empty path. *)
Definition in_commit (fs : filesystem) (cd : option path) (rel : path) : bool :=
  match cd with
  | Some d => fs_exists fs (d ++ rel)
  | None => false
  end.

(** [fs::exists(committedFile) && filesAreSame(src, committedFile)] *)
Definition same_as_committed (fs : filesystem) (cd : option path) (rel : path)
  : option bool :=
  match cd with
  | Some d => if fs_exists fs (d ++ rel) then filesAreSame fs rel (d ++ rel) else Some false
  | None => Some false
  end.

(** The entries a [recursive_directory_iterator] over the working directory
    reaches when [disable_recursion_pending()] is called at every entry
    [skip] holds of: those with no such entry above them. *)
Definition walk (skip : path → bool) (fs : filesystem) : list (path * node) :=
  filter (λ e, forallb (λ a, negb (skip a)) (ancestors e.1) = true)
         (entries_under fs []).

Definition is_file_node (n : node) : bool :=
  match n with
  | File _ => true
  | Dir => false
  end.

(** [gitClass::gitInit]; a [filesystem_error] is caught and reported. *)
Definition gitInit : M unit :=
  λ st,
    match create_directories staging (files st) with
    | None => print "Init failed" st
    | Some fs1 =>
        match create_directories commitsRoot fs1 with
        | None => print "Init failed" (State fs1 (console st))
        | Some fs2 =>
            print "Initialized empty Git repository."
                  (State (write_file HEAD "NULL" fs2) (console st))
        end
    end.

(** The body of the loop of [gitAdd()] for one entry of the walk. *)
Definition add_entry (cd : option path) (e : path * node) (fs : filesystem)
  : option filesystem :=
  let rel := e.1 in
  if isIgnored rel then Some fs
  else if negb (is_file_node e.2) then Some fs
  else
    let stagedFile := staging ++ rel in
    same ← same_as_committed fs cd rel;
    if same : bool then
      (* matches the last commit: drop a stale staged copy *)
      if fs_exists fs stagedFile then fs_remove stagedFile fs else Some fs
    else
      fs1 ← create_directories (parent_path stagedFile) fs;
      copy_file true rel stagedFile fs1.

(** [gitClass::gitAdd()], "add ." *)
Definition gitAdd (fs : filesystem) : option filesystem :=
  for_each (add_entry (committedData fs)) (walk isIgnored fs) fs.

(** [files[i]]: the text of a name, its components joined by the
    separator. *)
Definition name_text (rel : path) : string := String.concat "/" rel.

(** The body of the loop of [gitAdd(files, n)] for one named path.  A name
    is given by its components and stands for the entry of the working
    directory at that path: for a name that is a normalised relative path
    ([plain_name] below: no empty component, no [.] or [..], no separator
    inside a component, no component longer than a file name may be)
    [fs::relative(root / files[i], root)] is the name itself.  A name that is
    not of this form -- an absolute one, or one that passes through [.] or
    [..] and may so leave the working directory -- is outside this model;
    the statements that depend on the name assume [plain_name]. *)
Definition add_named (cd : option path) (rel : path) : M unit :=
  fs <- get_files ;;
  if isIgnored rel then ret tt
  else if negb (fs_exists fs rel) || negb (is_regular_file fs rel) then
    print ("Warning: " +:+ name_text rel +:+ " does not exist or is not a file.")
  else
    let stagedFile := staging ++ rel in
    same <- try_value (same_as_committed fs cd rel) ;;
    if same then ret tt
    else
      fs_try (λ fs, fs1 ← create_directories (parent_path stagedFile) fs;
                    copy_file true rel stagedFile fs1).

(** [gitClass::gitAdd(files, n)], "add file1 file2 ..." *)
Definition gitAdd_files (names : list path) : M unit :=
  fs <- get_files ;;
  for_eachM (add_named (committedData fs)) names.

(** [gitClass::clearStagingArea] *)
Definition clearStagingArea (fs : filesystem) : option filesystem :=
  if fs_exists fs staging then create_directory staging (remove_all staging fs)
  else Some fs.

(** The flag [empty] of [gitCommit]: no regular file below the staging
    directory. *)
Definition staging_empty (fs : filesystem) : option bool :=
  if fs_exists fs staging then
    es ← recursive_directory_iterator fs staging;
    Some (forallb (λ e, negb (is_file_node e.2)) es)
  else Some true.

(** [gitClass::gitCommit] *)
Definition gitCommit (rnd : nat → nat) (now msg : string) : M bool :=
  fs <- get_files ;;
  empty <- try_value (staging_empty fs) ;;
  if empty then
    print "Nothing to commit, staging area is empty." ;;; ret false
  else
    fs_try (addOnTail rnd now msg) ;;;
    fs_try clearStagingArea ;;;
    print "Files committed successfully." ;;;
    ret true.

(** The three lists [gitStatus] collects.  The code stores [rel.string()];
    the model keeps [rel] and turns it into a string when printing. *)
Record status : Type := Status {
  staged : list path;
  modified : list path;
  untracked : list path
}.

(** 1. Scan Staging Area *)
Definition scan_staging (fs : filesystem) : option (list path) :=
  if fs_exists fs staging then
    es ← recursive_directory_iterator fs staging;
    Some (fst <$> filter (λ e : path * node, is_file_node e.2 = true)
                         (es : list (path * node)))
  else Some [].

(** 2. Scan Working Directory: the loop over the entries of the walk,
    extending [modified] and [untracked]. *)
Fixpoint scan_working (fs : filesystem) (cd : option path)
    (es : list (path * node)) : option (list path * list path) :=
  match es with
  | [] => Some ([], [])
  | e :: es' =>
      let rel := e.1 in
      if isIgnored rel || negb (is_file_node e.2) then scan_working fs cd es'
      else
        let inStaging := fs_exists fs (staging ++ rel) in
        let inCommit := in_commit fs cd rel in
        if inCommit && negb inStaging then
          same ← match cd with
                 | Some d => filesAreSame fs rel (d ++ rel)
                 | None => None
                 end;
          r ← scan_working fs cd es';
          Some (if same : bool then r.1 else rel :: r.1, r.2)
        else if negb inCommit && negb inStaging then
          r ← scan_working fs cd es';
          Some (r.1, rel :: r.2)
        else scan_working fs cd es'
  end.

Definition compute_status (fs : filesystem) : option status :=
  s ← scan_staging fs;
  r ← scan_working fs (committedData fs) (walk isIgnored fs);
  Some (Status s r.1 r.2).

(** 3. Display Results (colour codes left out; a leading newline of a
    heading is a line of its own). *)
Definition display_status (s : status) : list string :=
  (if bool_decide (staged s = []) then []
   else "Changes to be committed:" :: ((λ p, "  " +:+ rel_string p) <$> staged s)) ++
  (if bool_decide (modified s = []) then []
   else "" :: "Changes not staged for commit:" :: ((λ p, "  " +:+ rel_string p) <$> modified s)) ++
  (if bool_decide (untracked s = []) then []
   else "" :: "Untracked files:" :: ((λ p, "  " +:+ rel_string p) <$> untracked s)) ++
  (if bool_decide (staged s = []) && bool_decide (modified s = [])
      && bool_decide (untracked s = [])
   then ["Nothing to commit, working tree clean."] else []).

(** [gitClass::gitStatus] *)
Definition gitStatus : M status :=
  fs <- get_files ;;
  s <- try_value (compute_status fs) ;;
  for_eachM print (display_status s) ;;;
  ret s.

(** Pass-throughs to core. *)
Definition gitRevert (rnd : nat → nat) (now hash : string) : M bool :=
  revertCommit rnd now hash.

Definition gitLog (fuel : nat) (fs : filesystem) : walk_result :=
  printCommitList fuel fs.

(** * Vocabulary of the statements *)

(** Every byte of a string satisfies a test. *)
Fixpoint string_forallb (P : ascii → bool) (s : string) : bool :=
  match s with
  | "" => true
  | String c s' => P c && string_forallb P s'
  end.

(** No white space, in particular no line break. *)
Definition no_space (s : string) : bool :=
  string_forallb (λ c, negb (isspace c)) s.

(** A single line. *)
Definition no_newline (s : string) : bool :=
  string_forallb (λ c, negb (Ascii.eqb c "010"%char)) s.

(** What a call may do to a path it is not aimed at: leave it alone or,
    where nothing was, put a directory. *)
Definition kept_or_mkdir (fs fs' : filesystem) (q : path) : Prop :=
  fs' !! q = fs !! q ∨ (fs !! q = None ∧ fs' !! q = Some Dir).

(** Two directories no path lies below both of. *)
Definition independent (from to : path) : Prop := ∀ r1 r2, from ++ r1 ≠ to ++ r2.

(** A path [createCommit] cannot reach: neither inside the directory of the
    new commit nor above it. *)
Definition outside_commit (id : string) (q : path) : Prop :=
  ∀ r r', commitPath id ++ r ≠ q ++ r'.

(** The lines [printCommitList] prints for one commit. *)
Definition log_entry (r : string * string * string) : list string :=
  let '(id, msg, now) := r in
  ["Commit ID:    " +:+ id; "Commit Msg:   " +:+ msg; "Date & Time:  " +:+ now;
   "============================"; ""].

(** The parent field as [createCommit] writes it. *)
Definition parent_field (parent : string) : string :=
  if bool_decide (parent = "") then "NULL" else parent.

(** [history fs cur recs stop]: from [cur], the records [recs] as
    [createCommit] writes them, each naming the next as its parent, the
    last one naming [stop]. *)
Inductive history (fs : filesystem)
  : string → list (string * string * string) → string → Prop :=
  | history_end cur : history fs cur [] cur
  | history_step cur parent msg now rest stop :
      cur ≠ "" → cur ≠ "NULL" →
      no_newline cur = true → no_space parent = true →
      no_newline msg = true → no_newline now = true →
      read_file fs (commitInfoPath cur) = Some (commitInfo_text cur parent msg now) →
      history fs (parent_field parent) rest stop →
      history fs cur ((cur, msg, now) :: rest) stop.

(** The files of the working tree that the walks of [gitAdd] and [gitStatus]
    look at: regular files that [isIgnored] lets through and that lie below
    no entry it rejects. *)
Definition working_file (fs : filesystem) (rel : path) : bool :=
  is_regular_file fs rel && negb (isIgnored rel)
  && forallb (λ a, negb (isIgnored a)) (ancestors rel).

(** The tests of the loop of [gitStatus] that put an entry of the walk on
    the list of modified files, and on the list of untracked files. *)
Definition modified_entry (fs : filesystem) (cd : option path)
    (rel : path) (n : node) : Prop :=
  is_file_node n = true ∧ isIgnored rel = false ∧
  in_commit fs cd rel = true ∧ fs_exists fs (staging ++ rel) = false ∧
  ∀ d, cd = Some d → read_file fs rel ≠ read_file fs (d ++ rel).

Definition untracked_entry (fs : filesystem) (cd : option path)
    (rel : path) (n : node) : Prop :=
  is_file_node n = true ∧ isIgnored rel = false ∧
  in_commit fs cd rel = false ∧ fs_exists fs (staging ++ rel) = false.

(** No working file that [gitStatus] compares meets a directory of the head
    snapshot at its path: the test run over the entries of the walk. *)
Definition comparable (fs : filesystem) : bool :=
  forallb (λ e, negb (is_file_node e.2 && negb (isIgnored e.1)
                      && negb (fs_exists fs (staging ++ e.1))
                      && match committedData fs with
                         | Some d => is_directory fs (d ++ e.1)
                         | None => false
                         end))
          (walk isIgnored fs).

(** The reserved paths: those in the metadata directory [.git], those in
    the editor directory [.vscode], and those naming the executable. *)
Definition reserved (rel : path) : Prop :=
  (∃ rest, rel = ".git" :: rest) ∨ (∃ rest, rel = ".vscode" :: rest) ∨
  (rel ≠ [] ∧ (filename rel = "mygit.exe" ∨ filename rel = "mygit")).

(** The staging area holds no file at a reserved path. *)
Definition staging_clean (fs : filesystem) : Prop :=
  ∀ rel, reserved rel → is_regular_file fs (staging ++ rel) = false.

(** The same, checked entry by entry, for every path [isIgnored] rejects. *)
Definition staging_cleanb (fs : filesystem) : bool :=
  forallb (λ e, negb (is_file_node e.2 && isIgnored e.1)) (entries_under fs staging).

(** An operation adds no staged file at a path [isIgnored] rejects. *)
Definition stages_nothing_ignored (fs fs' : filesystem) : Prop :=
  ∀ rel, isIgnored rel = true →
         is_regular_file fs' (staging ++ rel) = true →
         is_regular_file fs (staging ++ rel) = true.

(** A computation that may throw ends normally. *)
Definition completes {A} (o : option A) : bool :=
  match o with
  | Some _ => true
  | None => false
  end.

(** A byte occurs in a string. *)
Fixpoint string_mem (c : ascii) (s : string) : bool :=
  match s with
  | "" => false
  | String c' s' => Ascii.eqb c c' || string_mem c s'
  end.

(** A single ordinary path component, as every identifier and every file
    name the program itself writes is: not empty, not [.] or [..], with no
    directory separator (slash or backslash) in it, and no longer than the
    255 bytes a file name may have. *)
Definition plain_component (s : string) : bool :=
  negb (bool_decide (s = "")) && negb (bool_decide (s = "."))
  && negb (bool_decide (s = ".."))
  && negb (string_mem "/"%char s) && negb (string_mem "092"%char s)
  && (String.length s <=? 255).

(** A name that is the normalised relative path of an entry below the
    working directory. *)
Definition plain_name (rel : path) : bool :=
  negb (bool_decide (rel = [])) && forallb plain_component rel.

(** Where a relative path with [.] and [..] in it leads when every
    directory on the way exists: [..] steps back to the parent. *)
Fixpoint resolve_dots (seen rest : path) : path :=
  match rest with
  | [] => seen
  | x :: rest' =>
      if bool_decide (x = "..") then resolve_dots (removelast seen) rest'
      else if bool_decide (x = ".") || bool_decide (x = "") then resolve_dots seen rest'
      else resolve_dots (seen ++ [x]) rest'
  end.

(** Paths that are neither in the staging area nor above it. *)
Definition off_staging (q : path) : Prop := ∀ r r', staging ++ r ≠ q ++ r'.

(** The line [gitAdd(files, n)] prints for a name it cannot add. *)
Definition missing_warning (rel : path) : string :=
  "Warning: " +:+ name_text rel +:+ " does not exist or is not a file.".

(** * A sample session

    The states below are reached by running the commands of the program,
    with edits of the working tree in between. *)

(** The state a command leaves behind. *)
Definition after {A} (m : M A) (st : state) : state :=
  match m st with
  | Some (_, st') => st'
  | None => st
  end.

Definition after_fs (f : filesystem → option filesystem) (st : state) : state :=
  match f (files st) with
  | Some fs' => State fs' (console st)
  | None => st
  end.

(** The user saves a file in the working directory. *)
Definition save (name content : string) (st : state) : state :=
  State (<[[name] := File content]> (files st)) (console st).

(** What [rand()] returns during three runs of the program. *)
Definition rnd1 (i : nat) : nat := 10 + i.
Definition rnd2 (i : nat) : nat := 36 + i.
Definition rnd3 (i : nat) : nat := 1 + i.

Definition id1 : string := "ABCDEFGH".
Definition id2 : string := "abcdefgh".
Definition id3 : string := "12345678".

Definition time1 : string := "2026/01/01 10:00".
Definition time2 : string := "2026/01/01 10:05".
Definition time3 : string := "2026/01/01 10:09".

(** mygit init; a.txt = v1, b.txt = b; mygit add .; mygit commit -m first *)
Definition session_init : state := after gitInit (State ∅ []).
Definition session_saved1 : state := save "b.txt" "b" (save "a.txt" "v1" session_init).
Definition session_added1 : state := after_fs gitAdd session_saved1.
Definition session_commit1 : state := after (gitCommit rnd1 time1 "first") session_added1.

(** a.txt = v2; mygit add a.txt; mygit commit -m second *)
Definition session_saved2 : state := save "a.txt" "v2" session_commit1.
Definition session_added2 : state := after (gitAdd_files [["a.txt"]]) session_saved2.
Definition session_commit2 : state := after (gitCommit rnd2 time2 "second") session_added2.

(** a.txt = v3; mygit add a.txt; then a.txt = v2 again, as committed *)
Definition session_saved3 : state := save "a.txt" "v3" session_commit2.
Definition session_added3 : state := after (gitAdd_files [["a.txt"]]) session_saved3.
Definition session_restored : state := save "a.txt" "v2" session_added3.

(** The directory of the first commit is lost. *)
Definition session_dangling : state :=
  State (remove_all (commitPath id1) (files session_commit2)) (console session_commit2).

(** The same repository with the second commit recorded as a root. *)
Definition session_rooted : state :=
  State (<[commitInfoPath id2 := File (commitInfo_text id2 "" "second" time2)]>
           (files session_dangling))
        (console session_dangling).

(** A new file and a [.gitignore] appear next to the edited a.txt. *)
Definition session_gitignore : state :=
  save ".gitignore" "*.o" (save "new.txt" "n" session_saved2).

(** A repository whose only commit holds d/x.txt ... *)
Definition session_tree : state :=
  after (gitCommit rnd1 time1 "tree")
    (after_fs gitAdd
       (State (<[["d"; "x.txt"] := File "x"]> (<[["d"] := Dir]> (files session_init)))
              (console session_init))).

(** ... in whose working tree the directory d is replaced by a file d. *)
Definition session_dir_conflict : state :=
  save "d" "now a file"
       (State (remove_all ["d"] (files session_tree)) (console session_tree)).

(** The records of the two commits name each other as parent. *)
Definition session_cycle : state :=
  State (<[commitInfoPath id1 := File (commitInfo_text id1 id2 "first" time1)]>
           (files session_commit2))
        (console session_commit2).

(** * Properties of the file-system primitives *)

Section primitives.
Implicit Types (fs : filesystem) (p q d rel : path) (n : node) (c : string).

Lemma strip_prefix_Some d q rel : strip_prefix d q = Some rel ↔ q = d ++ rel.
Proof.
  revert q. induction d as [|x d IH]; intros [|y q]; simpl.
  - split; [by intros [= <-] | by intros <-].
  - split; [by intros [= <-] | by intros [= <-]].
  - split; [done | by intros [=]].
  - destruct (decide (x = y)) as [->|Hne].
    + rewrite IH. split; [by intros -> | by intros [= ->]].
    + split; [done | intros [= ? _]; congruence].
Qed.

Lemma strip_prefix_app d rel : strip_prefix d (d ++ rel) = Some rel.
Proof. by apply strip_prefix_Some. Qed.

Lemma strip_prefix_None d q : strip_prefix d q = None ↔ ∀ rel, q ≠ d ++ rel.
Proof.
  split.
  - intros Hn rel ->. by rewrite strip_prefix_app in Hn.
  - intros Hq. destruct (strip_prefix d q) as [r|] eqn:E; [|done].
    apply strip_prefix_Some in E. by destruct (Hq r).
Qed.

Lemma node_at_lookup fs p : p ≠ [] → node_at fs p = fs !! p.
Proof. by destruct p. Qed.

Lemma node_at_app fs d rel : d ≠ [] → node_at fs (d ++ rel) = fs !! (d ++ rel).
Proof. intros Hd. apply node_at_lookup. by destruct d. Qed.

Lemma elem_of_entries_under fs d rel n :
  (rel, n) ∈ entries_under fs d ↔ rel ≠ [] ∧ fs !! (d ++ rel) = Some n.
Proof.
  unfold entries_under. rewrite list_elem_of_omap. split.
  - intros [[q m] [Hin Hq]]. apply elem_of_map_to_list in Hin. simpl in Hq.
    destruct (strip_prefix d q) as [[|x r]|] eqn:E; simplify_eq.
    apply strip_prefix_Some in E. by subst.
  - intros [Hne Hl]. exists (d ++ rel, n). split.
    + by apply elem_of_map_to_list.
    + simpl. rewrite strip_prefix_app. by destruct rel.
Qed.

Lemma elem_of_entries_under' fs d (e : path * node) :
  e ∈ entries_under fs d ↔ e.1 ≠ [] ∧ fs !! (d ++ e.1) = Some e.2.
Proof. destruct e. apply elem_of_entries_under. Qed.

Lemma has_children_false fs p :
  has_children fs p = false ↔ ∀ rel, rel ≠ [] → fs !! (p ++ rel) = None.
Proof.
  unfold has_children. split.
  - intros H rel Hne. destruct (fs !! (p ++ rel)) as [n|] eqn:E; [|done].
    assert ((rel, n) ∈ entries_under fs p) as Hin by by apply elem_of_entries_under.
    destruct (entries_under fs p); [by apply elem_of_nil in Hin | done].
  - intros H. destruct (entries_under fs p) as [|[rel n] l] eqn:E; [done|].
    assert ((rel, n) ∈ entries_under fs p) as Hin by (rewrite E; left).
    apply elem_of_entries_under in Hin as [Hne Hl]. by rewrite H in Hl.
Qed.

Lemma kept_or_mkdir_refl fs q : kept_or_mkdir fs fs q.
Proof. by left. Qed.

Lemma kept_or_mkdir_trans fs1 fs2 fs3 q :
  kept_or_mkdir fs1 fs2 q → kept_or_mkdir fs2 fs3 q → kept_or_mkdir fs1 fs3 q.
Proof.
  unfold kept_or_mkdir. intros [H1|[H1 H1']] [H2|[H2 H2']].
  - left. congruence.
  - right. split; congruence.
  - right. split; congruence.
  - congruence.
Qed.

Lemma kept_or_mkdir_file fs fs' q c :
  kept_or_mkdir fs fs' q → fs !! q = Some (File c) → fs' !! q = Some (File c).
Proof. intros [H|[H _]] Hq; congruence. Qed.

Lemma kept_or_mkdir_file_inv fs fs' q c :
  kept_or_mkdir fs fs' q → fs' !! q = Some (File c) → fs !! q = Some (File c).
Proof. intros [H|[_ H]] Hq; congruence. Qed.

Lemma create_directories_from_kept base p fs fs' :
  create_directories_from base p fs = Some fs' → ∀ q, kept_or_mkdir fs fs' q.
Proof.
  revert base fs. induction p as [|x p IH]; intros base fs H q; simpl in H.
  - simplify_eq. apply kept_or_mkdir_refl.
  - destruct (node_at fs (base ++ [x])) as [[c|]|] eqn:E; [done|by eapply IH|].
    eapply kept_or_mkdir_trans; [|by eapply IH].
    rewrite node_at_lookup in E by (by destruct base).
    destruct (decide (q = base ++ [x])) as [->|Hne].
    + right. by rewrite lookup_insert_eq.
    + left. by rewrite lookup_insert_ne.
Qed.

Lemma create_directories_kept p fs fs' :
  create_directories p fs = Some fs' → ∀ q, kept_or_mkdir fs fs' q.
Proof. apply create_directories_from_kept. Qed.

Lemma create_directories_from_is_directory base p fs fs' :
  create_directories_from base p fs = Some fs' →
  node_at fs base = Some Dir → node_at fs' (base ++ p) = Some Dir.
Proof.
  revert base fs. induction p as [|x p IH]; intros base fs H Hb; simpl in H.
  - simplify_eq. by rewrite app_nil_r.
  - replace (base ++ x :: p) with ((base ++ [x]) ++ p) by by rewrite <- app_assoc.
    destruct (node_at fs (base ++ [x])) as [[c|]|] eqn:E; [done|by eapply IH|].
    eapply IH; [done|]. rewrite node_at_lookup by (by destruct base).
    by rewrite lookup_insert_eq.
Qed.

Lemma create_directories_is_directory p fs fs' :
  create_directories p fs = Some fs' → is_directory fs' p = true.
Proof.
  intros H. unfold is_directory.
  pose proof (create_directories_from_is_directory [] p fs fs' H eq_refl) as Hd.
  simpl in Hd. by rewrite Hd.
Qed.

Lemma fs_remove_spec p fs fs' :
  fs_remove p fs = Some fs' →
  p ≠ [] → fs' !! p = None ∧ ∀ q, q ≠ p → fs' !! q = fs !! q.
Proof.
  unfold fs_remove. intros H Hp. rewrite node_at_lookup in H by done.
  destruct (fs !! p) as [[c|]|] eqn:E; simplify_eq.
  - split; [apply lookup_delete_eq | intros q Hq; by apply lookup_delete_ne].
  - destruct (has_children fs p); simplify_eq.
    split; [apply lookup_delete_eq | intros q Hq; by apply lookup_delete_ne].
  - done.
Qed.

Lemma copy_file_spec ow src dst fs fs' :
  copy_file ow src dst fs = Some fs' →
  ∃ c, node_at fs src = Some (File c) ∧ fs' = <[dst := File c]> fs ∧
       (ow = false → node_at fs dst = None).
Proof.
  unfold copy_file. intros H.
  destruct (node_at fs src) as [[c|]|]; try done. exists c.
  destruct (node_at fs dst) as [[c'|]|].
  - destruct ow; simpl in H; [|done].
    destruct (bool_decide (src = dst)); simpl in H; by simplify_eq.
  - done.
  - destruct (is_directory fs (parent_path dst)); by simplify_eq.
Qed.
End primitives.

(** * The file identity comparator *)

Lemma equal_true_iff (xs ys : string) :
  String.length xs = String.length ys → equal xs ys = true ↔ xs = ys.
Proof.
  revert ys. induction xs as [|x xs IH]; intros [|y ys] Hlen; simpl in *; try done.
  rewrite andb_true_iff, Ascii.eqb_eq, IH by lia.
  split; [by intros [-> ->] | by intros [= -> ->]].
Qed.

Lemma filesAreSame_regular fs a b ca cb :
  read_file fs a = Some ca → read_file fs b = Some cb →
  filesAreSame fs a b = Some (bool_decide (ca = cb)).
Proof.
  unfold filesAreSame, filesAreSame_counting, read_file, fs_exists, file_size.
  intros Ha Hb.
  destruct (node_at fs a) as [[ca'|]|]; simplify_eq.
  destruct (node_at fs b) as [[cb'|]|]; simplify_eq. simpl.
  destruct (String.length ca =? String.length cb) eqn:E; simpl.
  - apply Nat.eqb_eq in E. f_equal. symmetry.
    destruct (equal ca cb) eqn:Heq.
    + apply bool_decide_eq_true. by apply equal_true_iff.
    + apply bool_decide_eq_false. intros ->.
      rewrite (proj2 (equal_true_iff cb cb eq_refl) eq_refl) in Heq. done.
  - apply Nat.eqb_neq in E. f_equal. symmetry.
    apply bool_decide_eq_false. intros ->. done.
Qed.

Lemma filesAreSame_true fs a b :
  filesAreSame fs a b = Some true →
  ∃ c, read_file fs a = Some c ∧ read_file fs b = Some c.
Proof.
  intros H. unfold filesAreSame, filesAreSame_counting in H.
  unfold read_file. unfold fs_exists, file_size, read_file in H.
  destruct (node_at fs a) as [[ca|]|], (node_at fs b) as [[cb|]|];
    simpl in H; try done.
  destruct (String.length ca =? String.length cb) eqn:E; simpl in H; [|done].
  apply Nat.eqb_eq in E. exists ca. split; [done|].
  f_equal. symmetry. apply (equal_true_iff ca cb E). by simplify_eq.
Qed.

(** C9.  [filesAreSame] answers true exactly when both paths are files with
    the same bytes; a missing path gives false and no exception; files of
    different sizes give false with no byte compared. *)
Theorem filesAreSame_correct (fs : filesystem) (a b : path) :
  (filesAreSame fs a b = Some true ↔
     ∃ c, read_file fs a = Some c ∧ read_file fs b = Some c) ∧
  (fs_exists fs a = false ∨ fs_exists fs b = false →
     filesAreSame_counting fs a b = Some (false, 0)) ∧
  (∀ ca cb, read_file fs a = Some ca → read_file fs b = Some cb →
     String.length ca ≠ String.length cb →
     filesAreSame_counting fs a b = Some (false, 0)).
Proof.
  split; [|split].
  - split; [apply filesAreSame_true|].
    intros (c & Ha & Hb). rewrite (filesAreSame_regular fs a b c c Ha Hb).
    by rewrite bool_decide_eq_true_2.
  - unfold filesAreSame_counting. intros [->| ->]; simpl; [done|].
    by rewrite orb_true_r.
  - intros ca cb Ha Hb Hlen.
    unfold filesAreSame_counting, read_file, fs_exists, file_size in *.
    destruct (node_at fs a) as [[ca'|]|]; simplify_eq.
    destruct (node_at fs b) as [[cb'|]|]; simplify_eq. simpl.
    apply Nat.eqb_neq in Hlen. by rewrite Hlen.
Qed.

(** * Building a snapshot *)

Section snapshot.
Implicit Types (fs : filesystem) (p q d rel src dst from to : path) (c : string).

Lemma install_self p fs : install p p fs = None.
Proof.
  unfold install.
  destruct (create_directories (parent_path p) fs) as [fs1|] eqn:E1; simpl; [|done].
  destruct p as [|x p'] using rev_ind.
  { unfold fs_exists, fs_remove, copy_file. simpl.
    destruct (has_children fs1 []); simpl; done. }
  clear IHp'. set (p := p' ++ [x]) in *.
  assert (p ≠ []) as Hp by (subst p; by destruct p').
  destruct (fs_exists fs1 p) eqn:Ex; simpl.
  - destruct (fs_remove p fs1) as [fs2|] eqn:E2; simpl; [|done].
    apply fs_remove_spec in E2 as [Hnone _]; [|done].
    unfold copy_file. by rewrite node_at_lookup, Hnone.
  - unfold copy_file. unfold fs_exists in Ex.
    by destruct (node_at fs1 p).
Qed.

(** [install] puts the bytes of [src] at [dst] and changes no other file. *)
Lemma install_spec src dst fs fs' :
  install src dst fs = Some fs' → dst ≠ [] →
  ∃ c, node_at fs src = Some (File c) ∧ src ≠ dst ∧
       fs' !! dst = Some (File c) ∧
       ∀ q, q ≠ dst → kept_or_mkdir fs fs' q.
Proof.
  intros H Hdst.
  destruct (decide (src = dst)) as [->|Hne]; [by rewrite install_self in H|].
  unfold install in H.
  destruct (create_directories (parent_path dst) fs) as [fs1|] eqn:E1;
    simpl in H; [|done].
  pose proof (create_directories_kept _ _ _ E1) as K1.
  destruct (if fs_exists fs1 dst then fs_remove dst fs1 else Some fs1)
    as [fs2|] eqn:E2; simpl in H; [|done].
  assert (∀ q, q ≠ dst → fs2 !! q = fs1 !! q) as K2.
  { destruct (fs_exists fs1 dst); [|by simplify_eq].
    by apply fs_remove_spec in E2 as [_ ?]. }
  apply copy_file_spec in H as (c & Hsrc & -> & _).
  exists c. split; [|split; [done|split]].
  - destruct src as [|x src']; [done|]. simpl in *.
    rewrite K2 in Hsrc by done.
    destruct (K1 (x :: src')) as [Heq|[_ Hd]]; congruence.
  - apply lookup_insert_eq.
  - intros q Hq. unfold kept_or_mkdir. rewrite lookup_insert_ne by done.
    rewrite K2 by done. apply K1.
Qed.

Lemma is_regular_file_lookup fs p :
  is_regular_file fs p = true ↔ ∃ c, p ≠ [] ∧ fs !! p = Some (File c).
Proof.
  unfold is_regular_file. destruct p as [|x p]; simpl.
  - split; [done | by intros (? & ? & _)].
  - destruct (fs !! (x :: p)) as [[c|]|]; split; try done.
    + by exists c.
    + by intros (? & _ & ?).
    + by intros (? & _ & ?).
Qed.

Lemma copy_entries_keeps from to es fs fs' q c :
  independent from to → to ≠ [] →
  copy_entries from to es fs = Some fs' →
  fs !! q = Some (File c) →
  (∀ e, e ∈ es → is_regular_file fs (from ++ e.1) = true → q = to ++ e.1 →
        fs !! (from ++ e.1) = Some (File c)) →
  fs' !! q = Some (File c).
Proof.
  intros Hind Hto. unfold copy_entries. revert fs.
  induction es as [|e es IH]; intros fs H Hq Hsame; simpl in H; [by simplify_eq|].
  destruct (is_regular_file fs (from ++ e.1)) eqn:Hreg.
  - destruct (install (from ++ e.1) (to ++ e.1) fs) as [fs1|] eqn:E1;
      simpl in H; [|done].
    apply install_spec in E1 as (c' & Hsrc & _ & Hdst & K); [|by destruct to].
    assert (∀ r, kept_or_mkdir fs fs1 (from ++ r)) as Kfrom.
    { intros r. apply K. apply Hind. }
    apply (IH fs1 H).
    + destruct (decide (q = to ++ e.1)) as [->|Hne].
      * specialize (Hsame e (list_elem_of_here _ _) Hreg eq_refl).
        apply is_regular_file_lookup in Hreg as (c'' & Hne' & Hl).
        rewrite node_at_lookup in Hsrc by done. congruence.
      * by eapply kept_or_mkdir_file; [apply K|].
    + intros e' Hin Hreg' ->.
      apply is_regular_file_lookup in Hreg' as (c'' & Hne' & Hl).
      pose proof (kept_or_mkdir_file_inv _ _ _ _ (Kfrom e'.1) Hl) as Hl0.
      rewrite Hl. f_equal. f_equal.
      assert (fs !! (from ++ e'.1) = Some (File c)) as Hc.
      { apply Hsame; [by right| |done].
        apply is_regular_file_lookup. by exists c''. }
      congruence.
  - simpl in H. apply (IH fs H Hq).
    intros e' Hin. apply Hsame. by right.
Qed.

Lemma copy_entries_copies from to es fs fs' e c :
  independent from to → to ≠ [] →
  copy_entries from to es fs = Some fs' →
  e ∈ es → e.1 ≠ [] → fs !! (from ++ e.1) = Some (File c) →
  fs' !! (to ++ e.1) = Some (File c).
Proof.
  intros Hind Hto. revert fs.
  induction es as [|e0 es IH]; intros fs H Hin Hne Hsrc; [by apply elem_of_nil in Hin|].
  unfold copy_entries in H, IH.
  simpl in H.
  assert (from ++ e.1 ≠ []) as Hfe by (destruct from; [by destruct (e.1)|done]).
  destruct (is_regular_file fs (from ++ e0.1)) eqn:Hreg.
  - destruct (install (from ++ e0.1) (to ++ e0.1) fs) as [fs1|] eqn:E1;
      simpl in H; [|done].
    apply install_spec in E1 as (c' & Hsrc' & _ & Hdst & K); [|by destruct to].
    assert (∀ r, kept_or_mkdir fs fs1 (from ++ r)) as Kfrom.
    { intros r. apply K. apply Hind. }
    pose proof (kept_or_mkdir_file _ _ _ _ (Kfrom e.1) Hsrc) as Hsrc1.
    apply elem_of_cons in Hin as [->|Hin].
    + apply (copy_entries_keeps from to es fs1 fs' _ c Hind Hto H).
      * rewrite node_at_lookup in Hsrc' by done. congruence.
      * intros e' _ _ Heq. apply app_inv_head in Heq. by rewrite <- Heq.
    + by apply (IH fs1).
  - simpl in H. apply elem_of_cons in Hin as [->|Hin].
    + assert (is_regular_file fs (from ++ e0.1) = true) as Ht
        by (apply is_regular_file_lookup; by exists c).
      congruence.
    + by apply (IH fs).
Qed.

(** Copying a directory onto itself fails at the first regular file. *)
Lemma copy_entries_self d es fs fs' e :
  copy_entries d d es fs = Some fs' → e ∈ es →
  is_regular_file fs (d ++ e.1) = false.
Proof.
  unfold copy_entries.
  revert fs. induction es as [|e0 es IH]; intros fs H Hin; [by apply elem_of_nil in Hin|].
  simpl in H. destruct (is_regular_file fs (d ++ e0.1)) eqn:Hreg.
  - by rewrite install_self in H.
  - simpl in H. apply elem_of_cons in Hin as [->|Hin]; [done|]. by apply (IH fs).
Qed.

End snapshot.

Section createCommit.
Implicit Types (fs : filesystem) (p q d rel from to : path) (c id parent : string).

Lemma copy_entries_frame from to es fs fs' q :
  to ≠ [] → copy_entries from to es fs = Some fs' →
  (∀ r, q ≠ to ++ r) → kept_or_mkdir fs fs' q.
Proof.
  intros Hto. unfold copy_entries. revert fs.
  induction es as [|e es IH]; intros fs H Hq; simpl in H.
  - simplify_eq. apply kept_or_mkdir_refl.
  - destruct (is_regular_file fs (from ++ e.1)); [|by apply IH].
    destruct (install (from ++ e.1) (to ++ e.1) fs) as [fs1|] eqn:E1;
      simpl in H; [|done].
    apply install_spec in E1 as (_ & _ & _ & _ & K); [|by destruct to].
    eapply kept_or_mkdir_trans; [by apply K | by apply IH].
Qed.

Lemma copy_tree_frame from to fs fs' q :
  to ≠ [] → copy_tree from to fs = Some fs' →
  (∀ r, q ≠ to ++ r) → kept_or_mkdir fs fs' q.
Proof.
  unfold copy_tree. intros Hto H.
  destruct (recursive_directory_iterator fs from) as [es|]; simpl in H; [|done].
  by apply (copy_entries_frame from to es).
Qed.

Lemma copy_tree_copies from to fs fs' rel c :
  independent from to → to ≠ [] → copy_tree from to fs = Some fs' →
  rel ≠ [] → fs !! (from ++ rel) = Some (File c) →
  fs' !! (to ++ rel) = Some (File c).
Proof.
  unfold copy_tree, recursive_directory_iterator. intros Hind Hto H Hrel Hsrc.
  destruct (node_at fs from) as [[|]|]; simpl in H; try done.
  apply (copy_entries_copies from to _ fs fs' (rel, File c) c Hind Hto H); try done.
  by apply elem_of_entries_under.
Qed.

Lemma copy_tree_keeps from to fs fs' q c :
  independent from to → to ≠ [] → copy_tree from to fs = Some fs' →
  fs !! q = Some (File c) →
  (∀ rel, is_regular_file fs (from ++ rel) = true → q ≠ to ++ rel) →
  fs' !! q = Some (File c).
Proof.
  unfold copy_tree. intros Hind Hto H Hq Hother.
  destruct (recursive_directory_iterator fs from) as [es|]; simpl in H; [|done].
  apply (copy_entries_keeps from to es fs fs' q c Hind Hto H Hq).
  intros e _ Hreg ->. by destruct (Hother e.1 Hreg).
Qed.

(** A directory copied onto itself: the copy ends the process unless the
    directory holds no regular file. *)
Lemma copy_tree_self d fs fs' rel :
  copy_tree d d fs = Some fs' → rel ≠ [] →
  is_regular_file fs (d ++ rel) = false.
Proof.
  unfold copy_tree, recursive_directory_iterator. intros H Hrel.
  destruct (node_at fs d) as [[|]|]; simpl in H; try done.
  destruct (fs !! (d ++ rel)) as [n|] eqn:E.
  - apply (copy_entries_self d _ fs fs' (rel, n) H).
    by apply elem_of_entries_under.
  - unfold is_regular_file. destruct (d ++ rel); [done|]. simpl. by rewrite E.
Qed.

Lemma copy_tree_needs_directory from to fs fs' :
  copy_tree from to fs = Some fs' → node_at fs from = Some Dir.
Proof.
  unfold copy_tree, recursive_directory_iterator. intros H.
  by destruct (node_at fs from) as [[|]|].
Qed.

Lemma elem_of_ancestors d rel : d ≠ [] → rel ≠ [] → d ∈ ancestors (d ++ rel).
Proof.
  intros Hd Hrel. unfold ancestors. apply list_elem_of_fmap.
  exists (length d). split.
  - by rewrite take_app_length.
  - apply elem_of_seq. rewrite length_app.
    destruct d; [done|]. destruct rel; [done|]. simpl. lia.
Qed.

Lemma well_formed_ancestor fs q n a :
  well_formed fs → fs !! q = Some n → a ∈ ancestors q → fs !! a = Some Dir.
Proof.
  unfold well_formed. rewrite forallb_forall. intros Hwf Hq Ha.
  specialize (Hwf (q, n)). simpl in Hwf.
  rewrite forallb_forall in Hwf.
  assert (In (q, n) (map_to_list fs)) as Hin
    by by apply list_elem_of_In, elem_of_map_to_list.
  specialize (Hwf Hin a (proj1 (list_elem_of_In _ _) Ha)).
  by apply bool_decide_eq_true in Hwf.
Qed.

Lemma well_formed_directory fs d rel n :
  well_formed fs → d ≠ [] → rel ≠ [] → fs !! (d ++ rel) = Some n →
  fs !! d = Some Dir.
Proof.
  intros Hwf Hd Hrel Hl.
  eapply well_formed_ancestor; [done..|]. by apply elem_of_ancestors.
Qed.

Lemma kept_or_mkdir_dir fs fs' q :
  kept_or_mkdir fs fs' q → fs !! q = Some Dir → fs' !! q = Some Dir.
Proof. intros [H|[H _]] Hq; congruence. Qed.

Lemma independent_staging_data id : independent staging (dataPath id).
Proof. intros r1 r2 H. discriminate H. Qed.

Lemma independent_data_staging id : independent (dataPath id) staging.
Proof. intros r1 r2 H. discriminate H. Qed.

Lemma independent_data parent id : parent ≠ id → independent (dataPath parent) (dataPath id).
Proof. intros Hne r1 r2 H. injection H as H. done. Qed.

Lemma dataPath_nonempty id : dataPath id ≠ [].
Proof. discriminate. Qed.

Lemma commitInfoPath_not_data id rel : commitInfoPath id ≠ dataPath id ++ rel.
Proof. intros H. discriminate H. Qed.

(** C2.  A commit that [createCommit] completes holds every staged file with
    its staged bytes, and every file of the parent's snapshot that is not
    staged with the parent's bytes. *)
Theorem createCommit_inherits_and_overlays
    (id parent msg now : string) (fs fs' : filesystem) :
  well_formed fs →
  createCommit id parent msg now fs = Some fs' →
  (∀ rel c, fs !! (staging ++ rel) = Some (File c) →
            fs' !! (dataPath id ++ rel) = Some (File c)) ∧
  (parent ≠ "" →
   ∀ rel c, fs !! (dataPath parent ++ rel) = Some (File c) →
            is_regular_file fs (staging ++ rel) = false →
            fs' !! (dataPath id ++ rel) = Some (File c)).
Proof.
  intros Hwf H. unfold createCommit in H.
  destruct (create_directories (dataPath id) fs) as [fsA|] eqn:EA; simpl in H; [|done].
  pose proof (create_directories_kept _ _ _ EA) as KA.
  match type of H with (?inh ≫= _) = _ => destruct inh as [fsB|] eqn:EB end;
    simpl in H; [|done].
  match type of H with (?ovl ≫= _) = _ => destruct ovl as [fsC|] eqn:EC end;
    simpl in H; [|done].
  destruct (ofstream_opens fsC (commitInfoPath id)); [|done].
  injection H as <-.
  assert (∀ q, (∀ r, q ≠ dataPath id ++ r) → kept_or_mkdir fsA fsB q) as KB.
  { intros q Hq. destruct (negb (bool_decide (parent = ""))).
    - destruct (fs_exists fsA (dataPath parent)).
      + by eapply copy_tree_frame; [apply dataPath_nonempty|..].
      + simplify_eq. apply kept_or_mkdir_refl.
    - simplify_eq. apply kept_or_mkdir_refl. }
  assert (∀ rel, kept_or_mkdir fs fsB (staging ++ rel)) as KS.
  { intros rel. eapply kept_or_mkdir_trans; [apply KA|].
    apply KB. intros r. apply independent_staging_data. }
  split.
  - intros rel c Hs.
    rewrite lookup_insert_ne by apply commitInfoPath_not_data.
    pose proof (kept_or_mkdir_file _ _ _ _ (KS rel) Hs) as HsB.
    destruct (decide (rel = [])) as [->|Hrel].
    + rewrite app_nil_r in HsB. unfold fs_exists in EC.
      rewrite node_at_lookup, HsB in EC by done.
      apply copy_tree_needs_directory in EC.
      rewrite node_at_lookup in EC by done. congruence.
    + assert (fsB !! staging = Some Dir) as Hdir.
      { specialize (KS []). rewrite app_nil_r in KS.
        apply (kept_or_mkdir_dir _ _ _ KS).
        by eapply well_formed_directory. }
      unfold fs_exists in EC. rewrite node_at_lookup, Hdir in EC by done.
      eapply copy_tree_copies;
        [apply independent_staging_data|apply dataPath_nonempty|done..].
  - intros Hparent rel c Hp Hns.
    rewrite lookup_insert_ne by apply commitInfoPath_not_data.
    pose proof (kept_or_mkdir_file _ _ _ _ (KA _) Hp) as HpA.
    rewrite bool_decide_eq_false_2 in EB by done. simpl in EB.
    assert (fsB !! (dataPath id ++ rel) = Some (File c)) as HB.
    { destruct (decide (rel = [])) as [->|Hrel].
      - rewrite app_nil_r in HpA. unfold fs_exists in EB.
        rewrite node_at_lookup, HpA in EB by done.
        apply copy_tree_needs_directory in EB.
        rewrite node_at_lookup in EB by done. congruence.
      - assert (fsA !! dataPath parent = Some Dir) as Hdir.
        { apply (kept_or_mkdir_dir _ _ _ (KA _)).
          by eapply well_formed_directory. }
        unfold fs_exists in EB. rewrite node_at_lookup, Hdir in EB by done.
        destruct (decide (parent = id)) as [->|Hne].
        + apply (copy_tree_self _ _ _ rel) in EB; [|done].
          assert (is_regular_file fsA (dataPath id ++ rel) = true) as Ht
            by (apply is_regular_file_lookup; by exists c).
          congruence.
        + eapply copy_tree_copies;
            [by apply independent_data|apply dataPath_nonempty|done..]. }
    destruct (fs_exists fsB staging); [|by simplify_eq].
    eapply copy_tree_keeps;
      [apply independent_staging_data|apply dataPath_nonempty|done..|].
    intros r Hreg Heq. apply app_inv_head in Heq. subst r.
    apply is_regular_file_lookup in Hreg as (c' & _ & Hl).
    pose proof (kept_or_mkdir_file_inv _ _ _ _ (KS rel) Hl) as Hl0.
    assert (is_regular_file fs (staging ++ rel) = true) as Ht
      by (apply is_regular_file_lookup; by exists c').
    congruence.
Qed.

End createCommit.

(** * What a commit leaves alone *)

Section untouched.
Implicit Types (fs : filesystem) (p q d rel from to src dst base : path) (c id : string).

Lemma create_directories_from_untouched base p fs fs' q :
  create_directories_from base p fs = Some fs' →
  (∀ r, base ++ p ≠ q ++ r) → fs' !! q = fs !! q.
Proof.
  revert base fs. induction p as [|x p IH]; intros base fs H Hq; simpl in H.
  - by simplify_eq.
  - assert (∀ r, (base ++ [x]) ++ p ≠ q ++ r) as Hq'
      by (intros r; rewrite <- app_assoc; apply Hq).
    destruct (node_at fs (base ++ [x])) as [[c|]|] eqn:E; [done|by eapply IH|].
    rewrite (IH _ _ H Hq'). apply lookup_insert_ne.
    intros <-. by apply (Hq' p).
Qed.

Lemma create_directories_untouched p fs fs' q :
  create_directories p fs = Some fs' → (∀ r, p ≠ q ++ r) → fs' !! q = fs !! q.
Proof. apply create_directories_from_untouched. Qed.

Lemma parent_path_app p : p ≠ [] → ∃ x, p = parent_path p ++ [x].
Proof.
  intros Hp. destruct (exists_last Hp) as (p' & x & ->).
  exists x. unfold parent_path. by rewrite removelast_last.
Qed.

Lemma install_untouched src dst fs fs' q :
  install src dst fs = Some fs' → dst ≠ [] →
  (∀ r, dst ≠ q ++ r) → fs' !! q = fs !! q.
Proof.
  intros H Hdst Hq. unfold install in H.
  destruct (create_directories (parent_path dst) fs) as [fs1|] eqn:E1;
    simpl in H; [|done].
  destruct (if fs_exists fs1 dst then fs_remove dst fs1 else Some fs1)
    as [fs2|] eqn:E2; simpl in H; [|done].
  assert (q ≠ dst) as Hne by (intros ->; apply (Hq []); by rewrite app_nil_r).
  apply copy_file_spec in H as (c & _ & -> & _).
  rewrite lookup_insert_ne by done.
  transitivity (fs1 !! q).
  - destruct (fs_exists fs1 dst); [|by simplify_eq].
    by apply fs_remove_spec in E2 as [_ ->].
  - apply (create_directories_untouched _ _ _ _ E1).
    intros r Hr. destruct (parent_path_app dst Hdst) as [x Hx].
    apply (Hq (r ++ [x])). rewrite Hx, Hr. by rewrite <- app_assoc.
Qed.

Lemma copy_entries_untouched from to es fs fs' q :
  to ≠ [] → copy_entries from to es fs = Some fs' →
  (∀ r r', to ++ r ≠ q ++ r') → fs' !! q = fs !! q.
Proof.
  intros Hto. unfold copy_entries. revert fs.
  induction es as [|e es IH]; intros fs H Hq; simpl in H; [by simplify_eq|].
  destruct (is_regular_file fs (from ++ e.1)); [|by apply IH].
  destruct (install (from ++ e.1) (to ++ e.1) fs) as [fs1|] eqn:E1;
    simpl in H; [|done].
  rewrite (IH _ H Hq).
  apply (install_untouched _ _ _ _ _ E1); [by destruct to|]. apply Hq.
Qed.

Lemma copy_tree_untouched from to fs fs' q :
  to ≠ [] → copy_tree from to fs = Some fs' →
  (∀ r r', to ++ r ≠ q ++ r') → fs' !! q = fs !! q.
Proof.
  unfold copy_tree. intros Hto H.
  destruct (recursive_directory_iterator fs from) as [es|]; simpl in H; [|done].
  by apply (copy_entries_untouched from to es).
Qed.

Lemma createCommit_untouched id parent msg now fs fs' q :
  createCommit id parent msg now fs = Some fs' →
  outside_commit id q → fs' !! q = fs !! q.
Proof.
  intros H Hq. unfold createCommit in H.
  assert (∀ r r', dataPath id ++ r ≠ q ++ r') as Hq'.
  { intros r r'. unfold dataPath. rewrite <- app_assoc. apply Hq. }
  destruct (create_directories (dataPath id) fs) as [fsA|] eqn:EA; simpl in H; [|done].
  match type of H with (?inh ≫= _) = _ => destruct inh as [fsB|] eqn:EB end;
    simpl in H; [|done].
  match type of H with (?ovl ≫= _) = _ => destruct ovl as [fsC|] eqn:EC end;
    simpl in H; [|done].
  destruct (ofstream_opens fsC (commitInfoPath id)); [|done].
  injection H as <-.
  rewrite lookup_insert_ne
    by (intros Heq; apply (Hq ["commitInfo.txt"] []); by rewrite app_nil_r).
  transitivity (fsB !! q); [|transitivity (fsA !! q)].
  - destruct (fs_exists fsB staging); [|by simplify_eq].
    by eapply copy_tree_untouched; [apply dataPath_nonempty|..].
  - destruct (negb (bool_decide (parent = ""))); [|by simplify_eq].
    destruct (fs_exists fsA (dataPath parent)); [|by simplify_eq].
    by eapply copy_tree_untouched; [apply dataPath_nonempty|..].
  - apply (create_directories_untouched _ _ _ _ EA).
    intros r. specialize (Hq' [] r). by rewrite app_nil_r in Hq'.
Qed.

Lemma outside_commit_HEAD id : outside_commit id HEAD.
Proof. intros r r' H. discriminate H. Qed.

Lemma outside_commit_staging id rel : outside_commit id (staging ++ rel).
Proof. intros r r' H. discriminate H. Qed.

Lemma create_directories_from_prefix base p fs fs' a r :
  create_directories_from base p fs = Some fs' → p = a ++ r → a ≠ [] →
  fs' !! (base ++ a) = Some Dir.
Proof.
  revert base fs a. induction p as [|x p IH]; intros base fs a H Hp Ha.
  - by destruct a.
  - destruct a as [|y a]; [done|]. simpl in Hp. injection Hp as <- Hp.
    simpl in H.
    assert (∃ fs1, create_directories_from (base ++ [x]) p fs1 = Some fs'
                   ∧ fs1 !! (base ++ [x]) = Some Dir) as (fs1 & H1 & Hd).
    { destruct (node_at fs (base ++ [x])) as [[c|]|] eqn:E; [done| |].
      - exists fs. split; [done|]. by rewrite node_at_lookup in E by by destruct base.
      - eexists. split; [done|]. apply lookup_insert_eq. }
    destruct a as [|z a].
    + apply (kept_or_mkdir_dir fs1); [|done].
      by eapply create_directories_from_kept.
    + replace (base ++ x :: z :: a) with ((base ++ [x]) ++ z :: a)
        by by rewrite <- app_assoc.
      by eapply IH.
Qed.

Lemma createCommit_gitDir id parent msg now fs fs' :
  createCommit id parent msg now fs = Some fs' → fs' !! gitDir = Some Dir.
Proof.
  intros H. unfold createCommit in H.
  destruct (create_directories (dataPath id) fs) as [fsA|] eqn:EA; simpl in H; [|done].
  match type of H with (?inh ≫= _) = _ => destruct inh as [fsB|] eqn:EB end;
    simpl in H; [|done].
  match type of H with (?ovl ≫= _) = _ => destruct ovl as [fsC|] eqn:EC end;
    simpl in H; [|done].
  destruct (ofstream_opens fsC (commitInfoPath id)); [|done].
  injection H as <-.
  rewrite lookup_insert_ne by done.
  assert (∀ r, gitDir ≠ dataPath id ++ r) as Hg by (intros r Hr; discriminate Hr).
  assert (fsA !! gitDir = Some Dir) as HA.
  { apply (create_directories_from_prefix [] _ _ _ gitDir ["commits"; id; "Data"] EA);
      done. }
  assert (fsB !! gitDir = Some Dir) as HB.
  { destruct (negb (bool_decide (parent = ""))); [|by simplify_eq].
    destruct (fs_exists fsA (dataPath parent)); [|by simplify_eq].
    eapply kept_or_mkdir_dir; [|done].
    by eapply copy_tree_frame; [apply dataPath_nonempty|..]. }
  destruct (fs_exists fsB staging); [|by simplify_eq].
  eapply kept_or_mkdir_dir; [|done].
  by eapply copy_tree_frame; [apply dataPath_nonempty|..].
Qed.

End untouched.

(** * Identifiers and the head file *)

Section strings.
Implicit Types (s t : string) (c : ascii).

Lemma no_space_no_newline s : no_space s = true → no_newline s = true.
Proof.
  unfold no_space, no_newline. induction s as [|c s IH]; simpl; [done|].
  rewrite !andb_true_iff. intros [Hc Hs]. split; [|by apply IH].
  unfold isspace in Hc. destruct (Ascii.eqb c "010"); [|done].
  by rewrite !orb_true_r in Hc.
Qed.

Lemma getline_go_no_newline s : no_newline s = true → getline_go s = (s, "").
Proof.
  unfold no_newline. induction s as [|c s IH]; simpl; [done|].
  rewrite andb_true_iff. intros [Hc Hs].
  destruct (Ascii.eqb c "010"); [done|]. by rewrite IH.
Qed.

Lemma getline_no_newline s : s ≠ "" → no_newline s = true → getline s = Some (s, "").
Proof.
  intros Hs Hn. unfold getline.
  rewrite getline_go_no_newline by done. by destruct s.
Qed.

Lemma remove_spaces_no_space s : no_space s = true → remove_spaces s = s.
Proof.
  unfold no_space. induction s as [|c s IH]; simpl; [done|].
  rewrite andb_true_iff. intros [Hc Hs].
  destruct (isspace c); [done|]. by rewrite IH.
Qed.

Lemma is_trim_char_isspace c : is_trim_char c = true → isspace c = true.
Proof.
  unfold is_trim_char, isspace.
  destruct (Ascii.eqb c " "), (Ascii.eqb c "010"), (Ascii.eqb c "013"),
    (Ascii.eqb c "009"); simpl; try done; by rewrite ?orb_true_r.
Qed.

Lemma drop_trailing_no_space s :
  no_space s = true → drop_trailing_trim_chars s = s.
Proof.
  unfold no_space. induction s as [|c s IH]; simpl; [done|].
  rewrite andb_true_iff. intros [Hc Hs]. rewrite IH by done.
  destruct s; [|done].
  destruct (is_trim_char c) eqn:E; [|done].
  apply is_trim_char_isspace in E. by rewrite E in Hc.
Qed.

Lemma trim_no_space s : no_space s = true → trim s = s.
Proof.
  intros Hs. destruct s as [|c s]; [done|].
  unfold trim. pose proof Hs as Hs'. unfold no_space in Hs'. simpl in Hs'.
  apply andb_true_iff in Hs' as [Hc _].
  assert (is_trim_char c = false) as Hc'.
  { destruct (is_trim_char c) eqn:E; [|done].
    apply is_trim_char_isspace in E. by rewrite E in Hc. }
  assert (drop_trim_chars (String c s) = String c s) as Hd
    by (simpl; by rewrite Hc').
  assert (all_trim_chars (String c s) = false) as Ha
    by (unfold all_trim_chars; by rewrite Hd).
  rewrite Hd, Ha. by apply drop_trailing_no_space.
Qed.

Lemma alphanum_no_space k :
  k < 62 → isspace (char_at alphanum k) = false.
Proof.
  intros Hk.
  assert (forallb (λ k, negb (isspace (char_at alphanum k))) (seq 0 62) = true)
    as Hall by reflexivity.
  rewrite forallb_forall in Hall.
  apply negb_true_iff, Hall, in_seq. lia.
Qed.

Lemma gen_random_from_no_space rnd i n : no_space (gen_random_from rnd i n) = true.
Proof.
  unfold no_space. revert i. induction n as [|n IH]; intros i; [done|].
  cbn [gen_random_from string_forallb].
  rewrite alphanum_no_space by (apply Nat.mod_upper_bound; lia). apply IH.
Qed.

Lemma gen_random_no_space rnd n : no_space (gen_random rnd n) = true.
Proof. apply gen_random_from_no_space. Qed.

Lemma gen_random_nonempty rnd n : gen_random rnd (S n) ≠ "".
Proof. done. Qed.

End strings.

Lemma getHEAD_written fs id :
  fs !! HEAD = Some (File id) → id ≠ "" → no_space id = true → getHEAD fs = id.
Proof.
  intros Hl Hne Hid. unfold getHEAD, getline_file, read_file.
  rewrite node_at_lookup, Hl by done.
  rewrite getline_no_newline by (done || by apply no_space_no_newline). simpl.
  rewrite remove_spaces_no_space by done.
  by rewrite bool_decide_eq_false_2.
Qed.

(** * Committing *)

Section gitCommit.
Implicit Types (fs : filesystem) (p q rel : path) (st : state).

Lemma remove_all_lookup_below p rel fs : remove_all p fs !! (p ++ rel) = None.
Proof.
  unfold remove_all. apply map_lookup_filter_None. right.
  intros n _. simpl. by rewrite strip_prefix_app.
Qed.

Lemma remove_all_lookup_other p q fs :
  (∀ r, q ≠ p ++ r) → remove_all p fs !! q = fs !! q.
Proof.
  intros Hq. unfold remove_all.
  destruct (fs !! q) as [n|] eqn:E.
  - apply map_lookup_filter_Some. split; [done|]. simpl.
    by apply strip_prefix_None.
  - apply map_lookup_filter_None. by left.
Qed.

Lemma create_directory_spec p fs fs' :
  create_directory p fs = Some fs' → p ≠ [] →
  fs' !! p = Some Dir ∧ ∀ q, q ≠ p → fs' !! q = fs !! q.
Proof.
  unfold create_directory. intros H Hp. rewrite node_at_lookup in H by done.
  destruct (fs !! p) as [[c|]|] eqn:E; [done|by simplify_eq|].
  destruct (is_directory fs (parent_path p)); simplify_eq.
  split; [apply lookup_insert_eq | intros q Hq; by apply lookup_insert_ne].
Qed.

Lemma clearStagingArea_spec fs fs' :
  clearStagingArea fs = Some fs' → fs_exists fs staging = true →
  (∀ rel, is_regular_file fs' (staging ++ rel) = false) ∧
  (∀ q, (∀ r, q ≠ staging ++ r) → fs' !! q = fs !! q).
Proof.
  unfold clearStagingArea. intros H Hex. rewrite Hex in H.
  apply create_directory_spec in H as [Hs Ho]; [|done]. split.
  - intros rel. unfold is_regular_file. rewrite node_at_app by done.
    destruct (decide (rel = [])) as [->|Hrel].
    + by rewrite app_nil_r, Hs.
    + rewrite Ho, remove_all_lookup_below; [done|].
      intros Heq. apply Hrel. apply (app_inv_head staging). by rewrite app_nil_r.
  - intros q Hq. rewrite Ho, remove_all_lookup_other; [done..|].
    intros ->. apply (Hq []). by rewrite app_nil_r.
Qed.

Lemma staging_empty_true fs :
  (∀ rel, is_regular_file fs (staging ++ rel) = false) →
  staging_empty fs = Some true.
Proof.
  intros Hno. unfold staging_empty, fs_exists, recursive_directory_iterator.
  pose proof (Hno []) as H0. rewrite app_nil_r in H0. unfold is_regular_file in H0.
  destruct (node_at fs staging) as [[c|]|]; [done| |done]. simpl. f_equal.
  apply forallb_forall. intros [rel n] Hin.
  apply list_elem_of_In, elem_of_entries_under in Hin as [Hrel Hl]. simpl.
  specialize (Hno rel). unfold is_regular_file in Hno.
  rewrite node_at_app, Hl in Hno by done. by destruct n.
Qed.

Lemma forallb_false_witness {A} (f : A → bool) (l : list A) :
  forallb f l = false → ∃ x, x ∈ l ∧ f x = false.
Proof.
  induction l as [|x l IH]; simpl; [done|].
  destruct (f x) eqn:E; simpl.
  - intros H. destruct (IH H) as (y & Hy & Hf). exists y. split; [by right|done].
  - intros _. exists x. split; [by left|done].
Qed.

Lemma staging_empty_false fs :
  staging_empty fs = Some false →
  fs_exists fs staging = true ∧ ∃ rel, is_regular_file fs (staging ++ rel) = true.
Proof.
  unfold staging_empty, recursive_directory_iterator. intros H.
  destruct (fs_exists fs staging); [|done]. split; [done|].
  destruct (node_at fs staging) as [[c|]|]; simpl in H; try done.
  injection H as H.
  destruct (forallb_false_witness _ _ H) as ([rel n] & Hin & Hn).
  apply elem_of_entries_under in Hin as [Hrel Hl].
  exists rel. unfold is_regular_file. rewrite node_at_app, Hl by done.
  simpl in Hn. by destruct n.
Qed.

(** C4.  With no regular file staged, [gitCommit] returns false and leaves
    every file as it was: no commit is created and the head keeps its
    value. *)
Theorem gitCommit_nothing_staged
    (rnd : nat → nat) (now msg : string) (st : state) :
  (∀ rel, is_regular_file (files st) (staging ++ rel) = false) →
  gitCommit rnd now msg st =
    Some (false, State (files st)
                       (console st ++ ["Nothing to commit, staging area is empty."])).
Proof.
  intros Hno. unfold gitCommit, bind, get_files, try_value.
  by rewrite (staging_empty_true _ Hno).
Qed.

(** C5.  When [gitCommit] returns true, the staging area holds no regular
    file, the head file names the commit just created, and that commit's
    record exists with the old head as its parent. *)
Theorem gitCommit_clears_staging_and_moves_head
    (rnd : nat → nat) (now msg : string) (st st' : state) :
  is_directory (files st) HEAD = false →
  gitCommit rnd now msg st = Some (true, st') →
  (∀ rel, is_regular_file (files st') (staging ++ rel) = false) ∧
  getHEAD (files st') = gen_random rnd 8 ∧
  read_file (files st') (commitInfoPath (gen_random rnd 8)) =
    Some (commitInfo_text (gen_random rnd 8) (head_parent (files st)) msg now).
Proof.
  intros Hhead H. unfold gitCommit, bind, get_files, try_value, fs_try, print, ret in H.
  destruct (staging_empty (files st)) as [[|]|] eqn:Eempty; simpl in H; try done.
  apply staging_empty_false in Eempty as [Hstaging _].
  destruct (addOnTail rnd now msg (files st)) as [fs1|] eqn:Etail; simpl in H; [|done].
  destruct (clearStagingArea fs1) as [fs2|] eqn:Eclear; simpl in H; [|done].
  injection H as <-. simpl.
  unfold addOnTail in Etail. set (id := gen_random rnd 8) in *.
  destruct (createCommit id (head_parent (files st)) msg now (files st))
    as [fsc|] eqn:Ecommit; simpl in Etail; [|done].
  injection Etail as <-.
  pose proof (createCommit_untouched _ _ _ _ _ _ HEAD Ecommit
                (outside_commit_HEAD id)) as HH.
  pose proof (createCommit_untouched _ _ _ _ _ _ staging Ecommit) as HS.
  rewrite <- (app_nil_r staging) in HS at 1 2.
  specialize (HS (outside_commit_staging id [])). rewrite app_nil_r in HS.
  pose proof (createCommit_gitDir _ _ _ _ _ _ Ecommit) as HG.
  assert (write_file HEAD id fsc = <[HEAD := File id]> fsc) as Hw.
  { unfold write_file, ofstream_opens, is_directory in *. simpl in *.
    rewrite HH. change (fsc !! [".git"]) with (fsc !! gitDir). rewrite HG.
    by destruct (files st !! HEAD) as [[c|]|]. }
  rewrite Hw in Eclear.
  apply clearStagingArea_spec in Eclear as [Hclean Hother].
  2:{ unfold fs_exists in *. simpl in *. rewrite lookup_insert_ne by done.
      change (fsc !! [".git"; "staging_area"]) with (fsc !! staging).
      by rewrite HS. }
  split; [done|split].
  - apply getHEAD_written.
    + rewrite Hother by (intros r Hr; discriminate Hr). apply lookup_insert_eq.
    + apply gen_random_nonempty.
    + apply gen_random_no_space.
  - unfold read_file. rewrite node_at_lookup by done.
    rewrite Hother by (intros r Hr; discriminate Hr).
    rewrite lookup_insert_ne by done.
    unfold createCommit in Ecommit.
    destruct (create_directories (dataPath id) (files st)) as [fsA|];
      simpl in Ecommit; [|done].
    match type of Ecommit with (?inh ≫= _) = _ => destruct inh as [fsB|] end;
      simpl in Ecommit; [|done].
    match type of Ecommit with (?ovl ≫= _) = _ => destruct ovl as [fsC|] end;
      simpl in Ecommit; [|done].
    destruct (ofstream_opens fsC (commitInfoPath id)); [|done].
    injection Ecommit as <-. by rewrite lookup_insert_eq.
Qed.

End gitCommit.

(** * Reverting *)

Lemma for_eachM_print (out : list string) (st : state) :
  for_eachM print out st = Some (tt, State (files st) (console st ++ out)).
Proof.
  revert st. induction out as [|l out IH]; intros st; simpl.
  - unfold ret. rewrite app_nil_r. by destruct st.
  - unfold bind, print. rewrite IH. simpl. by rewrite <- app_assoc.
Qed.


(** * Walking the history *)

Section log.
Implicit Types (s l r rest : string) (fs : filesystem).

Lemma string_app_assoc s1 s2 s3 : (s1 +:+ s2) +:+ s3 = s1 +:+ s2 +:+ s3.
Proof.
  induction s1 as [|c s1 IH]; [done|].
  change (String c ((s1 +:+ s2) +:+ s3) = String c (s1 +:+ s2 +:+ s3)).
  by f_equal.
Qed.

Lemma getline_go_line l rest :
  no_newline l = true → getline_go (l +:+ nl +:+ rest) = (l, rest).
Proof.
  unfold no_newline. induction l as [|c l IH]; [done|].
  cbn [string_forallb]. rewrite andb_true_iff. intros [Hc Hl].
  change (getline_go (String c (l +:+ nl +:+ rest)) = (String c l, rest)).
  cbn [getline_go]. destruct (Ascii.eqb c "010"); [done|]. by rewrite IH.
Qed.

Lemma getline_line l rest :
  no_newline l = true → getline (l +:+ nl +:+ rest) = Some (l, rest).
Proof.
  intros Hl. unfold getline. rewrite getline_go_line by done.
  by destruct l.
Qed.

Lemma getline_go_shorter s : String.length (getline_go s).2 ≤ String.length s.
Proof.
  induction s as [|c s IH]; simpl; [done|].
  destruct (Ascii.eqb c "010"); simpl; [lia|].
  destruct (getline_go s) as [l r]. simpl in *. lia.
Qed.

Lemma getline_shorter s l r :
  getline s = Some (l, r) → String.length r < String.length s.
Proof.
  destruct s as [|c s]; [done|]. unfold getline. intros [= H].
  simpl in H. destruct (Ascii.eqb c "010").
  - simplify_eq. simpl. lia.
  - pose proof (getline_go_shorter s) as Hs.
    destruct (getline_go s) as [l' r']. simplify_eq. simpl in *. lia.
Qed.

Lemma read_lines_fuel_enough n m s :
  String.length s ≤ n → String.length s ≤ m →
  read_lines_fuel n s = read_lines_fuel m s.
Proof.
  revert m s. induction n as [|n IH]; intros m s Hn Hm.
  - destruct s; [|simpl in Hn; lia]. by destruct m.
  - destruct m as [|m]; [destruct s; [done|simpl in Hm; lia]|].
    simpl. destruct (getline s) as [[l r]|] eqn:E; [|done].
    apply getline_shorter in E. f_equal. apply IH; lia.
Qed.

Lemma read_lines_line l rest :
  no_newline l = true → read_lines (l +:+ nl +:+ rest) = l :: read_lines rest.
Proof.
  intros Hl. unfold read_lines.
  pose proof (getline_line l rest Hl) as Hg.
  pose proof (getline_shorter _ _ _ Hg) as Hlen.
  destruct (String.length (l +:+ nl +:+ rest)) as [|n]; [lia|].
  cbn [read_lines_fuel]. rewrite Hg. f_equal. apply read_lines_fuel_enough; lia.
Qed.

Lemma no_newline_cons c1 c2 s :
  Ascii.eqb c1 "010" = false → Ascii.eqb c2 "010" = false →
  no_newline s = true → no_newline (String c1 (String c2 s)) = true.
Proof. intros H1 H2 Hs. unfold no_newline in *. simpl. by rewrite H1, H2. Qed.

Lemma read_lines_commitInfo id parent msg now :
  no_newline id = true → no_newline (parent_field parent) = true →
  no_newline msg = true → no_newline now = true →
  read_lines (commitInfo_text id parent msg now) =
    ["1." +:+ id; "2." +:+ parent_field parent; "3." +:+ msg; "4." +:+ now].
Proof.
  intros Hid Hp Hmsg Hnow. unfold commitInfo_text.
  fold (parent_field parent).
  rewrite <- (string_app_assoc "1." id).
  rewrite <- (string_app_assoc "2." (parent_field parent)).
  rewrite <- (string_app_assoc "3." msg).
  rewrite <- (string_app_assoc "4." now).
  rewrite !read_lines_line by (by apply no_newline_cons).
  replace (("4." +:+ now) +:+ nl) with (("4." +:+ now) +:+ nl +:+ "").
  - by rewrite read_lines_line by (by apply no_newline_cons).
  - f_equal.
Qed.

Lemma print_record_commitInfo id parent msg now :
  print_record ["1." +:+ id; "2." +:+ parent; "3." +:+ msg; "4." +:+ now] "" =
    Some (["Commit ID:    " +:+ id; "Commit Msg:   " +:+ msg;
           "Date & Time:  " +:+ now], parent).
Proof. reflexivity. Qed.

Lemma parent_field_no_space parent :
  no_space parent = true → no_space (parent_field parent) = true.
Proof. unfold parent_field. by case_bool_decide. Qed.

(** The walk prints the records of a chain and stops without a word at an
    identifier that is empty, ["NULL"], or has no record. *)
Lemma printCommitList_loop_history fs cur recs stop fuel :
  history fs cur recs stop →
  stop = "" ∨ stop = "NULL" ∨ fs_exists fs (commitInfoPath stop) = false →
  length recs ≤ fuel →
  printCommitList_loop fuel fs cur = Finished (concat (log_entry <$> recs)).
Proof.
  intros Hh Hstop. revert fuel.
  induction Hh as [cur|cur parent msg now rest stop Hne Hnull Hcur Hparent Hmsg Hnow
                    Hrec Hrest IH]; intros fuel Hfuel.
  - destruct Hstop as [->|[->|Hno]]; destruct fuel; simpl; try done.
    + destruct (bool_decide (cur = "") || bool_decide (cur = "NULL")); [done|].
      by rewrite Hno.
    + destruct (bool_decide (cur = "") || bool_decide (cur = "NULL")); [done|].
      by rewrite Hno.
  - destruct fuel as [|fuel]; [simpl in Hfuel; lia|].
    cbn [printCommitList_loop].
    rewrite !bool_decide_eq_false_2 by done. cbn [orb].
    assert (fs_exists fs (commitInfoPath cur) = true) as ->.
    { unfold fs_exists. unfold read_file in Hrec.
      by destruct (node_at fs (commitInfoPath cur)). }
    cbn [negb]. rewrite Hrec. cbn [default from_option id].
    pose proof (parent_field_no_space parent Hparent) as Hpf.
    rewrite read_lines_commitInfo by (done || by apply no_space_no_newline).
    rewrite print_record_commitInfo.
    rewrite trim_no_space by done.
    rewrite (IH Hstop fuel) by (simpl in Hfuel; lia).
    reflexivity.
Qed.

End log.

(** C7, as the code has it.  When the chain of records from the head ends
    at a commit whose parent has no record, [printCommitList] ends normally
    after the entries of the commits that do resolve, and prints nothing
    about the missing one. *)
Theorem printCommitList_stops_at_dangling_parent
    (fs : filesystem) (recs : list (string * string * string))
    (stop : string) (fuel : nat) :
  history fs (trim (default "" (getline_file fs HEAD))) recs stop →
  fs_exists fs (commitInfoPath stop) = false →
  length recs ≤ fuel →
  printCommitList fuel fs = Finished (concat (log_entry <$> recs)).
Proof.
  intros Hh Hstop Hfuel. unfold printCommitList.
  apply (printCommitList_loop_history fs _ recs stop fuel Hh); [|done].
  by right; right.
Qed.

Lemma printCommitList_stops_at_dangling_parent_witness :
  history (files session_dangling)
          (trim (default "" (getline_file (files session_dangling) HEAD)))
          [(id2, "second", time2)] id1 ∧
  fs_exists (files session_dangling) (commitInfoPath id1) = false ∧
  printCommitList 1 (files session_dangling) =
    Finished (concat (log_entry <$> [(id2, "second", time2)])).
Proof.
  assert (history (files session_dangling)
            (trim (default "" (getline_file (files session_dangling) HEAD)))
            [(id2, "second", time2)] id1) as Hh.
  { replace (trim (default "" (getline_file (files session_dangling) HEAD)))
      with id2 by (vm_compute; reflexivity).
    apply (history_step _ id2 id1 "second" time2 [] id1);
      [done|done|reflexivity..|vm_compute; reflexivity|apply history_end]. }
  assert (fs_exists (files session_dangling) (commitInfoPath id1) = false) as Hno
    by (vm_compute; reflexivity).
  split; [exact Hh|split; [exact Hno|]].
  apply (printCommitList_stops_at_dangling_parent _ _ id1 1 Hh Hno).
  simpl. lia.
Defined.

(** C7, as stated, fails: with the record of the head's parent missing, the
    walk ends normally, prints the head's entry alone, and its outcome is
    the one of a repository whose head commit is a root. *)
Lemma printCommitList_dangling_parent_unreported :
  read_file (files session_dangling) (commitInfoPath id2) =
    Some (commitInfo_text id2 id1 "second" time2) ∧
  fs_exists (files session_dangling) (commitInfoPath id1) = false ∧
  printCommitList 5 (files session_dangling) =
    Finished ["Commit ID:    abcdefgh"; "Commit Msg:   second";
              "Date & Time:  2026/01/01 10:05";
              "============================"; ""] ∧
  printCommitList 5 (files session_dangling) =
    printCommitList 5 (files session_rooted).
Proof. repeat split; vm_compute; reflexivity. Qed.

(** * Status *)

Section status.
Implicit Types (fs : filesystem) (p q rel d : path) (n : node) (cd : option path).

Lemma elem_of_walk skip fs rel n :
  (rel, n) ∈ walk skip fs ↔
  rel ≠ [] ∧ fs !! rel = Some n ∧ forallb (λ a, negb (skip a)) (ancestors rel) = true.
Proof.
  unfold walk. rewrite list_elem_of_filter, elem_of_entries_under. simpl. tauto.
Qed.

Lemma scan_staging_spec fs :
  well_formed fs → is_regular_file fs staging = false →
  ∃ s, scan_staging fs = Some s ∧
       ∀ rel, rel ∈ s ↔ is_regular_file fs (staging ++ rel) = true.
Proof.
  intros Hwf Hst. unfold scan_staging, fs_exists, recursive_directory_iterator.
  unfold is_regular_file in Hst.
  assert (∀ rel, is_regular_file fs (staging ++ rel) = true →
                 rel ≠ [] ∧ ∃ c, fs !! (staging ++ rel) = Some (File c)) as Hreg.
  { intros rel Hr. apply is_regular_file_lookup in Hr as (c & _ & Hl).
    split; [|by exists c]. intros ->. rewrite app_nil_r in Hl.
    rewrite node_at_lookup, Hl in Hst by done. done. }
  destruct (node_at fs staging) as [[c|]|] eqn:E; [done| |].
  - simpl. eexists. split; [done|]. intros rel.
    rewrite list_elem_of_fmap. split.
    + intros ([rel' n] & -> & Hin). apply list_elem_of_filter in Hin as [Hn Hin].
      apply elem_of_entries_under in Hin as [Hrel Hl]. simpl in *.
      apply is_regular_file_lookup. destruct n; [|done]. eexists. split; [|done]. done.
    + intros Hr. destruct (Hreg rel Hr) as (Hrel & c & Hl).
      exists (rel, File c). split; [done|].
      apply list_elem_of_filter. split; [done|]. by apply elem_of_entries_under.
  - exists []. split; [done|]. intros rel. split; [by intros ?%elem_of_nil|].
    intros Hr. destruct (Hreg rel Hr) as (Hrel & c & Hl).
    rewrite node_at_lookup in E by done.
    by rewrite (well_formed_directory fs staging rel _ Hwf ltac:(done) Hrel Hl) in E.
Qed.

(** The loop over the working tree, for entries that are entries of [fs]. *)
Lemma scan_working_spec fs cd es :
  (∀ e, e ∈ es → fs !! e.1 = Some e.2 ∧ e.1 ≠ []) →
  (∀ e d, e ∈ es → cd = Some d → is_file_node e.2 = true → isIgnored e.1 = false →
          fs_exists fs (staging ++ e.1) = false →
          is_directory fs (d ++ e.1) = false) →
  ∃ m u, scan_working fs cd es = Some (m, u) ∧
    (∀ rel, rel ∈ m ↔ ∃ n, (rel, n) ∈ es ∧ modified_entry fs cd rel n) ∧
    (∀ rel, rel ∈ u ↔ ∃ n, (rel, n) ∈ es ∧ untracked_entry fs cd rel n).
Proof.
  induction es as [|[rel0 n0] es IH]; intros Hes Hok.
  { exists [], []. split; [done|].
    split; intros rel; (split; [by intros ?%elem_of_nil|]);
      intros (n & Hin & _); by apply elem_of_nil in Hin. }
  destruct IH as (m & u & Hscan & Hm & Hu).
  { intros e He. apply Hes. by right. }
  { intros e d He. apply Hok. by right. }
  destruct (Hes (rel0, n0) (list_elem_of_here _ _)) as [Hl0 Hne0]. simpl in Hl0, Hne0.
  specialize (Hok (rel0, n0)). simpl in Hok.
  (* the head entry adds nothing when one of the tests rejects it *)
  assert (∀ (P : path → node → Prop),
            ¬ P rel0 n0 →
            ∀ rel, (∃ n, (rel, n) ∈ es ∧ P rel n) ↔
                   (∃ n, (rel, n) ∈ (rel0, n0) :: es ∧ P rel n)) as Hskip.
  { intros P HP rel. split; intros (n & Hin & Hrest); exists n; (split; [|done]).
    - by right.
    - apply elem_of_cons in Hin as [[= -> ->]|Hin]; done. }
  assert (∀ (P : path → node → Prop),
            P rel0 n0 →
            ∀ rel, (rel = rel0 ∨ ∃ n, (rel, n) ∈ es ∧ P rel n) ↔
                   (∃ n, (rel, n) ∈ (rel0, n0) :: es ∧ P rel n)) as Htake.
  { intros P HP rel. split.
    - intros [->|(n & Hin & Hrest)].
      + exists n0. split; [by left|done].
      + exists n. split; [by right|done].
    - intros (n & Hin & Hrest).
      apply elem_of_cons in Hin as [[= -> ->]|Hin]; [by left|].
      right. by exists n. }
  destruct (isIgnored rel0) eqn:Hign.
  { exists m, u. cbn [scan_working fst snd]. rewrite Hign. cbn [orb].
    split; [done|]. split; intros rel.
    - rewrite Hm. apply Hskip. intros (_ & ? & _). congruence.
    - rewrite Hu. apply Hskip. intros (_ & ? & _). congruence. }
  destruct (is_file_node n0) eqn:Hfile.
  2:{ exists m, u. cbn [scan_working fst snd]. rewrite Hign, Hfile. cbn [orb negb].
    split; [done|]. split; intros rel.
    - rewrite Hm. apply Hskip. intros (? & _). congruence.
    - rewrite Hu. apply Hskip. intros (? & _). congruence. }
  destruct (fs_exists fs (staging ++ rel0)) eqn:Hst.
  { exists m, u. cbn [scan_working fst snd]. rewrite Hign, Hfile, Hst.
    cbn [orb negb]. rewrite !andb_false_r.
    split; [done|]. split; intros rel.
    - rewrite Hm. apply Hskip. intros (_ & _ & _ & ? & _). congruence.
    - rewrite Hu. apply Hskip. intros (_ & _ & _ & ?). congruence. }
  destruct (in_commit fs cd rel0) eqn:Hin0.
  - destruct cd as [d|]; [|done]. simpl in Hin0.
    specialize (Hok d (list_elem_of_here _ _) eq_refl eq_refl eq_refl Hst).
    assert (∃ c0, n0 = File c0) as [c0 ->] by (destruct n0; [by eexists|done]).
    assert (∃ c1, read_file fs (d ++ rel0) = Some c1) as [c1 Hc1].
    { unfold read_file, fs_exists, is_directory in *.
      destruct (node_at fs (d ++ rel0)) as [[c1|]|]; [by exists c1|done|done]. }
    assert (read_file fs rel0 = Some c0) as Hc0.
    { unfold read_file. by rewrite node_at_lookup, Hl0. }
    cbn [scan_working fst snd]. rewrite Hign, Hst. cbn [orb negb in_commit is_file_node].
    rewrite Hin0. cbn [andb].
    rewrite (filesAreSame_regular fs rel0 (d ++ rel0) c0 c1 Hc0 Hc1), Hscan.
    cbn [mbind option_bind fst snd].
    assert (∀ rel, rel ∈ u ↔
              ∃ n, (rel, n) ∈ (rel0, File c0) :: es ∧
                   untracked_entry fs (Some d) rel n) as Hu'.
    { intros rel. rewrite Hu. apply Hskip.
      simpl. intros (_ & _ & ? & _). simpl in *. congruence. }
    case_bool_decide as Hsame.
    + exists m, u. split; [done|]. split; [|done]. intros rel.
      rewrite Hm. apply Hskip.
      intros (_ & _ & _ & _ & Hdiff). destruct (Hdiff d eq_refl). congruence.
    + exists (rel0 :: m), u. split; [done|]. split; [|done]. intros rel.
      rewrite elem_of_cons, Hm. apply Htake.
      repeat split; try done. intros d' [= <-]. congruence.
  - exists m, (rel0 :: u). cbn [scan_working fst snd].
    rewrite Hign, Hfile, Hst, Hin0, Hscan. cbn [orb negb andb mbind option_bind fst snd].
    split; [done|]. split; intros rel.
    + rewrite Hm. apply Hskip. intros (_ & _ & ? & _). congruence.
    + rewrite elem_of_cons, Hu. by apply Htake.
Qed.

End status.

Lemma working_file_walk fs rel :
  working_file fs rel = true ↔
  ∃ n, (rel, n) ∈ walk isIgnored fs ∧ is_file_node n = true ∧ isIgnored rel = false.
Proof.
  unfold working_file. rewrite !andb_true_iff, negb_true_iff, is_regular_file_lookup.
  split.
  - intros [[(c & Hne & Hl) Hign] Hanc]. exists (File c).
    split; [by apply elem_of_walk|done].
  - intros (n & Hin & Hn & Hign). apply elem_of_walk in Hin as (Hne & Hl & Hanc).
    destruct n as [c|]; [|done]. split; [split; [by exists c|done]|done].
Qed.

(** X25.  What [gitStatus] computes.  Provided the comparison of a working
    file with the head snapshot never meets a directory, [gitStatus] changes
    no file
    and returns three lists that share no path: the regular files of the
    staging area; the working files, as [isIgnored] selects them, at whose
    path the head snapshot has an entry, the staging area has none, and
    whose bytes differ from the snapshot's; and the working files at whose
    path neither has an entry.  A working file equal to its snapshot copy
    and not staged is on none of them. *)
Theorem gitStatus_classifies (st : state) :
  let fs := files st in
  let cd := committedData fs in
  well_formed fs →
  is_regular_file fs staging = false →
  (∀ rel d, cd = Some d → working_file fs rel = true →
            fs_exists fs (staging ++ rel) = false →
            is_directory fs (d ++ rel) = false) →
  ∃ s, gitStatus st = Some (s, State fs (console st ++ display_status s)) ∧
    (∀ rel, rel ∈ staged s ↔ is_regular_file fs (staging ++ rel) = true) ∧
    (∀ rel, rel ∈ modified s ↔
       working_file fs rel = true ∧ in_commit fs cd rel = true ∧
       fs_exists fs (staging ++ rel) = false ∧
       ∀ d, cd = Some d → read_file fs rel ≠ read_file fs (d ++ rel)) ∧
    (∀ rel, rel ∈ untracked s ↔
       working_file fs rel = true ∧ in_commit fs cd rel = false ∧
       fs_exists fs (staging ++ rel) = false) ∧
    (∀ rel, ¬ (rel ∈ staged s ∧ rel ∈ modified s) ∧
            ¬ (rel ∈ staged s ∧ rel ∈ untracked s) ∧
            ¬ (rel ∈ modified s ∧ rel ∈ untracked s)) ∧
    (∀ rel d, cd = Some d → working_file fs rel = true →
              fs_exists fs (staging ++ rel) = false →
              read_file fs rel = read_file fs (d ++ rel) →
              (rel ∉ staged s) ∧ (rel ∉ modified s) ∧ (rel ∉ untracked s)).
Proof.
  intros fs cd Hwf Hst Hok.
  destruct (scan_staging_spec fs Hwf Hst) as (sl & Hscan & Hs).
  destruct (scan_working_spec fs cd (walk isIgnored fs)) as (m & u & Hwork & Hm & Hu).
  { intros [rel n] Hin. apply elem_of_walk in Hin as (? & ? & _). done. }
  { intros [rel n] d Hin Hcd Hn Hign. simpl in *. apply Hok; [done|].
    apply working_file_walk. by exists n. }
  assert (∀ rel, rel ∈ m ↔
            working_file fs rel = true ∧ in_commit fs cd rel = true ∧
            fs_exists fs (staging ++ rel) = false ∧
            ∀ d, cd = Some d → read_file fs rel ≠ read_file fs (d ++ rel)) as Hm'.
  { intros rel. rewrite Hm, working_file_walk. unfold modified_entry.
    split.
    - intros (n & Hin & Hn & Hign & Hrest). split; [by exists n|done].
    - intros [(n & Hin & Hn & Hign) Hrest]. by exists n. }
  assert (∀ rel, rel ∈ u ↔
            working_file fs rel = true ∧ in_commit fs cd rel = false ∧
            fs_exists fs (staging ++ rel) = false) as Hu'.
  { intros rel. rewrite Hu, working_file_walk. unfold untracked_entry.
    split.
    - intros (n & Hin & Hn & Hign & Hrest). split; [by exists n|done].
    - intros [(n & Hin & Hn & Hign) Hrest]. by exists n. }
  assert (∀ rel, is_regular_file fs (staging ++ rel) = true →
                 fs_exists fs (staging ++ rel) = true) as Hex.
  { intros rel. unfold is_regular_file, fs_exists.
    by destruct (node_at fs (staging ++ rel)) as [[|]|]. }
  exists (Status sl m u). split; [|split; [done|split; [done|split; [done|split]]]].
  - unfold gitStatus, bind, get_files, try_value, compute_status.
    fold fs. fold cd. rewrite Hscan, Hwork. simpl.
    rewrite for_eachM_print. done.
  - intros rel. simpl. rewrite Hs, Hm', Hu'. repeat split.
    + intros [Hr (_ & _ & Hn & _)]. apply Hex in Hr. congruence.
    + intros [Hr (_ & _ & Hn)]. apply Hex in Hr. congruence.
    + intros [(_ & Hi & _) (_ & Hi' & _)]. congruence.
  - intros rel d Hcd Hw Hns Hsame. simpl. rewrite Hs, Hm', Hu'. repeat split.
    + intros Hr. apply Hex in Hr. congruence.
    + intros (_ & _ & _ & Hdiff). by apply (Hdiff d).
    + intros (_ & Hi & _). rewrite Hcd in Hi. simpl in Hi.
      unfold working_file in Hw. rewrite !andb_true_iff in Hw.
      destruct Hw as [[Hreg _] _]. unfold is_regular_file in Hreg.
      unfold read_file, fs_exists in *.
      destruct (node_at fs rel) as [[c|]|]; try done.
      by destruct (node_at fs (d ++ rel)) as [[c'|]|].
Qed.

Lemma comparable_spec fs :
  comparable fs = true →
  ∀ rel d, committedData fs = Some d → working_file fs rel = true →
           fs_exists fs (staging ++ rel) = false →
           is_directory fs (d ++ rel) = false.
Proof.
  unfold comparable. rewrite forallb_forall. intros Hall rel d Hcd Hw Hst.
  apply working_file_walk in Hw as (n & Hin & Hn & Hign).
  specialize (Hall (rel, n) (proj1 (list_elem_of_In _ _) Hin)).
  cbn [fst snd] in Hall. rewrite Hn, Hign, Hst, Hcd in Hall. simpl in Hall.
  by apply negb_true_iff in Hall.
Qed.

Lemma gitStatus_classifies_witness :
  let st := session_gitignore in
  let fs := files st in
  let cd := committedData fs in
  well_formed fs ∧ is_regular_file fs staging = false ∧
  ∃ s, gitStatus st = Some (s, State fs (console st ++ display_status s)) ∧
    (∀ rel, rel ∈ staged s ↔ is_regular_file fs (staging ++ rel) = true) ∧
    (∀ rel, rel ∈ modified s ↔
       working_file fs rel = true ∧ in_commit fs cd rel = true ∧
       fs_exists fs (staging ++ rel) = false ∧
       ∀ d, cd = Some d → read_file fs rel ≠ read_file fs (d ++ rel)) ∧
    (∀ rel, rel ∈ untracked s ↔
       working_file fs rel = true ∧ in_commit fs cd rel = false ∧
       fs_exists fs (staging ++ rel) = false) ∧
    (∀ rel, ¬ (rel ∈ staged s ∧ rel ∈ modified s) ∧
            ¬ (rel ∈ staged s ∧ rel ∈ untracked s) ∧
            ¬ (rel ∈ modified s ∧ rel ∈ untracked s)) ∧
    (∀ rel d, cd = Some d → working_file fs rel = true →
              fs_exists fs (staging ++ rel) = false →
              read_file fs rel = read_file fs (d ++ rel) →
              (rel ∉ staged s) ∧ (rel ∉ modified s) ∧ (rel ∉ untracked s)).
Proof.
  intros st fs cd.
  assert (well_formed fs) as Hwf by (vm_compute; reflexivity).
  assert (is_regular_file fs staging = false) as Hst by (vm_compute; reflexivity).
  split; [exact Hwf|split; [exact Hst|]].
  apply (gitStatus_classifies st Hwf Hst).
  apply comparable_spec. vm_compute. reflexivity.
Defined.

(** C3: the code at the failing inputs.  A [.gitignore] in the working
    tree, which lies neither in the metadata directory nor in the editor
    directory and is not the executable, with no entry in the staging area
    or the head snapshot, is on none of the lists, because [isIgnored]
    tests whether the path begins with the text [.git]; and where the head
    snapshot has a directory at the path of a working file, [filesAreSame]
    asks for the size of that directory and the command ends in an
    exception, with no lists at all. *)
Lemma gitStatus_not_a_partition_of_the_working_tree :
  (let fs := files session_gitignore in
   is_regular_file fs [".gitignore"] = true ∧
   fs_exists fs (staging ++ [".gitignore"]) = false ∧
   in_commit fs (committedData fs) [".gitignore"] = false ∧
   fst <$> gitStatus session_gitignore =
     Some (Status [] [["a.txt"]] [["new.txt"]])) ∧
  (let fs := files session_dir_conflict in
   is_regular_file fs ["d"] = true ∧
   fs_exists fs (staging ++ ["d"]) = false ∧
   in_commit fs (committedData fs) ["d"] = true ∧
   gitStatus session_dir_conflict = None).
Proof. repeat split; vm_compute; reflexivity. Qed.

(** * Adding *)

Section add.
Implicit Types (fs : filesystem) (p q rel : path) (cd : option path) (st : state).

Lemma reserved_isIgnored rel : reserved rel → isIgnored rel = true.
Proof.
  unfold isIgnored. intros [[rest ->]|[[rest ->]|[Hne Hname]]].
  - case_bool_decide; [done|]. by destruct rest.
  - case_bool_decide; [done|].
    destruct (starts_with ".git" (rel_string (".vscode" :: rest))); [done|].
    by destruct rest.
  - case_bool_decide; [done|].
    destruct (starts_with ".git" (rel_string rel)); [done|].
    destruct (starts_with ".vscode" (rel_string rel)); [done|].
    destruct Hname as [->| ->]; done.
Qed.

Lemma staging_cleanb_spec fs : staging_cleanb fs = true → staging_clean fs.
Proof.
  unfold staging_cleanb. rewrite forallb_forall. intros Hall rel Hres.
  destruct (is_regular_file fs (staging ++ rel)) eqn:Hreg; [|done].
  apply is_regular_file_lookup in Hreg as (c & _ & Hl).
  assert (rel ≠ []) as Hne.
  { destruct Hres as [[? ->]|[[? ->]|[? _]]]; done. }
  assert ((rel, File c) ∈ entries_under fs staging) as Hin
    by by apply elem_of_entries_under.
  specialize (Hall _ (proj1 (list_elem_of_In _ _) Hin)). simpl in Hall.
  by rewrite (reserved_isIgnored rel Hres) in Hall.
Qed.

Lemma stages_nothing_ignored_refl fs : stages_nothing_ignored fs fs.
Proof. by intros rel _ H. Qed.

Lemma stages_nothing_ignored_trans fs1 fs2 fs3 :
  stages_nothing_ignored fs1 fs2 → stages_nothing_ignored fs2 fs3 →
  stages_nothing_ignored fs1 fs3.
Proof. intros H1 H2 rel Hign H. by apply H1, H2. Qed.

Lemma stages_nothing_ignored_clean fs fs' :
  stages_nothing_ignored fs fs' → staging_clean fs → staging_clean fs'.
Proof.
  intros H Hclean rel Hres.
  destruct (is_regular_file fs' (staging ++ rel)) eqn:Hreg; [|done].
  apply H in Hreg; [|by apply reserved_isIgnored].
  by rewrite Hclean in Hreg.
Qed.

Lemma is_regular_file_ext fs fs' q :
  fs' !! q = fs !! q → is_regular_file fs' q = is_regular_file fs q.
Proof. intros H. unfold is_regular_file. destruct q; [done|]. simpl. by rewrite H. Qed.

(** Removing the staged copy of [rel0] adds nothing. *)
Lemma unstage_nothing_ignored rel0 fs fs' :
  (if fs_exists fs (staging ++ rel0) then fs_remove (staging ++ rel0) fs else Some fs)
    = Some fs' →
  stages_nothing_ignored fs fs'.
Proof.
  intros H rel Hign Hreg.
  destruct (fs_exists fs (staging ++ rel0)); [|by simplify_eq].
  apply fs_remove_spec in H as [Hnone Hother]; [|done].
  destruct (decide (staging ++ rel = staging ++ rel0)) as [Heq|Hne].
  - apply is_regular_file_lookup in Hreg as (c & _ & Hl). congruence.
  - by rewrite (is_regular_file_ext fs fs') in Hreg by by apply Hother.
Qed.

(** Copying the working file [rel0], which is not ignored, into the staging
    area adds nothing at an ignored path. *)
Lemma stage_nothing_ignored rel0 fs fs' :
  isIgnored rel0 = false →
  (fs1 ← create_directories (parent_path (staging ++ rel0)) fs;
   copy_file true rel0 (staging ++ rel0) fs1) = Some fs' →
  stages_nothing_ignored fs fs'.
Proof.
  intros Hrel0 H rel Hign Hreg.
  destruct (create_directories (parent_path (staging ++ rel0)) fs) as [fs1|] eqn:E1;
    simpl in H; [|done].
  apply copy_file_spec in H as (c & _ & -> & _).
  apply is_regular_file_lookup in Hreg as (c' & Hne & Hl).
  rewrite lookup_insert_ne in Hl
    by (intros Heq; assert (rel0 = rel) by (apply (app_inv_head staging); exact Heq);
        congruence).
  apply is_regular_file_lookup. exists c'. split; [done|].
  by eapply kept_or_mkdir_file_inv; [by eapply create_directories_kept|].
Qed.

Lemma add_entry_nothing_ignored cd e fs fs' :
  add_entry cd e fs = Some fs' → stages_nothing_ignored fs fs'.
Proof.
  unfold add_entry. intros H.
  destruct (isIgnored e.1) eqn:Hign; [simplify_eq; apply stages_nothing_ignored_refl|].
  destruct (negb (is_file_node e.2)); [simplify_eq; apply stages_nothing_ignored_refl|].
  destruct (same_as_committed fs cd e.1) as [[|]|]; simpl in H; [| |done].
  - exact (unstage_nothing_ignored e.1 fs fs' H).
  - exact (stage_nothing_ignored e.1 fs fs' Hign H).
Qed.

Lemma for_each_nothing_ignored {A} (body : A → filesystem → option filesystem)
    (l : list A) fs fs' :
  (∀ x fs fs', body x fs = Some fs' → stages_nothing_ignored fs fs') →
  for_each body l fs = Some fs' → stages_nothing_ignored fs fs'.
Proof.
  intros Hbody. revert fs. induction l as [|x l IH]; intros fs H; simpl in H.
  - simplify_eq. apply stages_nothing_ignored_refl.
  - destruct (body x fs) as [fs1|] eqn:E; simpl in H; [|done].
    eapply stages_nothing_ignored_trans; [by eapply Hbody|by apply IH].
Qed.

Lemma gitAdd_nothing_ignored fs fs' :
  gitAdd fs = Some fs' → stages_nothing_ignored fs fs'.
Proof.
  unfold gitAdd. apply for_each_nothing_ignored.
  intros e fs1 fs2. apply add_entry_nothing_ignored.
Qed.

Lemma add_named_ignored cd rel st :
  isIgnored rel = true → add_named cd rel st = Some (tt, st).
Proof. intros H. unfold add_named, bind, get_files. by rewrite H. Qed.

Lemma add_named_nothing_ignored cd rel0 st st' :
  add_named cd rel0 st = Some (tt, st') →
  stages_nothing_ignored (files st) (files st').
Proof.
  unfold add_named, bind, get_files, try_value, fs_try, print, ret. intros H.
  destruct (isIgnored rel0) eqn:Hign; [simplify_eq; apply stages_nothing_ignored_refl|].
  destruct (negb (fs_exists (files st) rel0) || negb (is_regular_file (files st) rel0));
    [simplify_eq; apply stages_nothing_ignored_refl|].
  destruct (same_as_committed (files st) cd rel0) as [[|]|]; simpl in H; [| |done].
  - simplify_eq. apply stages_nothing_ignored_refl.
  - match type of H with
    | match ?o with _ => _ end = _ => destruct o as [fs'|] eqn:E
    end; [|done].
    simplify_eq. exact (stage_nothing_ignored rel0 (files st) fs' Hign E).
Qed.

Lemma gitAdd_files_nothing_ignored names st st' :
  gitAdd_files names st = Some (tt, st') →
  stages_nothing_ignored (files st) (files st').
Proof.
  unfold gitAdd_files, bind, get_files.
  generalize (committedData (files st)). intros cd. revert st.
  induction names as [|rel names IH]; intros st H; simpl in H.
  - unfold ret in H. simplify_eq. apply stages_nothing_ignored_refl.
  - unfold bind in H.
    destruct (add_named cd rel st) as [[[] st1]|] eqn:E; [|done].
    eapply stages_nothing_ignored_trans;
      [by eapply add_named_nothing_ignored|by apply IH].
Qed.

(** X26.  [gitAdd()], and [gitAdd(files, n)] on names that are normalised
    relative paths of the working directory, put no file at a reserved
    path into the staging area, so a staging area free of such files stays
    free of them; and [gitAdd(files, n)] passes over such a name that is
    reserved without a copy and without a warning. *)
Theorem add_keeps_reserved_paths_out (fs : filesystem) :
  staging_clean fs →
  (∀ fs', gitAdd fs = Some fs' → staging_clean fs') ∧
  (∀ names out st',
     forallb plain_name names = true →
     gitAdd_files names (State fs out) = Some (tt, st') → staging_clean (files st')) ∧
  (∀ cd rel out,
     plain_name rel = true →
     reserved rel → add_named cd rel (State fs out) = Some (tt, State fs out)).
Proof.
  intros Hclean. split; [|split].
  - intros fs' H. eapply stages_nothing_ignored_clean; [|done].
    by apply gitAdd_nothing_ignored.
  - intros names out st' _ H. eapply stages_nothing_ignored_clean; [|done].
    by apply (gitAdd_files_nothing_ignored names (State fs out)).
  - intros cd rel out _ Hres. apply add_named_ignored. by apply reserved_isIgnored.
Qed.

End add.

Lemma add_keeps_reserved_paths_out_witness :
  let fs := files session_saved2 in
  staging_clean fs ∧
  completes (gitAdd fs) = true ∧
  completes (gitAdd_files [[".git"; "HEAD"]; ["a.txt"]] (State fs [])) = true ∧
  (∀ fs', gitAdd fs = Some fs' → staging_clean fs') ∧
  (∀ names out st',
     forallb plain_name names = true →
     gitAdd_files names (State fs out) = Some (tt, st') → staging_clean (files st')) ∧
  (∀ cd rel out,
     plain_name rel = true →
     reserved rel → add_named cd rel (State fs out) = Some (tt, State fs out)).
Proof.
  intros fs.
  assert (staging_clean fs) as Hclean
    by (apply staging_cleanb_spec; vm_compute; reflexivity).
  split; [exact Hclean|].
  split; [vm_compute; reflexivity|].
  split; [vm_compute; reflexivity|].
  exact (add_keeps_reserved_paths_out fs Hclean).
Defined.




(** C10: the code at the failing input.  For [../staging_area/.git/x], a
    file beside the working directory, [fs::relative] returns the name as
    it is.  [isIgnored] tests how that text begins and what its last
    component is, so the name passes, and the copy goes to
    [.git/staging_area/../staging_area/.git/x]: the path [.git/x] of the
    staging area, which is a reserved one. *)
Theorem isIgnored_passes_a_name_through_the_parent :
  let rel := [".."; "staging_area"; ".git"; "x"] in
  rel_string rel = "../staging_area/.git/x" ∧
  isIgnored rel = false ∧
  resolve_dots [] (staging ++ rel) = staging ++ [".git"; "x"] ∧
  reserved [".git"; "x"] ∧
  isIgnored [".git"; "x"] = true.
Proof.
  split; [reflexivity|]. split; [reflexivity|]. split; [reflexivity|].
  split; [|reflexivity]. left. by exists ["x"].
Qed.

(** What [gitAdd_files] does with a name whose file equals its committed
    copy: nothing at all, whatever the staging area holds. *)
Lemma add_named_same_is_noop (cd : option path) (rel : path) (st : state) :
  same_as_committed (files st) cd rel = Some true →
  add_named cd rel st = Some (tt, st).
Proof.
  intros Hsame. unfold add_named, bind, get_files, try_value, ret.
  destruct (isIgnored rel); [done|].
  unfold same_as_committed in Hsame. destruct cd as [d|]; [|done].
  destruct (fs_exists (files st) (d ++ rel)) eqn:Hex; [|done].
  assert (∃ c, read_file (files st) rel = Some c) as [c Hc].
  { apply filesAreSame_true in Hsame as (c & Hc & _). by exists c. }
  unfold read_file in Hc. unfold fs_exists, is_regular_file.
  destruct (node_at (files st) rel) as [[c'|]|]; try done. simpl.
  unfold same_as_committed. by rewrite Hex, Hsame.
Qed.

(** C6: the code at the failing input.  a.txt in the working tree equals the
    copy in the head snapshot while an older version is still staged;
    [gitAdd_files] on a.txt leaves the staged copy where it is, whereas
    [gitAdd] removes it. *)
Theorem gitAdd_files_leaves_stale_copy :
  let fs := files session_restored in
  read_file fs ["a.txt"] = Some "v2" ∧
  committedData fs = Some (dataPath id2) ∧
  read_file fs (dataPath id2 ++ ["a.txt"]) = Some "v2" ∧
  read_file fs (staging ++ ["a.txt"]) = Some "v3" ∧
  gitAdd_files [["a.txt"]] session_restored = Some (tt, session_restored) ∧
  (λ fs', fs_exists fs' (staging ++ ["a.txt"])) <$> gitAdd fs = Some false.
Proof.
  intros fs. split; [vm_compute; reflexivity|].
  split; [vm_compute; reflexivity|].
  split; [vm_compute; reflexivity|].
  split; [vm_compute; reflexivity|].
  split; [|vm_compute; reflexivity].
  unfold gitAdd_files, bind, get_files. cbn [for_eachM]. unfold bind.
  rewrite add_named_same_is_noop by (vm_compute; reflexivity). reflexivity.
Qed.

(** C1: the code at the failing input.  With the second commit at the head,
    reverting to the first one succeeds and creates a commit whose a.txt is
    the head's, not the first commit's; with a newer a.txt staged, the
    new commit holds the staged bytes. *)
Theorem revertCommit_snapshots_head_and_staging :
  let new_commit (r : bool * state) :=
    (r.1, getHEAD (files r.2), read_file (files r.2) (dataPath id3 ++ ["a.txt"])) in
  read_file (files session_commit2) (dataPath id1 ++ ["a.txt"]) = Some "v1" ∧
  read_file (files session_commit2) (dataPath id2 ++ ["a.txt"]) = Some "v2" ∧
  getHEAD (files session_commit2) = id2 ∧
  new_commit <$> gitRevert rnd3 time3 id1 session_commit2 =
    Some (true, id3, Some "v2") ∧
  read_file (files session_added3) (staging ++ ["a.txt"]) = Some "v3" ∧
  new_commit <$> gitRevert rnd3 time3 id1 session_added3 =
    Some (true, id3, Some "v3").
Proof. repeat split; vm_compute; reflexivity. Qed.

(** A revert that succeeds is [addOnTail] with a message made from the
    target's: the snapshot of the target is not read. *)
Lemma revertCommit_is_addOnTail
    (rnd : nat → nat) (now R : string) (st st' : state) :
  revertCommit rnd now R st = Some (true, st') →
  ∃ msg fs', addOnTail rnd now msg (files st) = Some fs' ∧
             st' = State fs' (console st).
Proof.
  unfold revertCommit, bind, get_files, try_value, fs_try, ret. intros H.
  destruct (resolve_target R (files st)) as [out|target].
  - rewrite for_eachM_print in H. done.
  - destruct (negb (fs_exists (files st) (commitInfoPath target))); [done|].
    destruct (revert_message _ "") as [msg|]; [|done].
    destruct (addOnTail rnd now _ (files st)) as [fs'|] eqn:E; [|done].
    simplify_eq. by eexists _, _.
Qed.

(** * The theorems at the sample session *)

Lemma completes_Some {A} (o : option A) (d : A) :
  completes o = true → o = Some (default d o).
Proof. by destruct o. Qed.

Lemma createCommit_inherits_and_overlays_witness :
  let fs := files session_added2 in
  let fs' := default ∅ (createCommit id2 id1 "second" time2 fs) in
  well_formed fs ∧
  createCommit id2 id1 "second" time2 fs = Some fs' ∧
  fs' !! (dataPath id2 ++ ["a.txt"]) = Some (File "v2") ∧
  fs' !! (dataPath id2 ++ ["b.txt"]) = Some (File "b").
Proof.
  intros fs fs'.
  assert (well_formed fs) as Hwf by (vm_compute; reflexivity).
  assert (createCommit id2 id1 "second" time2 fs = Some fs') as Hc
    by (apply completes_Some; vm_compute; reflexivity).
  destruct (createCommit_inherits_and_overlays id2 id1 "second" time2 fs fs' Hwf Hc)
    as [Hstaged Hparent].
  split; [exact Hwf|split; [exact Hc|split]].
  - apply Hstaged. vm_compute. reflexivity.
  - apply Hparent; [done|vm_compute; reflexivity..].
Defined.

Lemma no_staged_file_check (fs : filesystem) :
  well_formed fs → staging_empty fs = Some true →
  ∀ rel, is_regular_file fs (staging ++ rel) = false.
Proof.
  intros Hwf Hempty rel.
  destruct (is_regular_file fs (staging ++ rel)) eqn:Hreg; [|done].
  apply is_regular_file_lookup in Hreg as (c & _ & Hl).
  unfold staging_empty, fs_exists, recursive_directory_iterator in Hempty.
  destruct (decide (rel = [])) as [->|Hrel].
  - rewrite app_nil_r in Hl. by rewrite node_at_lookup, Hl in Hempty.
  - rewrite node_at_lookup in Hempty by done.
    rewrite (well_formed_directory fs staging rel _ Hwf ltac:(done) Hrel Hl) in Hempty.
    simpl in Hempty. injection Hempty as Hall. rewrite forallb_forall in Hall.
    assert ((rel, File c) ∈ entries_under fs staging) as Hin
      by by apply elem_of_entries_under.
    by specialize (Hall _ (proj1 (list_elem_of_In _ _) Hin)).
Qed.

Lemma gitCommit_nothing_staged_witness :
  (∀ rel, is_regular_file (files session_commit1) (staging ++ rel) = false) ∧
  gitCommit rnd2 time2 "again" session_commit1 =
    Some (false, State (files session_commit1)
                       (console session_commit1
                        ++ ["Nothing to commit, staging area is empty."])).
Proof.
  assert (∀ rel, is_regular_file (files session_commit1) (staging ++ rel) = false)
    as Hno by (apply no_staged_file_check; vm_compute; reflexivity).
  split; [exact Hno|].
  apply (gitCommit_nothing_staged rnd2 time2 "again" session_commit1 Hno).
Defined.

Lemma gitCommit_clears_staging_and_moves_head_witness :
  is_directory (files session_added2) HEAD = false ∧
  gitCommit rnd2 time2 "second" session_added2 = Some (true, session_commit2) ∧
  (∀ rel, is_regular_file (files session_commit2) (staging ++ rel) = false) ∧
  getHEAD (files session_commit2) = gen_random rnd2 8 ∧
  read_file (files session_commit2) (commitInfoPath (gen_random rnd2 8)) =
    Some (commitInfo_text (gen_random rnd2 8) (head_parent (files session_added2))
                          "second" time2).
Proof.
  assert (is_directory (files session_added2) HEAD = false) as Hh
    by (vm_compute; reflexivity).
  assert (gitCommit rnd2 time2 "second" session_added2 = Some (true, session_commit2))
    as Hc.
  { assert (fst <$> gitCommit rnd2 time2 "second" session_added2 = Some true) as Hb
      by (vm_compute; reflexivity).
    unfold session_commit2, after.
    destruct (gitCommit rnd2 time2 "second" session_added2) as [[b st']|];
      [|done].
    simpl in Hb. by injection Hb as ->. }
  split; [exact Hh|split; [exact Hc|]].
  apply (gitCommit_clears_staging_and_moves_head rnd2 time2 "second"
           session_added2 session_commit2 Hh Hc).
Defined.


(** * Further properties of core.cpp *)

Section more_strings.
Implicit Types (s t : string) (c : ascii).

Lemma gen_random_from_length rnd i n : String.length (gen_random_from rnd i n) = n.
Proof. revert i. induction n as [|n IH]; intros i; [done|]. cbn. by rewrite IH. Qed.

Lemma alphanum_char_at k : k < 62 → string_mem (char_at alphanum k) alphanum = true.
Proof.
  intros Hk.
  assert (forallb (λ k, string_mem (char_at alphanum k) alphanum) (seq 0 62) = true)
    as Hall by reflexivity.
  rewrite forallb_forall in Hall. apply Hall, in_seq. lia.
Qed.

Lemma gen_random_from_alphanum rnd i n :
  string_forallb (λ c, string_mem c alphanum) (gen_random_from rnd i n) = true.
Proof.
  revert i. induction n as [|n IH]; intros i; [done|].
  cbn [gen_random_from string_forallb].
  rewrite alphanum_char_at by (apply Nat.mod_upper_bound; lia). apply IH.
Qed.

(** X1.  [gen_random(len)] returns exactly [len] characters, each one of
    the 62 letters and digits of its table, whatever [rand()] returns. *)
Theorem gen_random_length_and_alphabet (rnd : nat → nat) (len : nat) :
  String.length (gen_random rnd len) = len ∧
  string_forallb (λ c, string_mem c alphanum) (gen_random rnd len) = true.
Proof. split; [apply gen_random_from_length|apply gen_random_from_alphanum]. Qed.

Lemma drop_trim_chars_head s c t :
  drop_trim_chars s = String c t → is_trim_char c = false.
Proof.
  induction s as [|c' s IH]; simpl; [done|].
  destruct (is_trim_char c') eqn:E; [done|]. by intros [= <- <-].
Qed.

Lemma drop_trim_chars_fixed c t :
  is_trim_char c = false → drop_trim_chars (String c t) = String c t.
Proof. intros H. simpl. by rewrite H. Qed.

Lemma drop_trailing_head c t :
  is_trim_char c = false →
  ∃ t', drop_trailing_trim_chars (String c t) = String c t'.
Proof.
  intros H. simpl. destruct (drop_trailing_trim_chars t); [|by eexists].
  rewrite H. by eexists.
Qed.

Lemma drop_trailing_idempotent s :
  drop_trailing_trim_chars (drop_trailing_trim_chars s) = drop_trailing_trim_chars s.
Proof.
  induction s as [|c s IH]; [done|]. simpl.
  destruct (drop_trailing_trim_chars s) as [|c' s'] eqn:E.
  - destruct (is_trim_char c) eqn:Hc; [done|]. simpl. by rewrite Hc.
  - simpl. simpl in IH. by rewrite IH.
Qed.

Lemma drop_trailing_last s t c :
  drop_trailing_trim_chars s = t +:+ String c "" → is_trim_char c = false.
Proof.
  revert t. induction s as [|c' s IH]; intros t; simpl.
  - by destruct t.
  - destruct (drop_trailing_trim_chars s) as [|c'' s'] eqn:E.
    + destruct (is_trim_char c') eqn:Hc; [by destruct t|].
      destruct t as [|a t]; [by intros [= <-]|]. intros [= _ H]. by destruct t.
    + destruct t as [|a t]; [done|]. intros [= _ H]. by apply (IH t).
Qed.

(** The three shapes of [trim]'s result. *)
Lemma trim_cases s :
  trim s = "" ∨
  ∃ c t, is_trim_char c = false ∧ drop_trim_chars s = String c t ∧
         trim s = drop_trailing_trim_chars (String c t).
Proof.
  destruct s as [|c0 s0]; [by left|].
  unfold trim. destruct (drop_trim_chars (String c0 s0)) as [|c t] eqn:E.
  - by left.
  - right. exists c, t. pose proof (drop_trim_chars_head _ _ _ E) as Hc.
    split; [done|split; [done|]].
    unfold all_trim_chars. by rewrite drop_trim_chars_fixed.
Qed.

(** X2.  [trim] is idempotent, and what it returns neither begins nor ends
    with one of the characters it strips. *)
Theorem trim_idempotent_and_tight (s : string) :
  trim (trim s) = trim s ∧
  (∀ c t, trim s = String c t → is_trim_char c = false) ∧
  (∀ t c, trim s = t +:+ String c "" → is_trim_char c = false).
Proof.
  destruct (trim_cases s) as [H|(c & t & Hc & Hd & H)].
  - rewrite H. split; [done|split]; intros ? ?; [done|]. by destruct t.
  - destruct (drop_trailing_head c t Hc) as [t' Ht']. split; [|split].
    + rewrite H, Ht'. unfold trim.
      rewrite drop_trim_chars_fixed by done. unfold all_trim_chars.
      rewrite drop_trim_chars_fixed by done.
      rewrite <- Ht'. apply drop_trailing_idempotent.
    + intros c' t'' Heq. rewrite H, Ht' in Heq. by injection Heq as <- _.
    + intros t'' c' Heq. rewrite H in Heq. by eapply drop_trailing_last.
Qed.

End more_strings.

Section record_round_trip.

Lemma revert_message_commitInfo id parent msg now :
  revert_message ["1." +:+ id; "2." +:+ parent; "3." +:+ msg; "4." +:+ now] "" =
    Some msg.
Proof. reflexivity. Qed.

Lemma commitInfo_round_trip_parts (id parent msg now : string) :
  no_newline id = true → no_newline parent = true →
  no_newline msg = true → no_newline now = true →
  print_record (read_lines (commitInfo_text id parent msg now)) "" =
    Some (["Commit ID:    " +:+ id; "Commit Msg:   " +:+ msg;
           "Date & Time:  " +:+ now], parent_field parent) ∧
  revert_message (read_lines (commitInfo_text id parent msg now)) "" = Some msg.
Proof.
  intros Hid Hp Hmsg Hnow.
  assert (no_newline (parent_field parent) = true) as Hpf
    by (unfold parent_field; by case_bool_decide).
  rewrite read_lines_commitInfo by done.
  split; [apply print_record_commitInfo|apply revert_message_commitInfo].
Qed.

(** X3.  A record written by [createCommit] is read back by both readers:
    [printCommitList] prints its identifier, message and time and follows
    its parent field, and [revertCommit] finds its message -- as long as no
    field contains a line break. *)
Theorem commitInfo_round_trip (id parent msg now : string) :
  no_newline id = true → no_newline parent = true →
  no_newline msg = true → no_newline now = true →
  print_record (read_lines (commitInfo_text id parent msg now)) "" =
    Some (["Commit ID:    " +:+ id; "Commit Msg:   " +:+ msg;
           "Date & Time:  " +:+ now], parent_field parent) ∧
  revert_message (read_lines (commitInfo_text id parent msg now)) "" = Some msg.
Proof. apply commitInfo_round_trip_parts. Qed.

Lemma commitInfo_round_trip_witness :
  print_record (read_lines (commitInfo_text id2 id1 "second" time2)) "" =
    Some (["Commit ID:    " +:+ id2; "Commit Msg:   " +:+ "second";
           "Date & Time:  " +:+ time2], parent_field id1) ∧
  revert_message (read_lines (commitInfo_text id2 id1 "second" time2)) "" =
    Some "second".
Proof. apply commitInfo_round_trip; reflexivity. Defined.

End record_round_trip.

(** * Further properties of manager.cpp *)

Section more_comparator.
Implicit Types (fs : filesystem) (a b : path).

Lemma equal_sym (xs ys : string) :
  String.length xs = String.length ys → equal xs ys = equal ys xs.
Proof.
  revert ys. induction xs as [|x xs IH]; intros [|y ys] Hlen; simpl in *; try done.
  rewrite IH by lia. f_equal.
  destruct (Ascii.eqb x y) eqn:E.
  - apply Ascii.eqb_eq in E as ->. by rewrite Ascii.eqb_refl.
  - symmetry. apply Ascii.eqb_neq. apply Ascii.eqb_neq in E. congruence.
Qed.

(** X4.  [filesAreSame] does not depend on the order of its arguments, in
    its answer and in whether it throws; and a regular file is the same as
    itself. *)
Theorem filesAreSame_symmetric_reflexive (fs : filesystem) (a b : path) :
  filesAreSame fs a b = filesAreSame fs b a ∧
  (is_regular_file fs a = true → filesAreSame fs a a = Some true).
Proof.
  split.
  - unfold filesAreSame, filesAreSame_counting, fs_exists, file_size, read_file.
    destruct (node_at fs a) as [[ca|]|], (node_at fs b) as [[cb|]|]; simpl; try done.
    rewrite (Nat.eqb_sym (String.length cb)).
    destruct (String.length ca =? String.length cb) eqn:E; simpl; [|done].
    apply Nat.eqb_eq in E. by rewrite equal_sym.
  - intros Hreg. unfold is_regular_file in Hreg.
    destruct (node_at fs a) as [[c|]|] eqn:E; try done.
    rewrite (filesAreSame_regular fs a a c c) by (unfold read_file; by rewrite E).
    by rewrite bool_decide_eq_true_2.
Qed.

End more_comparator.

Section more_isIgnored.
Implicit Types (s t x y : string) (rel rest : path).

Lemma prefix_component t x y :
  string_forallb (λ c, negb (Ascii.eqb c "/")) t = true →
  String.prefix t (x +:+ "/" +:+ y) = String.prefix t x.
Proof.
  revert x. induction t as [|a t IH]; intros x Ht; [by destruct x|].
  cbn [string_forallb] in Ht. apply andb_true_iff in Ht as [Ha Ht].
  destruct x as [|b x].
  - change ("" +:+ "/" +:+ y) with (String "/" y). simpl.
    destruct (ascii_dec a "/") as [->|_]; [done|done].
  - change (String b x +:+ "/" +:+ y) with (String b (x +:+ "/" +:+ y)). simpl.
    destruct (ascii_dec a b); [by apply IH|done].
Qed.

Lemma rel_string_cons x rest :
  rest ≠ [] → rel_string (x :: rest) = x +:+ "/" +:+ rel_string rest.
Proof. intros H. destruct rest as [|y rest]; [done|]. reflexivity. Qed.

Lemma starts_with_rel_string t x rest :
  string_forallb (λ c, negb (Ascii.eqb c "/")) t = true →
  starts_with t (rel_string (x :: rest)) = starts_with t x.
Proof.
  intros Ht. unfold starts_with. destruct rest as [|y rest]; [done|].
  rewrite rel_string_cons by done. by apply prefix_component.
Qed.

Lemma rel_string_empty rel : rel_string rel = "" ↔ rel = [""].
Proof.
  split; [|by intros ->].
  destruct rel as [|x [|y rest]]; [done| |].
  - simpl. by intros ->.
  - rewrite rel_string_cons by done. by destruct x.
Qed.

(** X5.  What [isIgnored] rejects: a path whose first component begins with
    [.git] or [.vscode] -- also [.gitignore] or [.github] --, a path whose
    last component is [mygit] or [mygit.exe] in whatever directory, and the
    path of one empty component; nothing else. *)
Theorem isIgnored_iff (rel : path) :
  isIgnored rel = true ↔
    rel = [""] ∨
    (∃ x rest, rel = x :: rest ∧
               (starts_with ".git" x = true ∨ starts_with ".vscode" x = true)) ∨
    filename rel = "mygit.exe" ∨ filename rel = "mygit".
Proof.
  unfold isIgnored. case_bool_decide as Hempty.
  { split; [|done]. intros _. left. by apply rel_string_empty. }
  assert (rel ≠ [""]) as Hne by (intros ->; by apply Hempty).
  destruct rel as [|x rest].
  { simpl. split; [done|]. intros [?|[(x & rest & ? & _)|[?|?]]]; done. }
  rewrite !starts_with_rel_string by done.
  destruct (starts_with ".git" x) eqn:Hgit.
  { split; [|done]. intros _. right. left. by exists x, rest; split; [|left]. }
  destruct (starts_with ".vscode" x) eqn:Hvs.
  { split; [|done]. intros _. right. left. by exists x, rest; split; [|right]. }
  split.
  - destruct (bool_decide (filename (x :: rest) = "mygit.exe")) eqn:E1.
    + apply bool_decide_eq_true in E1. intros _. right. right. by left.
    + destruct (bool_decide (filename (x :: rest) = "mygit")) eqn:E2; [|done].
      apply bool_decide_eq_true in E2. intros _. right. right. by right.
  - intros [?|[(x' & rest' & [= <- <-] & [H|H])|[H|H]]]; try congruence.
    + by rewrite H, bool_decide_eq_true_2.
    + rewrite H. rewrite (bool_decide_eq_true_2 ("mygit" = "mygit")) by done.
      by rewrite orb_true_r.
Qed.

End more_isIgnored.

Section more_createCommit.
Implicit Types (fs : filesystem) (q rel : path) (id parent msg now : string).

Lemma createCommit_record id parent msg now fs fs' :
  createCommit id parent msg now fs = Some fs' →
  fs' !! commitInfoPath id = Some (File (commitInfo_text id parent msg now)).
Proof.
  unfold createCommit. intros H.
  destruct (create_directories (dataPath id) fs) as [fsA|]; simpl in H; [|done].
  match type of H with (?inh ≫= _) = _ => destruct inh as [fsB|] end;
    simpl in H; [|done].
  match type of H with (?ovl ≫= _) = _ => destruct ovl as [fsC|] end;
    simpl in H; [|done].
  destruct (ofstream_opens fsC (commitInfoPath id)); [|done].
  injection H as <-. apply lookup_insert_eq.
Qed.

Lemma outside_commit_other id id' rel : id' ≠ id → outside_commit id (commitPath id' ++ rel).
Proof. intros Hne r r' H. injection H as H. congruence. Qed.

Lemma outside_commit_working id x rel : x ≠ ".git" → outside_commit id (x :: rel).
Proof. intros Hne r r' H. injection H as H. congruence. Qed.

(** X6.  A commit that [createCommit] completes has its four-line record,
    and nothing outside the directory of that commit has changed: not the
    directories of the other commits, not the staging area, not the head
    file, not the working tree. *)
Theorem createCommit_changes_only_its_commit
    (id parent msg now : string) (fs fs' : filesystem) :
  createCommit id parent msg now fs = Some fs' →
  read_file fs' (commitInfoPath id) = Some (commitInfo_text id parent msg now) ∧
  (∀ id' rel, id' ≠ id →
     fs' !! (commitPath id' ++ rel) = fs !! (commitPath id' ++ rel)) ∧
  (∀ rel, fs' !! (staging ++ rel) = fs !! (staging ++ rel)) ∧
  fs' !! HEAD = fs !! HEAD ∧
  (∀ x rel, x ≠ ".git" → fs' !! (x :: rel) = fs !! (x :: rel)).
Proof.
  intros H. split; [|split; [|split; [|split]]].
  - unfold read_file. rewrite node_at_lookup by done.
    by rewrite (createCommit_record _ _ _ _ _ _ H).
  - intros id' rel Hne. eapply createCommit_untouched; [done|].
    by apply outside_commit_other.
  - intros rel. eapply createCommit_untouched; [done|].
    apply outside_commit_staging.
  - eapply createCommit_untouched; [done|]. apply outside_commit_HEAD.
  - intros x rel Hne. eapply createCommit_untouched; [done|].
    by apply outside_commit_working.
Qed.

Lemma createCommit_changes_only_its_commit_witness :
  let fs := files session_added2 in
  let fs' := default ∅ (createCommit id2 id1 "second" time2 fs) in
  createCommit id2 id1 "second" time2 fs = Some fs' ∧
  read_file fs' (commitInfoPath id2) = Some (commitInfo_text id2 id1 "second" time2) ∧
  (∀ id' rel, id' ≠ id2 →
     fs' !! (commitPath id' ++ rel) = fs !! (commitPath id' ++ rel)) ∧
  (∀ rel, fs' !! (staging ++ rel) = fs !! (staging ++ rel)) ∧
  fs' !! HEAD = fs !! HEAD ∧
  (∀ x rel, x ≠ ".git" → fs' !! (x :: rel) = fs !! (x :: rel)).
Proof.
  intros fs fs'.
  assert (createCommit id2 id1 "second" time2 fs = Some fs') as Hc
    by (apply completes_Some; vm_compute; reflexivity).
  split; [exact Hc|].
  exact (createCommit_changes_only_its_commit id2 id1 "second" time2 fs fs' Hc).
Defined.

End more_createCommit.

Section more_clear.
Implicit Types (fs : filesystem) (q rel : path).

(** X7.  On a well-formed file system [clearStagingArea] never throws; it
    leaves nothing below the staging directory, leaves that directory in
    place if it existed, and changes nothing else. *)
Theorem clearStagingArea_empties_staging (fs : filesystem) :
  well_formed fs →
  ∃ fs', clearStagingArea fs = Some fs' ∧
    (∀ rel, rel ≠ [] → fs' !! (staging ++ rel) = None) ∧
    (fs_exists fs staging = true → fs' !! staging = Some Dir) ∧
    (∀ q, (∀ r, q ≠ staging ++ r) → fs' !! q = fs !! q).
Proof.
  intros Hwf. unfold clearStagingArea, fs_exists.
  rewrite node_at_lookup by done.
  destruct (fs !! staging) as [n|] eqn:E.
  - assert (is_directory (remove_all staging fs) (parent_path staging) = true) as Hp.
    { unfold is_directory. change (parent_path staging) with gitDir.
      rewrite node_at_lookup by done.
      rewrite remove_all_lookup_other by (intros r Hr; discriminate Hr).
      rewrite (well_formed_ancestor fs staging n gitDir Hwf E); [done|].
      unfold ancestors. simpl. by left. }
    assert (create_directory staging (remove_all staging fs)
            = Some (<[staging := Dir]> (remove_all staging fs))) as Hc.
    { unfold create_directory. rewrite node_at_lookup by done.
      rewrite <- (app_nil_r staging) at 1. rewrite remove_all_lookup_below.
      by rewrite Hp. }
    eexists. split; [exact Hc|]. split; [|split].
    + intros rel Hrel. rewrite lookup_insert_ne.
      * apply remove_all_lookup_below.
      * intros Heq. apply Hrel. apply (app_inv_head staging). by rewrite app_nil_r.
    + intros _. apply lookup_insert_eq.
    + intros q Hq. rewrite lookup_insert_ne.
      * by apply remove_all_lookup_other.
      * intros <-. apply (Hq []). by rewrite app_nil_r.
  - exists fs. split; [done|]. split; [|split; [done|done]].
    intros rel Hrel. destruct (fs !! (staging ++ rel)) as [n|] eqn:El; [|done].
    by rewrite (well_formed_directory fs staging rel n Hwf) in E.
Qed.

Lemma clearStagingArea_empties_staging_witness :
  well_formed (files session_added2) ∧
  ∃ fs', clearStagingArea (files session_added2) = Some fs' ∧
    (∀ rel, rel ≠ [] → fs' !! (staging ++ rel) = None) ∧
    (fs_exists (files session_added2) staging = true → fs' !! staging = Some Dir) ∧
    (∀ q, (∀ r, q ≠ staging ++ r) → fs' !! q = files session_added2 !! q).
Proof.
  assert (well_formed (files session_added2)) as Hwf by (vm_compute; reflexivity).
  split; [exact Hwf|].
  exact (clearStagingArea_empties_staging (files session_added2) Hwf).
Defined.

End more_clear.

Section more_gitInit.
Implicit Types (fs : filesystem) (st : state).

(** X8.  [gitInit] in a directory with no [.git] creates the staging
    directory, the commits directory and a head file holding [NULL], and
    touches nothing else. *)
Theorem gitInit_fresh (st : state) :
  (∀ q, files st !! (".git" :: q) = None) →
  gitInit st =
    Some (tt, State (<[HEAD := File "NULL"]>
                       (<[commitsRoot := Dir]>
                          (<[staging := Dir]> (<[gitDir := Dir]> (files st)))))
                    (console st ++ ["Initialized empty Git repository."])).
Proof.
  intros Hno. unfold gitInit, create_directories, staging, commitsRoot, HEAD, gitDir.
  simpl. rewrite !Hno. rewrite lookup_insert_ne by done. rewrite Hno.
  simpl. rewrite lookup_insert_ne by done. rewrite lookup_insert_eq.
  rewrite !lookup_insert_ne by done. rewrite Hno.
  unfold print, write_file, ofstream_opens, is_directory. simpl.
  rewrite !lookup_insert_ne by done. rewrite Hno.
  rewrite lookup_insert_eq. reflexivity.
Qed.

Lemma gitInit_fresh_witness :
  (∀ q, files (State ∅ []) !! (".git" :: q) = None) ∧
  gitInit (State ∅ []) =
    Some (tt, State (<[HEAD := File "NULL"]>
                       (<[commitsRoot := Dir]>
                          (<[staging := Dir]> (<[gitDir := Dir]> ∅))))
                    ["Initialized empty Git repository."]).
Proof.
  assert (∀ q, files (State ∅ []) !! (".git" :: q) = None) as Hno
    by (intros q; apply lookup_empty).
  split; [exact Hno|]. exact (gitInit_fresh (State ∅ []) Hno).
Defined.

(** X9.  [gitInit] in a repository that is already initialised deletes
    nothing but overwrites the head file with [NULL]: the commits stay in
    the store, and the log, which starts at the head, is empty. *)
Theorem gitInit_again_resets_head (st : state) :
  files st !! gitDir = Some Dir →
  files st !! staging = Some Dir →
  files st !! commitsRoot = Some Dir →
  is_directory (files st) HEAD = false →
  gitInit st =
    Some (tt, State (<[HEAD := File "NULL"]> (files st))
                    (console st ++ ["Initialized empty Git repository."])) ∧
  getHEAD (<[HEAD := File "NULL"]> (files st)) = "NULL" ∧
  ∀ fuel, printCommitList fuel (<[HEAD := File "NULL"]> (files st)) = Finished [].
Proof.
  intros Hg Hs Hc Hh. split; [|split].
  - unfold gitInit, create_directories.
    unfold staging, commitsRoot, gitDir in *. simpl in *.
    rewrite Hg, Hs. simpl. rewrite Hg, Hc.
    unfold print, write_file, ofstream_opens. simpl.
    unfold is_directory in *. simpl in *. rewrite Hg.
    by destruct (files st !! HEAD) as [[|]|].
  - apply getHEAD_written; [apply lookup_insert_eq|done|done].
  - intros fuel. unfold printCommitList, getline_file, read_file.
    rewrite node_at_lookup, lookup_insert_eq by done.
    by destruct fuel.
Qed.

Lemma gitInit_again_resets_head_witness :
  getHEAD (files session_commit2) = id2 ∧
  fst <$> gitInit session_commit2 = Some tt ∧
  getHEAD (<[HEAD := File "NULL"]> (files session_commit2)) = "NULL" ∧
  ∀ fuel, printCommitList fuel (<[HEAD := File "NULL"]> (files session_commit2))
          = Finished [].
Proof.
  destruct (gitInit_again_resets_head session_commit2) as (Hi & Hh & Hl);
    try (vm_compute; reflexivity).
  split; [vm_compute; reflexivity|]. split; [by rewrite Hi|]. by split.
Defined.

End more_gitInit.

Lemma result_true (r : option (bool * state)) (d : state) :
  fst <$> r = Some true → r = Some (true, default d (snd <$> r)).
Proof. destruct r as [[[] ?]|]; by intros [=]. Qed.

Section more_revert.
Implicit Types (fs : filesystem) (st : state) (q rel : path).

Lemma write_file_other p c fs q : q ≠ p → write_file p c fs !! q = fs !! q.
Proof.
  intros Hne. unfold write_file. destruct (ofstream_opens fs p); [|done].
  by apply lookup_insert_ne.
Qed.

Lemma revertCommit_inv rnd now R st b st' :
  revertCommit rnd now R st = Some (b, st') →
  (b = false ∧ files st' = files st) ∨
  (b = true ∧ ∃ msg fsc,
     createCommit (gen_random rnd 8) (head_parent (files st)) msg now (files st)
       = Some fsc ∧
     files st' = write_file HEAD (gen_random rnd 8) fsc).
Proof.
  unfold revertCommit, bind, get_files, try_value, fs_try, print, ret. intros H.
  destruct (resolve_target R (files st)) as [out|target].
  - rewrite for_eachM_print in H. left. by simplify_eq.
  - destruct (negb (fs_exists (files st) (commitInfoPath target))).
    { left. by simplify_eq. }
    destruct (revert_message _ "") as [msg|]; [|done].
    destruct (addOnTail rnd now _ (files st)) as [fs'|] eqn:E; [|done].
    right. simplify_eq. split; [done|]. unfold addOnTail in E.
    destruct (createCommit _ _ _ _ _) as [fsc|] eqn:Ec; simpl in E; [|done].
    simplify_eq. by eexists _, _.
Qed.

(** X10.  Whatever [revertCommit] returns, it has changed neither the
    working tree, nor the staging area, nor the directory of any commit
    other than the one it creates; when it returns false it has changed
    no file at all. *)
Theorem revertCommit_writes_only_new_commit_and_head
    (rnd : nat → nat) (now R : string) (st st' : state) (b : bool) :
  revertCommit rnd now R st = Some (b, st') →
  (∀ x rel, x ≠ ".git" → files st' !! (x :: rel) = files st !! (x :: rel)) ∧
  (∀ rel, files st' !! (staging ++ rel) = files st !! (staging ++ rel)) ∧
  (∀ id' rel, id' ≠ gen_random rnd 8 →
     files st' !! (commitPath id' ++ rel) = files st !! (commitPath id' ++ rel)) ∧
  (b = false → files st' = files st).
Proof.
  intros H.
  destruct (revertCommit_inv _ _ _ _ _ _ H) as [[-> Heq]|(-> & msg & fsc & Hc & Heq)].
  - rewrite Heq. by repeat split.
  - rewrite Heq. split; [|split; [|split; [|done]]].
    + intros x rel Hx. rewrite write_file_other by (intros [=]; congruence).
      eapply createCommit_untouched; [done|]. by apply outside_commit_working.
    + intros rel. rewrite write_file_other by (intros Hr; discriminate Hr).
      eapply createCommit_untouched; [done|]. apply outside_commit_staging.
    + intros id' rel Hne. rewrite write_file_other by (intros Hr; discriminate Hr).
      eapply createCommit_untouched; [done|]. by apply outside_commit_other.
Qed.

Lemma revertCommit_writes_only_new_commit_and_head_witness :
  let st := session_added3 in
  let r := revertCommit rnd3 time3 id1 st in
  let st' := default st (snd <$> r) in
  r = Some (true, st') ∧
  (∀ x rel, x ≠ ".git" → files st' !! (x :: rel) = files st !! (x :: rel)) ∧
  (∀ rel, files st' !! (staging ++ rel) = files st !! (staging ++ rel)) ∧
  (∀ id' rel, id' ≠ gen_random rnd3 8 →
     files st' !! (commitPath id' ++ rel) = files st !! (commitPath id' ++ rel)) ∧
  (true = false → files st' = files st).
Proof.
  intros st r st'.
  assert (r = Some (true, st')) as Hr
    by (apply result_true; vm_compute; reflexivity).
  split; [exact Hr|].
  exact (revertCommit_writes_only_new_commit_and_head rnd3 time3 id1 st st' true Hr).
Defined.

(** X11.  Reverting to a literal identifier whose record is well formed
    never returns false; the commit it creates is recorded with the current
    head as parent and with the target's message followed by
    [" (Revert of <target>)"]. *)
Theorem revertCommit_record
    (rnd : nat → nat) (now R parent msg time : string) (st st' : state) (b : bool) :
  R ≠ "HEAD" →
  read_file (files st) (commitInfoPath R) = Some (commitInfo_text R parent msg time) →
  no_newline R = true → no_newline parent = true →
  no_newline msg = true → no_newline time = true →
  revertCommit rnd now R st = Some (b, st') →
  b = true ∧
  read_file (files st') (commitInfoPath (gen_random rnd 8)) =
    Some (commitInfo_text (gen_random rnd 8) (head_parent (files st))
                          (msg +:+ " (Revert of " +:+ R +:+ ")") now).
Proof.
  intros HR Hrec HnR Hnp Hnm Hnt H.
  unfold revertCommit, bind, get_files, try_value, fs_try, ret, resolve_target in H.
  rewrite bool_decide_eq_false_2 in H by done.
  assert (fs_exists (files st) (commitInfoPath R) = true) as Hex.
  { unfold fs_exists. unfold read_file in Hrec.
    by destruct (node_at (files st) (commitInfoPath R)). }
  rewrite Hex, Hrec in H. cbn [negb default from_option id] in H.
  destruct (commitInfo_round_trip_parts R parent msg time HnR Hnp Hnm Hnt) as [_ Hm].
  rewrite Hm in H.
  destruct (addOnTail rnd now _ (files st)) as [fs'|] eqn:E; [|done].
  simplify_eq. split; [done|]. unfold addOnTail in E.
  destruct (createCommit _ _ _ _ _) as [fsc|] eqn:Ec; simpl in E; [|done].
  simplify_eq. unfold read_file. rewrite node_at_lookup by done. simpl.
  rewrite write_file_other by (intros Hr; discriminate Hr).
  by rewrite (createCommit_record _ _ _ _ _ _ Ec).
Qed.

Lemma revertCommit_record_witness :
  let st := session_commit2 in
  let r := revertCommit rnd3 time3 id1 st in
  let st' := default st (snd <$> r) in
  read_file (files st) (commitInfoPath id1) = Some (commitInfo_text id1 "" "first" time1) ∧
  r = Some (true, st') ∧
  read_file (files st') (commitInfoPath (gen_random rnd3 8)) =
    Some (commitInfo_text (gen_random rnd3 8) (head_parent (files st))
                          ("first" +:+ " (Revert of " +:+ id1 +:+ ")") time3).
Proof.
  intros st r st'.
  assert (read_file (files st) (commitInfoPath id1)
          = Some (commitInfo_text id1 "" "first" time1)) as Hrec
    by (vm_compute; reflexivity).
  assert (r = Some (true, st')) as Hr
    by (apply result_true; vm_compute; reflexivity).
  split; [exact Hrec|split; [exact Hr|]].
  exact (proj2 (revertCommit_record rnd3 time3 id1 "" "first" time1 st st' true
                  ltac:(discriminate) Hrec eq_refl eq_refl eq_refl eq_refl Hr)).
Defined.

End more_revert.

Section more_log.
Implicit Types (fs : filesystem) (cur stop : string)
  (recs : list (string * string * string)).

Lemma printCommitList_loop_step fs cur parent msg now fuel :
  cur ≠ "" → cur ≠ "NULL" →
  no_newline cur = true → no_space parent = true →
  no_newline msg = true → no_newline now = true →
  read_file fs (commitInfoPath cur) = Some (commitInfo_text cur parent msg now) →
  printCommitList_loop (S fuel) fs cur =
    match printCommitList_loop fuel fs (parent_field parent) with
    | Finished out' => Finished (log_entry (cur, msg, now) ++ out')
    | r => r
    end ∧
  printCommitList_loop 0 fs cur = OutOfFuel.
Proof.
  intros Hne Hnull Hcur Hparent Hmsg Hnow Hrec.
  assert (fs_exists fs (commitInfoPath cur) = true) as Hex.
  { unfold fs_exists. unfold read_file in Hrec.
    by destruct (node_at fs (commitInfoPath cur)). }
  split.
  - cbn [printCommitList_loop].
    rewrite !bool_decide_eq_false_2 by done. cbn [orb].
    rewrite Hex. cbn [negb]. rewrite Hrec. cbn [default from_option id].
    pose proof (parent_field_no_space parent Hparent) as Hpf.
    rewrite read_lines_commitInfo by (done || by apply no_space_no_newline).
    rewrite print_record_commitInfo.
    rewrite trim_no_space by done.
    by destruct (printCommitList_loop fuel fs (parent_field parent)).
  - cbn [printCommitList_loop].
    rewrite !bool_decide_eq_false_2 by done. cbn [orb]. by rewrite Hex.
Qed.

(** The walk over a chain, then on from where the chain ends. *)
Lemma printCommitList_loop_chain fs cur recs stop fuel :
  history fs cur recs stop →
  printCommitList_loop (length recs + fuel) fs cur =
    match printCommitList_loop fuel fs stop with
    | Finished out' => Finished (concat (log_entry <$> recs) ++ out')
    | r => r
    end.
Proof.
  induction 1 as [cur|cur parent msg now rest stop Hne Hnull Hcur Hparent Hmsg Hnow
                   Hrec Hrest IH].
  - simpl. by destruct (printCommitList_loop fuel fs cur).
  - cbn [length plus].
    destruct (printCommitList_loop_step fs cur parent msg now (length rest + fuel))
      as [-> _]; try done.
    rewrite IH. by destruct (printCommitList_loop fuel fs stop).
Qed.

Lemma printCommitList_loop_short fs cur recs stop fuel :
  history fs cur recs stop → fuel < length recs →
  printCommitList_loop fuel fs cur = OutOfFuel.
Proof.
  intros Hh. revert fuel.
  induction Hh as [cur|cur parent msg now rest stop Hne Hnull Hcur Hparent Hmsg Hnow
                    Hrec Hrest IH]; intros fuel Hfuel; [simpl in Hfuel; lia|].
  destruct (printCommitList_loop_step fs cur parent msg now (fuel - 1))
    as [Hs H0]; try done.
  destruct fuel as [|fuel]; [done|].
  replace (S fuel - 1) with fuel in Hs by lia. rewrite Hs.
  rewrite IH; [done|]. simpl in Hfuel. lia.
Qed.

(** X12.  On a history whose records lead from the head to a root,
    [printCommitList] prints the entry of every commit, newest first, and
    ends. *)
Theorem printCommitList_complete
    (fs : filesystem) (recs : list (string * string * string))
    (stop : string) (fuel : nat) :
  history fs (trim (default "" (getline_file fs HEAD))) recs stop →
  stop = "" ∨ stop = "NULL" →
  length recs ≤ fuel →
  printCommitList fuel fs = Finished (concat (log_entry <$> recs)).
Proof.
  intros Hh Hstop Hfuel. unfold printCommitList.
  replace fuel with (length recs + (fuel - length recs)) by lia.
  rewrite (printCommitList_loop_chain fs _ recs stop _ Hh).
  assert (printCommitList_loop (fuel - length recs) fs stop = Finished []) as ->.
  { destruct Hstop as [->| ->]; by destruct (fuel - length recs). }
  by rewrite app_nil_r.
Qed.

Lemma printCommitList_complete_witness :
  history (files session_commit2)
          (trim (default "" (getline_file (files session_commit2) HEAD)))
          [(id2, "second", time2); (id1, "first", time1)] "NULL" ∧
  printCommitList 2 (files session_commit2) =
    Finished (concat (log_entry <$> [(id2, "second", time2); (id1, "first", time1)])).
Proof.
  assert (history (files session_commit2)
            (trim (default "" (getline_file (files session_commit2) HEAD)))
            [(id2, "second", time2); (id1, "first", time1)] "NULL") as Hh.
  { replace (trim (default "" (getline_file (files session_commit2) HEAD)))
      with id2 by (vm_compute; reflexivity).
    apply (history_step _ id2 id1 "second" time2 _ "NULL");
      [done|done|reflexivity..|vm_compute; reflexivity|].
    apply (history_step _ id1 "" "first" time1 [] "NULL");
      [done|done|reflexivity..|vm_compute; reflexivity|apply history_end]. }
  split; [exact Hh|].
  apply (printCommitList_complete _ _ "NULL" 2 Hh); [by right|simpl; lia].
Defined.

(** X13.  The walk has no guard against cycles: when the records from the
    head lead back to the head, [printCommitList] does not end, however
    many iterations it is given. *)
Theorem printCommitList_cycle_never_ends
    (fs : filesystem) (recs : list (string * string * string)) (fuel : nat) :
  history fs (trim (default "" (getline_file fs HEAD))) recs
             (trim (default "" (getline_file fs HEAD))) →
  recs ≠ [] →
  printCommitList fuel fs = OutOfFuel.
Proof.
  intros Hh Hne. unfold printCommitList.
  set (cur := trim (default "" (getline_file fs HEAD))) in *.
  induction fuel as [fuel IH] using lt_wf_ind.
  destruct (decide (fuel < length recs)) as [Hlt|Hge].
  - by eapply printCommitList_loop_short.
  - replace fuel with (length recs + (fuel - length recs)) by lia.
    rewrite (printCommitList_loop_chain fs cur recs cur _ Hh).
    rewrite IH; [done|]. destruct recs; [done|]. simpl in *. lia.
Qed.

Lemma printCommitList_cycle_never_ends_witness :
  history (files session_cycle)
          (trim (default "" (getline_file (files session_cycle) HEAD)))
          [(id2, "second", time2); (id1, "first", time1)]
          (trim (default "" (getline_file (files session_cycle) HEAD))) ∧
  printCommitList 1000 (files session_cycle) = OutOfFuel.
Proof.
  assert (history (files session_cycle)
            (trim (default "" (getline_file (files session_cycle) HEAD)))
            [(id2, "second", time2); (id1, "first", time1)]
            (trim (default "" (getline_file (files session_cycle) HEAD)))) as Hh.
  { replace (trim (default "" (getline_file (files session_cycle) HEAD)))
      with id2 by (vm_compute; reflexivity).
    apply (history_step _ id2 id1 "second" time2 _ id2);
      [done|done|reflexivity..|vm_compute; reflexivity|].
    apply (history_step _ id1 id2 "first" time1 [] id2);
      [done|done|reflexivity..|vm_compute; reflexivity|apply history_end]. }
  split; [exact Hh|].
  by apply (printCommitList_cycle_never_ends _ _ 1000 Hh).
Defined.

End more_log.


Section more_gitCommit.
Implicit Types (fs : filesystem) (st : state) (q rel : path)
  (recs : list (string * string * string)).

(** X14.  On a well-formed file system, [gitCommit] returns true exactly
    when some regular file is staged; when it returns false no file has
    changed. *)
Theorem gitCommit_true_iff_staged
    (rnd : nat → nat) (now msg : string) (st st' : state) (b : bool) :
  well_formed (files st) →
  gitCommit rnd now msg st = Some (b, st') →
  (b = true ↔ ∃ rel, is_regular_file (files st) (staging ++ rel) = true) ∧
  (b = false → files st' = files st).
Proof.
  intros Hwf H. unfold gitCommit, bind, get_files, try_value, fs_try, print, ret in H.
  destruct (staging_empty (files st)) as [[|]|] eqn:E; simpl in H; [| |done].
  - simplify_eq. split; [|done]. split; [done|]. intros [rel Hrel].
    by rewrite (no_staged_file_check _ Hwf E) in Hrel.
  - destruct (addOnTail rnd now msg (files st)) as [fs1|]; simpl in H; [|done].
    destruct (clearStagingArea fs1) as [fs2|]; simpl in H; [|done].
    simplify_eq. split; [|done]. split; [|done]. intros _.
    by apply staging_empty_false in E as [_ ?].
Qed.

Lemma gitCommit_true_iff_staged_witness :
  well_formed (files session_added2) ∧
  fst <$> gitCommit rnd2 time2 "second" session_added2 = Some true ∧
  ∃ rel, is_regular_file (files session_added2) (staging ++ rel) = true.
Proof.
  assert (well_formed (files session_added2)) as Hwf by (vm_compute; reflexivity).
  assert (fst <$> gitCommit rnd2 time2 "second" session_added2 = Some true) as Hb
    by (vm_compute; reflexivity).
  split; [exact Hwf|split; [exact Hb|]].
  destruct (gitCommit rnd2 time2 "second" session_added2) as [[b st']|] eqn:E;
    [|done].
  simpl in Hb. injection Hb as ->.
  by apply (gitCommit_true_iff_staged rnd2 time2 "second" session_added2 st' true Hwf E).
Defined.

(** The files a successful [gitCommit] leaves behind. *)
Lemma gitCommit_true_files rnd now msg st st' :
  is_directory (files st) HEAD = false →
  gitCommit rnd now msg st = Some (true, st') →
  ∃ fsc, createCommit (gen_random rnd 8) (head_parent (files st)) msg now (files st)
           = Some fsc ∧
         files st' !! HEAD = Some (File (gen_random rnd 8)) ∧
         ∀ q, q ≠ HEAD → (∀ r, q ≠ staging ++ r) → files st' !! q = fsc !! q.
Proof.
  intros Hhead H. unfold gitCommit, bind, get_files, try_value, fs_try, print, ret in H.
  destruct (staging_empty (files st)) as [[|]|] eqn:Eempty; simpl in H; try done.
  apply staging_empty_false in Eempty as [Hstaging _].
  destruct (addOnTail rnd now msg (files st)) as [fs1|] eqn:Etail; simpl in H; [|done].
  destruct (clearStagingArea fs1) as [fs2|] eqn:Eclear; simpl in H; [|done].
  injection H as <-. simpl.
  unfold addOnTail in Etail. set (id := gen_random rnd 8) in *.
  destruct (createCommit id (head_parent (files st)) msg now (files st))
    as [fsc|] eqn:Ecommit; simpl in Etail; [|done].
  injection Etail as <-. exists fsc. split; [done|].
  pose proof (createCommit_untouched _ _ _ _ _ _ HEAD Ecommit
                (outside_commit_HEAD id)) as HH.
  pose proof (createCommit_untouched _ _ _ _ _ _ staging Ecommit) as HS.
  rewrite <- (app_nil_r staging) in HS at 1 2.
  specialize (HS (outside_commit_staging id [])). rewrite app_nil_r in HS.
  pose proof (createCommit_gitDir _ _ _ _ _ _ Ecommit) as HG.
  assert (write_file HEAD id fsc = <[HEAD := File id]> fsc) as Hw.
  { unfold write_file, ofstream_opens, is_directory in *. simpl in *.
    rewrite HH. change (fsc !! [".git"]) with (fsc !! gitDir). rewrite HG.
    by destruct (files st !! HEAD) as [[c|]|]. }
  rewrite Hw in Eclear.
  apply clearStagingArea_spec in Eclear as [Hclean Hother].
  2:{ unfold fs_exists in *. simpl in *. rewrite lookup_insert_ne by done.
      change (fsc !! [".git"; "staging_area"]) with (fsc !! staging).
      by rewrite HS. }
  split.
  - rewrite Hother by (intros r Hr; discriminate Hr). apply lookup_insert_eq.
  - intros q Hq Hns. rewrite Hother by done. by apply lookup_insert_ne.
Qed.

Lemma history_transfer fs fs' cur recs stop :
  history fs cur recs stop →
  (∀ r, r ∈ recs →
        read_file fs' (commitInfoPath r.1.1) = read_file fs (commitInfoPath r.1.1)) →
  history fs' cur recs stop.
Proof.
  induction 1 as [cur|cur parent msg now rest stop Hne Hnull Hcur Hparent Hmsg Hnow
                   Hrec Hrest IH]; intros Hsame.
  - apply history_end.
  - apply (history_step fs' cur parent msg now rest stop); try done.
    + pose proof (Hsame (cur, msg, now) (list_elem_of_here _ _)) as Hs.
      simpl in Hs. by rewrite Hs.
    + apply IH. intros r Hr. apply Hsame. by right.
Qed.

Lemma history_start fs cur recs stop :
  history fs cur recs stop →
  (recs = [] ∧ cur = stop) ∨ (recs ≠ [] ∧ cur ≠ "" ∧ cur ≠ "NULL").
Proof. destruct 1; [by left|by right]. Qed.

Lemma gen_random_not_NULL rnd : gen_random rnd 8 ≠ "NULL".
Proof.
  intros H. apply (f_equal String.length) in H.
  unfold gen_random in H. rewrite gen_random_from_length in H. done.
Qed.

(** X15.  After a [gitCommit] that returns true, the log is the entry of
    the new commit followed by the log as it was before -- provided the
    history led to a root, no field has a line break, and the generated
    identifier is not the one of a commit already in the history. *)
Theorem gitCommit_extends_log
    (rnd : nat → nat) (now msg : string) (st st' : state)
    (recs : list (string * string * string)) (stop : string) (fuel : nat) :
  is_directory (files st) HEAD = false →
  history (files st) (trim (default "" (getline_file (files st) HEAD))) recs stop →
  stop = "" ∨ stop = "NULL" →
  no_space (trim (default "" (getline_file (files st) HEAD))) = true →
  (∀ r, r ∈ recs → r.1.1 ≠ gen_random rnd 8) →
  no_newline msg = true → no_newline now = true →
  gitCommit rnd now msg st = Some (true, st') →
  length recs < fuel →
  printCommitList fuel (files st') =
    Finished (log_entry (gen_random rnd 8, msg, now) ++ concat (log_entry <$> recs)).
Proof.
  intros Hhead Hh Hstop Hclean Hfresh Hmsg Hnow Hc Hfuel.
  destruct (gitCommit_true_files _ _ _ _ _ Hhead Hc) as (fsc & Hcc & HH & Hother).
  set (h := trim (default "" (getline_file (files st) HEAD))) in *.
  assert (head_parent (files st) = if bool_decide (h = "NULL") then "" else h) as Hhp
    by done.
  assert (∀ cur, cur ≠ gen_random rnd 8 →
            read_file (files st') (commitInfoPath cur)
            = read_file (files st) (commitInfoPath cur)) as Hrecs.
  { intros cur Hne. unfold read_file. rewrite !node_at_lookup by done.
    rewrite Hother by (intros; discriminate).
    rewrite (createCommit_untouched _ _ _ _ _ _ (commitInfoPath cur) Hcc); [done|].
    rewrite <- (app_nil_r (commitInfoPath cur)).
    unfold commitInfoPath. rewrite <- app_assoc. by apply outside_commit_other. }
  assert (read_file (files st') (commitInfoPath (gen_random rnd 8))
          = Some (commitInfo_text (gen_random rnd 8) (head_parent (files st)) msg now)) as Hnew.
  { unfold read_file. rewrite node_at_lookup by done.
    rewrite Hother by (intros; discriminate).
    by rewrite (createCommit_record _ _ _ _ _ _ Hcc). }
  assert (no_space (head_parent (files st)) = true) as Hps
    by (rewrite Hhp; by case_bool_decide).
  assert (∃ stop', (stop' = "" ∨ stop' = "NULL") ∧
            history (files st') (parent_field (head_parent (files st))) recs stop')
    as (stop' & Hstop' & Hh').
  { destruct (history_start _ _ _ _ Hh) as [[-> Heq]|(Hne & Hne1 & Hne2)].
    - exists "NULL". split; [by right|].
      assert (head_parent (files st) = "") as ->.
      { rewrite Hhp, Heq. destruct Hstop as [->| ->]; done. }
      apply history_end.
    - exists stop. split; [done|].
      rewrite Hhp. rewrite bool_decide_eq_false_2 by done.
      unfold parent_field. rewrite bool_decide_eq_false_2 by done.
      apply (history_transfer (files st)); [done|].
      intros r Hr. apply Hrecs. by apply Hfresh. }
  unfold printCommitList, getline_file, read_file.
  rewrite node_at_lookup, HH by done.
  pose proof (gen_random_no_space rnd 8) as Hid.
  rewrite getline_no_newline
    by first [apply gen_random_nonempty | by apply no_space_no_newline].
  cbn [fmap option_fmap option_map fst default from_option id].
  rewrite trim_no_space by done.
  apply (printCommitList_loop_history _ _ ((gen_random rnd 8, msg, now) :: recs) stop').
  - apply (history_step _ _ (head_parent (files st)) msg now recs stop'); try done;
      first [apply gen_random_nonempty | apply gen_random_not_NULL
            | by apply no_space_no_newline].
  - destruct Hstop' as [->| ->]; [by left|by right; left].
  - simpl. lia.
Qed.

Lemma gitCommit_extends_log_witness :
  history (files session_added2)
          (trim (default "" (getline_file (files session_added2) HEAD)))
          [(id1, "first", time1)] "NULL" ∧
  gitCommit rnd2 time2 "second" session_added2 = Some (true, session_commit2) ∧
  printCommitList 2 (files session_commit2) =
    Finished (log_entry (gen_random rnd2 8, "second", time2)
              ++ concat (log_entry <$> [(id1, "first", time1)])).
Proof.
  assert (history (files session_added2)
            (trim (default "" (getline_file (files session_added2) HEAD)))
            [(id1, "first", time1)] "NULL") as Hh.
  { replace (trim (default "" (getline_file (files session_added2) HEAD)))
      with id1 by (vm_compute; reflexivity).
    apply (history_step _ id1 "" "first" time1 [] "NULL");
      [done|done|reflexivity..|vm_compute; reflexivity|apply history_end]. }
  assert (gitCommit rnd2 time2 "second" session_added2 = Some (true, session_commit2))
    as Hc.
  { assert (fst <$> gitCommit rnd2 time2 "second" session_added2 = Some true) as Hb
      by (vm_compute; reflexivity).
    unfold session_commit2, after.
    destruct (gitCommit rnd2 time2 "second" session_added2) as [[b st']|];
      [|done].
    simpl in Hb. by injection Hb as ->. }
  split; [exact Hh|split; [exact Hc|]].
  apply (gitCommit_extends_log rnd2 time2 "second" session_added2 session_commit2
           [(id1, "first", time1)] "NULL" 2).
  - vm_compute. reflexivity.
  - exact Hh.
  - by right.
  - vm_compute. reflexivity.
  - intros r Hr. apply list_elem_of_singleton in Hr as ->.
    intros Heq. vm_compute in Heq. discriminate Heq.
  - reflexivity.
  - reflexivity.
  - exact Hc.
  - simpl. lia.
Defined.

End more_gitCommit.

Section more_gitAdd.
Implicit Types (fs : filesystem) (q rel : path) (cd : option path) (e : path * node).

(** The two calls that copy a working file into the staging area. *)
Lemma stage_spec rel fs fs' c :
  (fs1 ← create_directories (parent_path (staging ++ rel)) fs;
   copy_file true rel (staging ++ rel) fs1) = Some fs' →
  fs !! rel = Some (File c) → rel ≠ [] →
  fs' !! (staging ++ rel) = Some (File c) ∧
  ∀ q, (∀ r, staging ++ rel ≠ q ++ r) → fs' !! q = fs !! q.
Proof.
  intros H Hrel Hne.
  destruct (create_directories (parent_path (staging ++ rel)) fs) as [fs1|] eqn:E1;
    simpl in H; [|done].
  apply copy_file_spec in H as (c' & Hsrc & -> & _).
  rewrite node_at_lookup in Hsrc by done.
  pose proof (kept_or_mkdir_file _ _ _ _ (create_directories_kept _ _ _ E1 rel) Hrel)
    as Hrel1.
  assert (c' = c) as -> by congruence.
  split; [apply lookup_insert_eq|].
  intros q Hq. rewrite lookup_insert_ne.
  - apply (create_directories_untouched _ _ _ _ E1).
    intros r Hr. destruct (parent_path_app (staging ++ rel)) as [x Hx]; [done|].
    apply (Hq (r ++ [x])). rewrite Hx, Hr. by rewrite <- app_assoc.
  - intros <-. apply (Hq []). by rewrite app_nil_r.
Qed.

Lemma unstage_spec rel fs fs' :
  (if fs_exists fs (staging ++ rel) then fs_remove (staging ++ rel) fs else Some fs)
    = Some fs' →
  fs' !! (staging ++ rel) = None ∧
  ∀ q, q ≠ staging ++ rel → fs' !! q = fs !! q.
Proof.
  intros H. destruct (fs_exists fs (staging ++ rel)) eqn:Hex.
  - by apply fs_remove_spec in H.
  - simplify_eq. split; [|done]. unfold fs_exists in Hex.
    rewrite node_at_lookup in Hex by done. by destruct (fs' !! (staging ++ rel)).
Qed.

(** One iteration of the loop of [gitAdd()] on a regular file that is not
    ignored. *)
Lemma add_entry_spec cd rel c fs fs' :
  add_entry cd (rel, File c) fs = Some fs' →
  isIgnored rel = false → fs !! rel = Some (File c) → rel ≠ [] →
  (same_as_committed fs cd rel = Some true → fs' !! (staging ++ rel) = None) ∧
  (same_as_committed fs cd rel = Some false →
     fs' !! (staging ++ rel) = Some (File c)).
Proof.
  unfold add_entry. cbn [fst snd is_file_node negb]. intros H Hign Hrel Hne.
  rewrite Hign in H.
  destruct (same_as_committed fs cd rel) as [[|]|]; cbn [mbind option_bind] in H;
    [| |done].
  - split; [intros _|done]. by apply unstage_spec in H as [? _].
  - split; [done|intros _]. by eapply stage_spec in H as [? _].
Qed.

(** Any iteration changes only paths on the way to the staged copy. *)
Lemma add_entry_frame cd e fs fs' q :
  add_entry cd e fs = Some fs' →
  (∀ r, staging ++ e.1 ≠ q ++ r) → fs' !! q = fs !! q.
Proof.
  unfold add_entry. intros H Hq.
  destruct (isIgnored e.1); [by simplify_eq|].
  destruct (negb (is_file_node e.2)); [by simplify_eq|].
  assert (q ≠ staging ++ e.1) as Hne
    by (intros ->; apply (Hq []); by rewrite app_nil_r).
  destruct (same_as_committed fs cd e.1) as [[|]|]; cbn [mbind option_bind] in H;
    [| |done].
  - apply unstage_spec in H as [_ Ho]. by apply Ho.
  - destruct (create_directories (parent_path (staging ++ e.1)) fs) as [fs1|] eqn:E1;
      simpl in H; [|done].
    apply copy_file_spec in H as (c' & _ & -> & _).
    rewrite lookup_insert_ne by done.
    apply (create_directories_untouched _ _ _ _ E1).
    intros r Hr. destruct (parent_path_app (staging ++ e.1)) as [x Hx]; [done|].
    apply (Hq (r ++ [x])). rewrite Hx, Hr. by rewrite <- app_assoc.
Qed.

(** An iteration adds a staged file only for the entry it is run on. *)
Lemma add_entry_new_file cd e fs fs' q :
  add_entry cd e fs = Some fs' → is_regular_file fs' q = true →
  is_regular_file fs q = true ∨
  (q = staging ++ e.1 ∧ isIgnored e.1 = false ∧ is_file_node e.2 = true).
Proof.
  unfold add_entry. intros H Hq.
  destruct (isIgnored e.1) eqn:Hign; [simplify_eq; by left|].
  destruct (is_file_node e.2) eqn:Hfile; cbn [negb] in H; [|simplify_eq; by left].
  destruct (decide (q = staging ++ e.1)) as [->|Hne]; [by right|]. left.
  destruct (same_as_committed fs cd e.1) as [[|]|]; cbn [mbind option_bind] in H;
    [| |done].
  - apply unstage_spec in H as [_ Ho].
    by rewrite (is_regular_file_ext fs fs') in Hq by by apply Ho.
  - destruct (create_directories (parent_path (staging ++ e.1)) fs) as [fs1|] eqn:E1;
      simpl in H; [|done].
    apply copy_file_spec in H as (c' & _ & -> & _).
    apply is_regular_file_lookup in Hq as (c & Hqne & Hl).
    rewrite lookup_insert_ne in Hl by done.
    apply is_regular_file_lookup. exists c. split; [done|].
    by eapply kept_or_mkdir_file_inv; [by eapply create_directories_kept|].
Qed.

Lemma same_as_committed_ext fs fs' cd rel :
  rel ≠ [] → fs' !! rel = fs !! rel →
  (∀ d, cd = Some d → d ≠ [] ∧ fs' !! (d ++ rel) = fs !! (d ++ rel)) →
  same_as_committed fs' cd rel = same_as_committed fs cd rel.
Proof.
  intros Hne Hrel Hd. destruct cd as [d|]; [|done].
  destruct (Hd d eq_refl) as [Hdne Hdl].
  unfold same_as_committed, filesAreSame, filesAreSame_counting, fs_exists,
    file_size, read_file.
  rewrite !(node_at_lookup _ rel) by done.
  rewrite !(node_at_app _ d rel) by done. by rewrite Hrel, Hdl.
Qed.

Lemma off_staging_working rel : rel ≠ [] → isIgnored rel = false → off_staging rel.
Proof.
  intros Hne Hign r r' H. destruct rel as [|x rel]; [done|].
  injection H as <- _. rewrite reserved_isIgnored in Hign; [done|].
  left. by eexists.
Qed.

Lemma off_staging_data id rel : off_staging (dataPath id ++ rel).
Proof. intros r r' H. discriminate H. Qed.

Lemma committedData_cases fs :
  committedData fs = None ∨ ∃ id, committedData fs = Some (dataPath id).
Proof. unfold committedData. case_bool_decide; [by left|right; by eexists]. Qed.

Lemma add_loop_spec fs cd es fs1 fs' :
  well_formed fs →
  cd = None ∨ (∃ id, cd = Some (dataPath id)) →
  (∀ e, e ∈ es → fs !! e.1 = Some e.2 ∧ e.1 ≠ []) →
  (∀ q, off_staging q → fs1 !! q = fs !! q) →
  for_each (add_entry cd) es fs1 = Some fs' →
  (∀ q, off_staging q → fs' !! q = fs !! q) ∧
  (∀ rel c, (rel, File c) ∈ es → isIgnored rel = false →
     (same_as_committed fs cd rel = Some true → fs' !! (staging ++ rel) = None) ∧
     (same_as_committed fs cd rel = Some false →
        fs' !! (staging ++ rel) = Some (File c))).
Proof.
  intros Hwf Hcd. revert fs1.
  induction es as [|e0 es IH]; intros fs1 Hes Hoff H; simpl in H.
  { simplify_eq. split; [done|]. intros rel c Hin. by apply elem_of_nil in Hin. }
  destruct (add_entry cd e0 fs1) as [fs2|] eqn:E0; simpl in H; [|done].
  assert (∀ q, off_staging q → fs2 !! q = fs !! q) as Hoff2.
  { intros q Hq. rewrite <- (Hoff q Hq).
    apply (add_entry_frame _ _ _ _ _ E0). intros r. apply Hq. }
  destruct (IH fs2) as [Hframe Hres]; [|done|done|].
  { intros e He. apply Hes. by right. }
  split; [done|]. intros rel c Hin Hign.
  destruct (decide ((rel, File c) ∈ es)) as [Hlater|Hnot]; [by apply Hres|].
  apply elem_of_cons in Hin as [<-|Hin]; [|done].
  destruct (Hes (rel, File c) (list_elem_of_here _ _)) as [Hl Hne]. simpl in Hl, Hne.
  pose proof (off_staging_working rel Hne Hign) as Hoffrel.
  assert (same_as_committed fs1 cd rel = same_as_committed fs cd rel) as Hsame.
  { apply same_as_committed_ext; [done|by apply Hoff|].
    intros d Hd. destruct Hcd as [->|[id ->]]; [done|]. injection Hd as <-.
    split; [done|]. apply Hoff, off_staging_data. }
  assert (fs1 !! rel = Some (File c)) as Hl1 by (by rewrite Hoff).
  pose proof (add_entry_spec cd rel c fs1 fs2 E0 Hign Hl1 Hne) as Hstep.
  rewrite Hsame in Hstep.
  (* the later iterations leave the staged copy of [rel] alone *)
  assert (∀ es' fsa fsb,
            (∀ e, e ∈ es' → e ∈ es) →
            for_each (add_entry cd) es' fsa = Some fsb →
            fsb !! (staging ++ rel) = fsa !! (staging ++ rel)) as Hkeep.
  { induction es' as [|e es' IHes]; intros fsa fsb Hsub Hloop; simpl in Hloop.
    - by simplify_eq.
    - destruct (add_entry cd e fsa) as [fsm|] eqn:Em; simpl in Hloop; [|done].
      rewrite (IHes fsm fsb) by (done || intros e' ?; apply Hsub; by right).
      assert (e ∈ es) as He by (apply Hsub; by left).
      destruct (Hes e) as [Hle Hnee]; [by right|].
      pose proof Em as Em'. unfold add_entry in Em'.
      destruct (isIgnored e.1) eqn:Hie; [by simplify_eq|].
      destruct (is_file_node e.2) eqn:Hfe; cbn [negb] in Em'; [|by simplify_eq].
      apply (add_entry_frame cd e _ _ _ Em).
      intros r Hr. rewrite <- app_assoc in Hr. apply app_inv_head in Hr.
      destruct r as [|x r].
      + rewrite app_nil_r in Hr. apply Hnot.
        destruct e as [rel' n']. simpl in *. subst rel'.
        assert (n' = File c) as -> by congruence. done.
      + assert (fs !! rel = Some Dir) as Hdir.
        { eapply (well_formed_ancestor fs e.1); [done..|].
          rewrite Hr. by apply elem_of_ancestors. }
        congruence. }
  rewrite (Hkeep es fs2 fs') by done. done.
Qed.

(** X16.  After [gitAdd()] on a well-formed file system, a working file
    that equals its copy in the head snapshot has no entry in the staging
    area, a working file that differs from it or is not in the snapshot is
    staged with its current bytes, the only staged files that are new
    belong to working files, and nothing outside the staging area has
    changed. *)
Theorem gitAdd_stages_the_changes (fs fs' : filesystem) :
  well_formed fs →
  gitAdd fs = Some fs' →
  (∀ rel, working_file fs rel = true →
     (same_as_committed fs (committedData fs) rel = Some true →
        fs_exists fs' (staging ++ rel) = false) ∧
     (same_as_committed fs (committedData fs) rel = Some false →
        read_file fs' (staging ++ rel) = read_file fs rel)) ∧
  (∀ rel, is_regular_file fs' (staging ++ rel) = true →
     is_regular_file fs (staging ++ rel) = true ∨ working_file fs rel = true) ∧
  (∀ q, off_staging q → fs' !! q = fs !! q).
Proof.
  intros Hwf H. unfold gitAdd in H.
  destruct (add_loop_spec fs (committedData fs) (walk isIgnored fs) fs fs' Hwf)
    as [Hframe Hres]; try done.
  { apply committedData_cases. }
  { intros [rel n] Hin. apply elem_of_walk in Hin as (? & ? & _). done. }
  split; [|split; [|done]].
  - intros rel Hw. apply working_file_walk in Hw as (n & Hin & Hn & Hign).
    destruct n as [c|]; [|done].
    destruct (Hres rel c Hin Hign) as [Hsame Hdiff].
    pose proof Hin as Hin'. apply elem_of_walk in Hin' as (Hne & Hl & _). split.
    + intros Hs. unfold fs_exists. rewrite node_at_app by done. by rewrite Hsame.
    + intros Hs. unfold read_file. rewrite node_at_app by done.
      rewrite node_at_lookup by done. by rewrite Hdiff, Hl.
  - intros rel Hreg.
    assert (∀ es fsa fsb,
              (∀ e, e ∈ es → e ∈ walk isIgnored fs) →
              for_each (add_entry (committedData fs)) es fsa = Some fsb →
              is_regular_file fsb (staging ++ rel) = true →
              is_regular_file fsa (staging ++ rel) = true ∨ working_file fs rel = true)
      as Hnew.
    { induction es as [|e es IHes]; intros fsa fsb Hsub Hloop Hb; simpl in Hloop.
      - simplify_eq. by left.
      - destruct (add_entry (committedData fs) e fsa) as [fsm|] eqn:Em;
          simpl in Hloop; [|done].
        destruct (IHes fsm fsb) as [Hm|?]; [intros e' ?; apply Hsub; by right|done..| |by right].
        destruct (add_entry_new_file _ _ _ _ _ Em Hm) as [?|(Heq & Hie & Hfe)];
          [by left|right].
        apply app_inv_head in Heq. subst rel.
        apply working_file_walk. exists e.2. split; [|done].
        destruct e. apply Hsub. by left. }
    by apply (Hnew (walk isIgnored fs) fs fs').
Qed.

Lemma gitAdd_stages_the_changes_witness :
  let fs := files session_saved2 in
  let fs' := default ∅ (gitAdd fs) in
  well_formed fs ∧ gitAdd fs = Some fs' ∧
  read_file fs' (staging ++ ["a.txt"]) = read_file fs ["a.txt"] ∧
  fs_exists fs' (staging ++ ["b.txt"]) = false.
Proof.
  intros fs fs'.
  assert (well_formed fs) as Hwf by (vm_compute; reflexivity).
  assert (gitAdd fs = Some fs') as Ha
    by (apply completes_Some; vm_compute; reflexivity).
  destruct (gitAdd_stages_the_changes fs fs' Hwf Ha) as (Hchg & _ & _).
  split; [exact Hwf|split; [exact Ha|split]].
  - apply (Hchg ["a.txt"]); vm_compute; reflexivity.
  - apply (Hchg ["b.txt"]); vm_compute; reflexivity.
Defined.

Lemma scan_working_sound fs cd es m u :
  scan_working fs cd es = Some (m, u) →
  (∀ rel, rel ∈ m →
     ∃ n d, (rel, n) ∈ es ∧ is_file_node n = true ∧ isIgnored rel = false ∧
            cd = Some d ∧ fs_exists fs (d ++ rel) = true ∧
            fs_exists fs (staging ++ rel) = false ∧
            filesAreSame fs rel (d ++ rel) = Some false) ∧
  (∀ rel, rel ∈ u → ∃ n, (rel, n) ∈ es ∧ untracked_entry fs cd rel n).
Proof.
  revert m u. induction es as [|[rel0 n0] es IH]; intros m u H.
  { simpl in H. simplify_eq. split; intros rel Hin; by apply elem_of_nil in Hin. }
  assert (∀ m' u', scan_working fs cd es = Some (m', u') →
            (∀ rel, rel ∈ m' →
               ∃ n d, (rel, n) ∈ (rel0, n0) :: es ∧ is_file_node n = true ∧
                      isIgnored rel = false ∧ cd = Some d ∧
                      fs_exists fs (d ++ rel) = true ∧
                      fs_exists fs (staging ++ rel) = false ∧
                      filesAreSame fs rel (d ++ rel) = Some false) ∧
            (∀ rel, rel ∈ u' →
               ∃ n, (rel, n) ∈ (rel0, n0) :: es ∧ untracked_entry fs cd rel n))
    as Hrest.
  { intros m' u' Hs. destruct (IH m' u' Hs) as [Hm Hu]. split; intros rel Hin.
    - destruct (Hm rel Hin) as (n & d & Hi & Hr). exists n, d. split; [by right|done].
    - destruct (Hu rel Hin) as (n & Hi & Hr). exists n. split; [by right|done]. }
  cbn [scan_working fst snd] in H.
  destruct (isIgnored rel0) eqn:Hign; cbn [orb] in H; [by apply Hrest|].
  destruct (is_file_node n0) eqn:Hfile; cbn [negb] in H; [|by apply Hrest].
  destruct (fs_exists fs (staging ++ rel0)) eqn:Hst.
  { cbn [negb] in H. rewrite !andb_false_r in H. by apply Hrest. }
  cbn [negb] in H. rewrite !andb_true_r in H.
  destruct (in_commit fs cd rel0) eqn:Hin0; cbn [negb] in H.
  - destruct cd as [d|]; [|done]. simpl in Hin0.
    destruct (filesAreSame fs rel0 (d ++ rel0)) as [same|] eqn:Hsame;
      cbn [mbind option_bind] in H; [|done].
    destruct (scan_working fs (Some d) es) as [[m' u']|] eqn:Hs;
      cbn [mbind option_bind fst snd] in H; [|done].
    destruct (Hrest m' u' eq_refl) as [Hm Hu].
    destruct same; simplify_eq; [done|]. split; [|done].
    intros rel [->|Hin]%elem_of_cons; [|by apply Hm].
    exists n0, d. split; [by left|done].
  - destruct (scan_working fs cd es) as [[m' u']|] eqn:Hs;
      cbn [mbind option_bind fst snd] in H; [|done].
    destruct (Hrest m' u' eq_refl) as [Hm Hu]. simplify_eq. split; [done|].
    intros rel [->|Hin]%elem_of_cons; [|by apply Hu].
    exists n0. split; [by left|done].
Qed.

Lemma off_staging_HEAD : off_staging HEAD.
Proof. intros r r' H. discriminate H. Qed.

Lemma committedData_ext fs fs' :
  fs' !! HEAD = fs !! HEAD → committedData fs' = committedData fs.
Proof.
  intros H. unfold committedData, getHEAD, getline_file, read_file.
  rewrite !node_at_lookup by done. by rewrite H.
Qed.

(** X17.  After [gitAdd()], [gitStatus] has nothing to report as modified
    or untracked: every working file that differs from the head snapshot or
    is missing from it is staged. *)
Theorem gitAdd_then_status_has_nothing_unstaged (fs fs' : filesystem) (s : status) :
  well_formed fs →
  gitAdd fs = Some fs' →
  compute_status fs' = Some s →
  modified s = [] ∧ untracked s = [].
Proof.
  intros Hwf Ha Hs. unfold gitAdd in Ha.
  destruct (add_loop_spec fs (committedData fs) (walk isIgnored fs) fs fs' Hwf)
    as [Hframe Hres]; try done.
  { apply committedData_cases. }
  { intros [rel n] Hin. apply elem_of_walk in Hin as (? & ? & _). done. }
  pose proof (committedData_ext fs fs' (Hframe HEAD off_staging_HEAD)) as Hcd.
  unfold compute_status in Hs.
  destruct (scan_staging fs') as [sl|]; cbn [mbind option_bind] in Hs; [|done].
  destruct (scan_working fs' (committedData fs') (walk isIgnored fs'))
    as [[m u]|] eqn:Hw; cbn [mbind option_bind fst snd] in Hs; [|done].
  injection Hs as <-. cbn [modified untracked].
  destruct (scan_working_sound _ _ _ _ _ Hw) as [Hm Hu]. rewrite Hcd in *.
  (* an entry of the walk after the add that is staged in no way *)
  assert (∀ rel n, (rel, n) ∈ walk isIgnored fs' → is_file_node n = true →
            isIgnored rel = false →
            fs_exists fs' (staging ++ rel) = false →
            same_as_committed fs' (committedData fs) rel = Some false → False)
    as Hcontra.
  { intros rel n Hin Hn Hign Hst Hsame.
    apply elem_of_walk in Hin as (Hne & Hl & Hanc).
    pose proof (off_staging_working rel Hne Hign) as Hoff.
    destruct n as [c|]; [|done].
    assert ((rel, File c) ∈ walk isIgnored fs) as Hin0.
    { apply elem_of_walk. rewrite <- (Hframe rel Hoff). done. }
    assert (same_as_committed fs (committedData fs) rel = Some false) as Hsame0.
    { rewrite <- Hsame. symmetry. apply same_as_committed_ext; [done|by apply Hframe|].
      intros d Hd. destruct (committedData_cases fs) as [Hc|[id Hc]];
        rewrite Hc in Hd; [done|]. injection Hd as <-.
      split; [done|]. apply Hframe, off_staging_data. }
    destruct (Hres rel c Hin0 Hign) as [_ Hstaged].
    unfold fs_exists in Hst. rewrite node_at_app in Hst by done.
    by rewrite (Hstaged Hsame0) in Hst. }
  split.
  - destruct m as [|rel m]; [done|]. exfalso.
    destruct (Hm rel) as (n & d & Hin & Hn & Hign & Hd & Hex & Hst & Hsame); [by left|].
    apply (Hcontra rel n Hin Hn Hign Hst).
    unfold same_as_committed. by rewrite Hd, Hex.
  - destruct u as [|rel u]; [done|]. exfalso.
    destruct (Hu rel) as (n & Hin & Hn & Hign & Hnc & Hst); [by left|].
    apply (Hcontra rel n Hin Hn Hign Hst).
    unfold same_as_committed. unfold in_commit in Hnc.
    destruct (committedData fs) as [d|]; [by rewrite Hnc|done].
Qed.

Lemma gitAdd_then_status_has_nothing_unstaged_witness :
  let fs := files session_gitignore in
  let fs' := default ∅ (gitAdd fs) in
  let s := default (Status [] [] []) (compute_status fs') in
  well_formed fs ∧ gitAdd fs = Some fs' ∧ compute_status fs' = Some s ∧
  modified s = [] ∧ untracked s = [].
Proof.
  intros fs fs' s.
  assert (well_formed fs) as Hwf by (vm_compute; reflexivity).
  assert (gitAdd fs = Some fs') as Ha
    by (apply completes_Some; vm_compute; reflexivity).
  assert (compute_status fs' = Some s) as Hs
    by (apply completes_Some; vm_compute; reflexivity).
  split; [exact Hwf|split; [exact Ha|split; [exact Hs|]]].
  exact (gitAdd_then_status_has_nothing_unstaged fs fs' s Hwf Ha Hs).
Defined.

End more_gitAdd.

Section more_gitAdd_files.
Implicit Types (fs : filesystem) (st : state) (q rel : path) (cd : option path).

(** For a normalised name the text typed and [rel.string()] are the same. *)
Lemma name_text_plain rel : plain_name rel = true → name_text rel = rel_string rel.
Proof. by destruct rel. Qed.

Lemma add_named_missing cd rel st :
  isIgnored rel = false → is_regular_file (files st) rel = false →
  add_named cd rel st =
    Some (tt, State (files st) (console st ++ [missing_warning rel])).
Proof.
  intros Hign Hreg. unfold add_named, bind, get_files. rewrite Hign, Hreg.
  by rewrite orb_true_r.
Qed.

Lemma add_named_regular cd rel c st st' :
  isIgnored rel = false → files st !! rel = Some (File c) → rel ≠ [] →
  add_named cd rel st = Some (tt, st') →
  console st' = console st ∧
  (same_as_committed (files st) cd rel = Some true → files st' = files st) ∧
  (same_as_committed (files st) cd rel = Some false →
     files st' !! (staging ++ rel) = Some (File c)) ∧
  (∀ q, (∀ r, staging ++ rel ≠ q ++ r) → files st' !! q = files st !! q).
Proof.
  intros Hign Hl Hne. unfold add_named, bind, get_files, try_value, fs_try, ret.
  rewrite Hign. unfold fs_exists, is_regular_file. rewrite node_at_lookup, Hl by done.
  cbn [negb orb].
  destruct (same_as_committed (files st) cd rel) as [[|]|]; [| |done].
  - intros [= <-]. by repeat split.
  - intros H.
    match type of H with
    | match ?o with _ => _ end = _ => destruct o as [fs'|] eqn:E
    end; [|done].
    simplify_eq. cbn [files console].
    destruct (stage_spec rel (files st) fs' c E Hl Hne) as [Hs Hf].
    by repeat split.
Qed.

Lemma is_regular_file_off_staging fs fs' rel :
  (∀ q, off_staging q → fs' !! q = fs !! q) → isIgnored rel = false →
  is_regular_file fs' rel = is_regular_file fs rel.
Proof.
  intros Hoff Hign. destruct rel as [|x rel]; [done|].
  apply is_regular_file_ext, Hoff. by apply off_staging_working.
Qed.

Lemma add_named_loop_spec fs cd names st1 st' :
  well_formed fs →
  cd = None ∨ (∃ id, cd = Some (dataPath id)) →
  (∀ q, off_staging q → files st1 !! q = fs !! q) →
  for_eachM (add_named cd) names st1 = Some (tt, st') →
  (∀ q, off_staging q → files st' !! q = fs !! q) ∧
  console st' =
    console st1 ++
    (missing_warning <$>
       filter (λ rel, isIgnored rel = false ∧ is_regular_file fs rel = false) names) ∧
  (∀ rel c, rel ∈ names → isIgnored rel = false → fs !! rel = Some (File c) →
     rel ≠ [] → same_as_committed fs cd rel = Some false →
     files st' !! (staging ++ rel) = Some (File c)).
Proof.
  intros Hwf Hcd. revert st1.
  induction names as [|rel0 names IH]; intros st1 Hoff H; simpl in H.
  { unfold ret in H. simplify_eq. rewrite filter_nil, app_nil_r.
    split; [done|split; [done|]].
    intros rel c Hin. by apply elem_of_nil in Hin. }
  unfold bind in H.
  destruct (add_named cd rel0 st1) as [[[] st2]|] eqn:E0; [|done].
  (* what the first step does *)
  assert ((∀ q, off_staging q → files st2 !! q = fs !! q) ∧
          console st2 = console st1 ++
            (missing_warning <$>
               filter (λ rel, isIgnored rel = false ∧ is_regular_file fs rel = false)
                      [rel0]) ∧
          (∀ c, isIgnored rel0 = false → fs !! rel0 = Some (File c) → rel0 ≠ [] →
                same_as_committed fs cd rel0 = Some false →
                files st2 !! (staging ++ rel0) = Some (File c)))
    as (Hoff2 & Hcon2 & Hstage2).
  { destruct (isIgnored rel0) eqn:Hign.
    { rewrite add_named_ignored in E0 by done. simplify_eq.
      rewrite filter_cons_False by (intros [? _]; congruence).
      rewrite filter_nil, app_nil_r. by repeat split. }
    pose proof (is_regular_file_off_staging fs (files st1) rel0 Hoff Hign) as Hreg.
    destruct (is_regular_file fs rel0) eqn:Hreg0.
    - apply is_regular_file_lookup in Hreg as (c & Hne & Hl).
      destruct (add_named_regular cd rel0 c st1 st2 Hign Hl Hne E0)
        as (Hcon & Hsame & Hdiff & Hframe).
      pose proof (off_staging_working rel0 Hne Hign) as Hoffrel.
      assert (same_as_committed (files st1) cd rel0 = same_as_committed fs cd rel0)
        as Hs.
      { apply same_as_committed_ext; [done|by apply Hoff|].
        intros d Hd. destruct Hcd as [->|[id ->]]; [done|]. injection Hd as <-.
        split; [done|]. apply Hoff, off_staging_data. }
      rewrite Hs in Hsame, Hdiff.
      rewrite filter_cons_False by (intros [_ ?]; congruence).
      rewrite filter_nil, app_nil_r. split; [|split; [done|]].
      + intros q Hq. rewrite <- (Hoff q Hq). apply Hframe. intros r. apply Hq.
      + intros c' _ Hl' _ Hf. rewrite Hoff in Hl by done.
        assert (c' = c) as -> by congruence. by apply Hdiff.
    - rewrite add_named_missing in E0 by done. simplify_eq.
      rewrite filter_cons_True by done. rewrite filter_nil. cbn [files console].
      split; [done|split; [done|]].
      intros c _ Hl Hne0.
      assert (is_regular_file fs rel0 = true) as Ht
        by (apply is_regular_file_lookup; by exists c).
      congruence. }
  destruct (IH st2 Hoff2 H) as (Hoff' & Hcon' & Hstage').
  split; [done|split].
  - rewrite Hcon', Hcon2, <- app_assoc, <- fmap_app. f_equal. f_equal.
    change (rel0 :: names) with ([rel0] ++ names). by rewrite filter_app.
  - intros rel c Hin Hign Hl Hne Hdiff.
    destruct (decide (rel ∈ names)) as [Hlater|Hnot]; [by apply (Hstage' rel c)|].
    apply elem_of_cons in Hin as [->|Hin]; [|done].
    (* the later names leave the staged copy of [rel0] alone *)
    assert (∀ names' sta stb,
              (∀ q, off_staging q → files sta !! q = fs !! q) →
              rel0 ∉ names' →
              for_eachM (add_named cd) names' sta = Some (tt, stb) →
              files stb !! (staging ++ rel0) = files sta !! (staging ++ rel0))
      as Hkeep.
    { induction names' as [|rel' names' IHn]; intros sta stb Hoffa Hnin Hloop;
        simpl in Hloop.
      - unfold ret in Hloop. by simplify_eq.
      - unfold bind in Hloop.
        destruct (add_named cd rel' sta) as [[[] stm]|] eqn:Em; [|done].
        apply not_elem_of_cons in Hnin as [Hne' Hnin].
        destruct (isIgnored rel') eqn:Hign'.
        { rewrite add_named_ignored in Em by done. simplify_eq. by apply IHn. }
        pose proof (is_regular_file_off_staging fs (files sta) rel' Hoffa Hign')
          as Hreg.
        destruct (is_regular_file fs rel') eqn:Hreg0.
        + apply is_regular_file_lookup in Hreg as (c' & Hnee & Hl').
          destruct (add_named_regular cd rel' c' sta stm Hign' Hl' Hnee Em)
            as (_ & _ & _ & Hframe).
          rewrite (IHn stm stb); [| |done|done].
          * apply Hframe. intros r Hr. rewrite <- app_assoc in Hr.
            apply app_inv_head in Hr. destruct r as [|x r].
            -- rewrite app_nil_r in Hr. congruence.
            -- rewrite Hoffa in Hl' by (by apply off_staging_working).
               assert (fs !! rel0 = Some Dir) as Hdir.
               { eapply (well_formed_ancestor fs rel'); [done..|].
                 rewrite Hr. by apply elem_of_ancestors. }
               congruence.
          * intros q Hq. rewrite <- (Hoffa q Hq). apply Hframe. intros r. apply Hq.
        + rewrite add_named_missing in Em by done. simplify_eq.
          exact (IHn (State (files sta) (console sta ++ [missing_warning rel']))
                     stb Hoffa Hnin Hloop). }
    rewrite (Hkeep names st2 st') by done. by apply Hstage2.
Qed.


(** X18.  [gitAdd(files, n)] on a well-formed file system, for names that
    are normalised relative paths of the working directory: every named
    regular file that is not ignored and differs from its copy in the head
    snapshot (or has none) ends up staged with its current bytes; exactly
    one warning is printed, in order, for every name that is not ignored
    and is not a regular file, and the remaining names are still processed;
    nothing outside the staging area changes. *)
Theorem gitAdd_files_stages_named (names : list path) (st st' : state) :
  well_formed (files st) →
  forallb plain_name names = true →
  gitAdd_files names st = Some (tt, st') →
  (∀ rel, rel ∈ names → isIgnored rel = false →
     is_regular_file (files st) rel = true →
     same_as_committed (files st) (committedData (files st)) rel = Some false →
     read_file (files st') (staging ++ rel) = read_file (files st) rel) ∧
  console st' =
    console st ++
    (missing_warning <$>
       filter (λ rel, isIgnored rel = false ∧ is_regular_file (files st) rel = false)
              names) ∧
  (∀ q, off_staging q → files st' !! q = files st !! q).
Proof.
  intros Hwf _ H. unfold gitAdd_files, bind, get_files in H.
  destruct (add_named_loop_spec (files st) (committedData (files st)) names st st' Hwf)
    as (Hoff & Hcon & Hstage); try done.
  { apply committedData_cases. }
  split; [|done].
  intros rel Hin Hign Hreg Hdiff.
  apply is_regular_file_lookup in Hreg as (c & Hne & Hl).
  unfold read_file. rewrite node_at_app, node_at_lookup by done.
  by rewrite (Hstage rel c Hin Hign Hl Hne Hdiff), Hl.
Qed.

Lemma gitAdd_files_stages_named_witness :
  let st := session_saved2 in
  let names := [["nope.txt"]; ["a.txt"]; [".git"; "HEAD"]] in
  let st' := default st (snd <$> gitAdd_files names st) in
  well_formed (files st) ∧
  forallb plain_name names = true ∧
  gitAdd_files names st = Some (tt, st') ∧
  read_file (files st') (staging ++ ["a.txt"]) = read_file (files st) ["a.txt"] ∧
  console st' =
    console st ++
    (missing_warning <$>
       filter (λ rel, isIgnored rel = false ∧ is_regular_file (files st) rel = false)
              names).
Proof.
  intros st names st'.
  assert (well_formed (files st)) as Hwf by (vm_compute; reflexivity).
  assert (gitAdd_files names st = Some (tt, st')) as Ha.
  { assert (completes (gitAdd_files names st) = true) as Hc
      by (vm_compute; reflexivity).
    subst st'. by destruct (gitAdd_files names st) as [[[] ?]|]. }
  destruct (gitAdd_files_stages_named names st st' Hwf eq_refl Ha)
    as (Hstage & Hcon & _).
  split; [exact Hwf|split; [reflexivity|split; [exact Ha|split; [|exact Hcon]]]].
  apply (Hstage ["a.txt"]).
  - right. by left.
  - reflexivity.
  - vm_compute. reflexivity.
  - vm_compute. reflexivity.
Defined.

End more_gitAdd_files.

(** * Every command keeps the file system well formed *)

Section more_well_formed.
Implicit Types (fs : filesystem) (st : state) (p q a rel : path) (n : node).

Lemma well_formed_intro fs :
  (∀ q n a, fs !! q = Some n → a ∈ ancestors q → fs !! a = Some Dir) →
  well_formed fs.
Proof.
  intros H. unfold well_formed. apply forallb_forall. intros [q n] Hin.
  apply list_elem_of_In, elem_of_map_to_list in Hin.
  apply forallb_forall. intros a Ha. apply list_elem_of_In in Ha.
  apply bool_decide_eq_true. by eapply H.
Qed.

Lemma ancestors_spec a q :
  a ∈ ancestors q ↔ a ≠ [] ∧ ∃ r, r ≠ [] ∧ q = a ++ r.
Proof.
  split.
  - unfold ancestors. intros Ha. apply list_elem_of_fmap in Ha as (k & -> & Hk).
    apply elem_of_seq in Hk. split.
    + destruct q; simpl in *; [lia|]. destruct k; [lia|done].
    + exists (drop k q). split; [|by rewrite take_drop].
      intros Hd. apply (f_equal length) in Hd. rewrite length_drop in Hd.
      simpl in Hd. lia.
  - intros (Ha & r & Hr & ->). by apply elem_of_ancestors.
Qed.

Lemma well_formed_insert fs p n :
  well_formed fs →
  (∀ a, a ∈ ancestors p → fs !! a = Some Dir) →
  n = Dir ∨ fs !! p ≠ Some Dir →
  well_formed (<[p := n]> fs).
Proof.
  intros Hwf Hanc Hn. apply well_formed_intro. intros q m a Hq Ha.
  destruct (decide (a = p)) as [->|Hap].
  - rewrite lookup_insert_eq. destruct Hn as [->|Hn]; [done|].
    destruct Hn. apply ancestors_spec in Ha as Ha'.
    destruct Ha' as (Hp & r & Hr & ->).
    rewrite lookup_insert_ne in Hq.
    + by eapply well_formed_ancestor.
    + intros Heq. apply Hr. apply (app_inv_head p). by rewrite app_nil_r.
  - rewrite lookup_insert_ne by done.
    destruct (decide (q = p)) as [->|Hqp]; [by apply Hanc|].
    rewrite lookup_insert_ne in Hq by done. by eapply well_formed_ancestor.
Qed.

Lemma ancestors_of_parent fs p :
  well_formed fs → is_directory fs (parent_path p) = true →
  ∀ a, a ∈ ancestors p → fs !! a = Some Dir.
Proof.
  intros Hwf Hd a Ha. apply ancestors_spec in Ha as (Ha & r & Hr & ->).
  unfold parent_path in Hd. rewrite removelast_app in Hd by done.
  unfold is_directory in Hd. rewrite node_at_app in Hd by done.
  destruct (fs !! (a ++ removelast r)) as [[c|]|] eqn:E; try done.
  destruct (decide (removelast r = [])) as [Hl|Hl].
  - by rewrite Hl, app_nil_r in E.
  - by eapply well_formed_directory.
Qed.

Lemma ancestors_of_entry fs p n :
  well_formed fs → fs !! p = Some n → ∀ a, a ∈ ancestors p → fs !! a = Some Dir.
Proof. intros Hwf Hp a Ha. by eapply well_formed_ancestor. Qed.

Lemma well_formed_delete fs p :
  well_formed fs → (∀ r, r ≠ [] → fs !! (p ++ r) = None) →
  well_formed (delete p fs).
Proof.
  intros Hwf Hc. apply well_formed_intro. intros q m a Hq Ha.
  apply lookup_delete_Some in Hq as [Hqp Hq].
  rewrite lookup_delete_ne.
  - by eapply well_formed_ancestor.
  - intros <-. apply ancestors_spec in Ha as (_ & r & Hr & ->).
    by rewrite Hc in Hq.
Qed.

Lemma well_formed_leaf fs p :
  well_formed fs → p ≠ [] → fs !! p ≠ Some Dir →
  ∀ r, r ≠ [] → fs !! (p ++ r) = None.
Proof.
  intros Hwf Hp Hnd r Hr. destruct (fs !! (p ++ r)) as [m|] eqn:E; [|done].
  destruct Hnd. by eapply well_formed_directory.
Qed.

Lemma well_formed_remove_all fs p : well_formed fs → well_formed (remove_all p fs).
Proof.
  intros Hwf. apply well_formed_intro. intros q m a Hq Ha.
  unfold remove_all in *. apply map_lookup_filter_Some in Hq as [Hq Hs].
  simpl in Hs. apply map_lookup_filter_Some. split.
  - by eapply well_formed_ancestor.
  - simpl. apply strip_prefix_None. intros r ->.
    apply ancestors_spec in Ha as (_ & r' & _ & ->).
    rewrite strip_prefix_None in Hs. apply (Hs (r ++ r')). by rewrite app_assoc.
Qed.

Lemma well_formed_create_directories_from base p fs fs' :
  create_directories_from base p fs = Some fs' →
  well_formed fs → node_at fs base = Some Dir → well_formed fs'.
Proof.
  revert base fs. induction p as [|x p IH]; intros base fs H Hwf Hb; simpl in H.
  - by simplify_eq.
  - assert (base ++ [x] ≠ []) as Hq by (by destruct base).
    destruct (node_at fs (base ++ [x])) as [[c|]|] eqn:E; [done|by eapply IH|].
    eapply IH; [done| |by rewrite node_at_lookup, lookup_insert_eq].
    apply well_formed_insert; [done| |by left].
    apply ancestors_of_parent; [done|].
    unfold parent_path, is_directory. by rewrite removelast_last, Hb.
Qed.

Lemma well_formed_create_directories p fs fs' :
  create_directories p fs = Some fs' → well_formed fs → well_formed fs'.
Proof. intros H Hwf. by eapply well_formed_create_directories_from. Qed.

Lemma well_formed_create_directory p fs fs' :
  create_directory p fs = Some fs' → well_formed fs → well_formed fs'.
Proof.
  unfold create_directory. intros H Hwf.
  destruct (node_at fs p) as [[c|]|]; [done|by simplify_eq|].
  destruct (is_directory fs (parent_path p)) eqn:Hd; simplify_eq.
  apply well_formed_insert; [done|by apply ancestors_of_parent|by left].
Qed.

Lemma well_formed_fs_remove p fs fs' :
  fs_remove p fs = Some fs' → well_formed fs → well_formed fs'.
Proof.
  unfold fs_remove. intros H Hwf.
  destruct (node_at fs p) as [[c|]|] eqn:E; [| |by simplify_eq].
  - simplify_eq. assert (p ≠ []) as Hp by (by intros ->).
    rewrite node_at_lookup in E by done.
    apply well_formed_delete; [done|].
    apply well_formed_leaf; [done..|]. by rewrite E.
  - destruct (has_children fs p) eqn:Hc; simplify_eq.
    apply well_formed_delete; [done|]. by apply has_children_false.
Qed.

Lemma well_formed_copy_file ow src dst fs fs' :
  copy_file ow src dst fs = Some fs' → well_formed fs → well_formed fs'.
Proof.
  unfold copy_file. intros H Hwf.
  destruct (node_at fs src) as [[c|]|]; try done.
  destruct (node_at fs dst) as [[c'|]|] eqn:E; [|done|].
  - destruct (ow && negb (bool_decide (src = dst))); simplify_eq.
    assert (dst ≠ []) as Hp by (by intros ->).
    rewrite node_at_lookup in E by done.
    apply well_formed_insert; [done|by eapply ancestors_of_entry|].
    right. by rewrite E.
  - destruct (is_directory fs (parent_path dst)) eqn:Hd; simplify_eq.
    apply well_formed_insert; [done|by apply ancestors_of_parent|].
    right. destruct dst; [done|]. simpl in E. by rewrite E.
Qed.

Lemma well_formed_open p c fs :
  ofstream_opens fs p = true → well_formed fs →
  well_formed (<[p := File c]> fs).
Proof.
  unfold ofstream_opens. intros H Hwf.
  apply andb_true_iff in H as [Hnd Hd].
  apply well_formed_insert; [done|by apply ancestors_of_parent|].
  right. unfold is_directory in Hnd. destruct p; [done|]. simpl in Hnd.
  intros Hl. by rewrite Hl in Hnd.
Qed.

Lemma well_formed_write_file p c fs :
  well_formed fs → well_formed (write_file p c fs).
Proof.
  intros Hwf. unfold write_file.
  destruct (ofstream_opens fs p) eqn:E; [by apply well_formed_open|done].
Qed.

Lemma well_formed_for_each {A} (body : A → filesystem → option filesystem)
    (l : list A) fs fs' :
  (∀ x fs1 fs2, body x fs1 = Some fs2 → well_formed fs1 → well_formed fs2) →
  for_each body l fs = Some fs' → well_formed fs → well_formed fs'.
Proof.
  intros Hbody. revert fs. induction l as [|x l IH]; intros fs H Hwf; simpl in H.
  - by simplify_eq.
  - destruct (body x fs) as [fs1|] eqn:E; simpl in H; [|done].
    eapply IH; [done|]. by eapply Hbody.
Qed.

Lemma well_formed_for_eachM {A} (body : A → M unit) (l : list A) st st' :
  (∀ x st1 st2, body x st1 = Some (tt, st2) →
     well_formed (files st1) → well_formed (files st2)) →
  for_eachM body l st = Some (tt, st') →
  well_formed (files st) → well_formed (files st').
Proof.
  intros Hbody. revert st. induction l as [|x l IH]; intros st H Hwf; simpl in H.
  - unfold ret in H. by simplify_eq.
  - unfold bind in H. destruct (body x st) as [[[] st1]|] eqn:E; [|done].
    eapply IH; [done|]. by eapply Hbody.
Qed.

Lemma well_formed_install src dst fs fs' :
  install src dst fs = Some fs' → well_formed fs → well_formed fs'.
Proof.
  unfold install. intros H Hwf.
  destruct (create_directories (parent_path dst) fs) as [fs1|] eqn:E1;
    simpl in H; [|done].
  apply well_formed_create_directories in E1; [|done].
  match type of H with (?rm ≫= _) = _ => destruct rm as [fs2|] eqn:E2 end;
    simpl in H; [|done].
  eapply well_formed_copy_file; [done|].
  destruct (fs_exists fs1 dst); [by eapply well_formed_fs_remove|by simplify_eq].
Qed.

Lemma well_formed_copy_tree from to fs fs' :
  copy_tree from to fs = Some fs' → well_formed fs → well_formed fs'.
Proof.
  unfold copy_tree, copy_entries. intros H Hwf.
  destruct (recursive_directory_iterator fs from) as [es|]; simpl in H; [|done].
  eapply well_formed_for_each; [|done..].
  intros e fs1 fs2 Hb Hwf1. simpl in Hb.
  destruct (is_regular_file fs1 (from ++ e.1));
    [by eapply well_formed_install|by simplify_eq].
Qed.

Lemma well_formed_createCommit id parent msg now fs fs' :
  createCommit id parent msg now fs = Some fs' → well_formed fs → well_formed fs'.
Proof.
  unfold createCommit. intros H Hwf.
  destruct (create_directories (dataPath id) fs) as [fsA|] eqn:EA; simpl in H; [|done].
  apply well_formed_create_directories in EA; [|done].
  match type of H with (?inh ≫= _) = _ => destruct inh as [fsB|] eqn:EB end;
    simpl in H; [|done].
  assert (well_formed fsB) as HB.
  { destruct (negb (bool_decide (parent = ""))); [|by simplify_eq].
    destruct (fs_exists fsA (dataPath parent));
      [by eapply well_formed_copy_tree|by simplify_eq]. }
  match type of H with (?ovl ≫= _) = _ => destruct ovl as [fsC|] eqn:EC end;
    simpl in H; [|done].
  assert (well_formed fsC) as HC.
  { destruct (fs_exists fsB staging);
      [by eapply well_formed_copy_tree|by simplify_eq]. }
  destruct (ofstream_opens fsC (commitInfoPath id)) eqn:Eo; [|done].
  injection H as <-. by apply well_formed_open.
Qed.

Lemma well_formed_addOnTail rnd now msg fs fs' :
  addOnTail rnd now msg fs = Some fs' → well_formed fs → well_formed fs'.
Proof.
  unfold addOnTail. intros H Hwf.
  destruct (createCommit _ _ _ _ fs) as [fs1|] eqn:E; simpl in H; [|done].
  injection H as <-. apply well_formed_write_file.
  by eapply well_formed_createCommit.
Qed.

Lemma well_formed_clearStagingArea fs fs' :
  clearStagingArea fs = Some fs' → well_formed fs → well_formed fs'.
Proof.
  unfold clearStagingArea. intros H Hwf.
  destruct (fs_exists fs staging); [|by simplify_eq].
  eapply well_formed_create_directory; [done|]. by apply well_formed_remove_all.
Qed.

Lemma well_formed_stage rel fs fs' :
  (fs1 ← create_directories (parent_path (staging ++ rel)) fs;
   copy_file true rel (staging ++ rel) fs1) = Some fs' →
  well_formed fs → well_formed fs'.
Proof.
  intros H Hwf.
  destruct (create_directories _ fs) as [fs1|] eqn:E1; simpl in H; [|done].
  eapply well_formed_copy_file; [done|].
  by eapply well_formed_create_directories.
Qed.

Lemma well_formed_add_entry cd e fs fs' :
  add_entry cd e fs = Some fs' → well_formed fs → well_formed fs'.
Proof.
  unfold add_entry. intros H Hwf.
  destruct (isIgnored e.1); [by simplify_eq|].
  destruct (negb (is_file_node e.2)); [by simplify_eq|].
  destruct (same_as_committed fs cd e.1) as [[]|];
    cbn [mbind option_bind] in H; [| |done].
  - destruct (fs_exists fs (staging ++ e.1));
      [by eapply well_formed_fs_remove|by simplify_eq].
  - by eapply well_formed_stage.
Qed.

Lemma well_formed_add_named cd rel st st' :
  add_named cd rel st = Some (tt, st') →
  well_formed (files st) → well_formed (files st').
Proof.
  unfold add_named, bind, get_files, ret, print, try_value, fs_try.
  intros H Hwf.
  destruct (isIgnored rel); [by simplify_eq|].
  destruct (negb (fs_exists (files st) rel) || negb (is_regular_file (files st) rel));
    [by simplify_eq|].
  destruct (same_as_committed (files st) cd rel) as [[]|]; [by simplify_eq| |done].
  match type of H with
  | match ?o with _ => _ end = _ => destruct o as [fs1|] eqn:E
  end; [|done].
  simplify_eq. simpl. by eapply well_formed_stage.
Qed.

Lemma well_formed_gitAdd fs fs' :
  gitAdd fs = Some fs' → well_formed fs → well_formed fs'.
Proof.
  unfold gitAdd. intros H Hwf. eapply well_formed_for_each; [|done..].
  intros e fs1 fs2. apply well_formed_add_entry.
Qed.

Lemma well_formed_gitCommit rnd now msg st b st' :
  gitCommit rnd now msg st = Some (b, st') →
  well_formed (files st) → well_formed (files st').
Proof.
  unfold gitCommit, bind, get_files, try_value, fs_try, print, ret. intros H Hwf.
  destruct (staging_empty (files st)) as [[]|]; [by simplify_eq| |done].
  destruct (addOnTail rnd now msg (files st)) as [fs1|] eqn:E1; [|done].
  simpl in H.
  destruct (clearStagingArea fs1) as [fs2|] eqn:E2; [|done].
  simplify_eq. simpl. eapply well_formed_clearStagingArea; [done|].
  by eapply well_formed_addOnTail.
Qed.

(** X19.  Well-formedness (every entry lies in a directory), the
    precondition of the results above, is an invariant of the program:
    whatever [gitInit], [gitAdd()], [gitAdd(files, n)], [gitCommit] and
    [revertCommit] leave behind when they return is well formed again. *)
Theorem commands_keep_well_formed (st : state) :
  well_formed (files st) →
  (∀ st', gitInit st = Some (tt, st') → well_formed (files st')) ∧
  (∀ fs', gitAdd (files st) = Some fs' → well_formed fs') ∧
  (∀ names st', gitAdd_files names st = Some (tt, st') → well_formed (files st')) ∧
  (∀ rnd now msg b st',
     gitCommit rnd now msg st = Some (b, st') → well_formed (files st')) ∧
  (∀ rnd now hash b st',
     revertCommit rnd now hash st = Some (b, st') → well_formed (files st')).
Proof.
  intros Hwf. repeat split.
  - intros st' H. unfold gitInit, print in H.
    destruct (create_directories staging (files st)) as [fs1|] eqn:E1;
      [|by simplify_eq].
    apply well_formed_create_directories in E1; [|done].
    destruct (create_directories commitsRoot fs1) as [fs2|] eqn:E2;
      [|by simplify_eq].
    apply well_formed_create_directories in E2; [|done].
    simplify_eq. simpl. by apply well_formed_write_file.
  - intros fs' H. by eapply well_formed_gitAdd.
  - intros names st' H. unfold gitAdd_files, bind, get_files in H.
    eapply well_formed_for_eachM; [|done..].
    intros rel st1 st2. apply well_formed_add_named.
  - intros rnd now msg b st' H. by eapply well_formed_gitCommit.
  - intros rnd now hash b st' H.
    destruct (revertCommit_inv _ _ _ _ _ _ H) as [[_ ->]|Hr]; [done|].
    destruct Hr as (_ & msg & fsc & Hc & ->). apply well_formed_write_file.
    by eapply well_formed_createCommit.
Qed.

Lemma commands_keep_well_formed_witness :
  let st := session_saved2 in
  let st' := default st (snd <$> gitCommit rnd2 time2 "second"
                                   (default st (snd <$> gitAdd_files [["a.txt"]] st))) in
  well_formed (files st) ∧ well_formed (files st').
Proof.
  intros st st'.
  assert (well_formed (files st)) as Hwf by (vm_compute; reflexivity).
  split; [exact Hwf|].
  destruct (commands_keep_well_formed st Hwf) as (_ & _ & Hadd & _).
  destruct (gitAdd_files [["a.txt"]] st) as [[[] st1]|] eqn:Ea.
  - specialize (Hadd _ _ Ea). subst st'. change (default st (snd <$> Some ((), st1))) with st1.
    destruct (commands_keep_well_formed st1 Hadd) as (_ & _ & _ & Hcommit & _).
    destruct (gitCommit rnd2 time2 "second" st1) as [[b st2]|] eqn:Ec.
    + exact (Hcommit _ _ _ _ _ Ec).
    + exact Hwf.
  - exact Hwf.
Defined.

End more_well_formed.

(** * Adding everything, then committing *)

Section more_add_commit.
Implicit Types (fs : filesystem) (st : state) (q rel : path) (cd : option path).

(** The loop of [gitAdd()] ends normally only when every comparison does. *)
Lemma add_loop_compares fs cd es fs1 fs' :
  cd = None ∨ (∃ id, cd = Some (dataPath id)) →
  (∀ e, e ∈ es → fs !! e.1 = Some e.2 ∧ e.1 ≠ []) →
  (∀ q, off_staging q → fs1 !! q = fs !! q) →
  for_each (add_entry cd) es fs1 = Some fs' →
  ∀ rel c, (rel, File c) ∈ es → isIgnored rel = false →
    same_as_committed fs cd rel ≠ None.
Proof.
  intros Hcd. revert fs1.
  induction es as [|e0 es IH]; intros fs1 Hes Hoff H rel c Hin Hign.
  { by apply elem_of_nil in Hin. }
  simpl in H. destruct (add_entry cd e0 fs1) as [fs2|] eqn:E0; simpl in H; [|done].
  apply elem_of_cons in Hin as [<-|Hin].
  - destruct (Hes (rel, File c) (list_elem_of_here _ _)) as [Hl Hne].
    simpl in Hl, Hne.
    rewrite <- (same_as_committed_ext fs fs1 cd rel).
    + unfold add_entry in E0. cbn [fst snd is_file_node negb] in E0.
      rewrite Hign in E0. intros Hn. by rewrite Hn in E0.
    + done.
    + by apply Hoff, off_staging_working.
    + intros d Hd. destruct Hcd as [->|[id ->]]; [done|]. injection Hd as <-.
      split; [done|]. apply Hoff, off_staging_data.
  - eapply (IH fs2); [| |done..].
    + intros e He. apply Hes. by right.
    + intros q Hq. rewrite <- (Hoff q Hq).
      apply (add_entry_frame _ _ _ _ _ E0). intros r. apply Hq.
Qed.

(** With a head file whose first line has no blank, [getHEAD] and the
    parent [addOnTail] reads agree. *)
Lemma committedData_head_parent fs d :
  no_space (default "" (getline_file fs HEAD)) = true →
  committedData fs = Some d →
  head_parent fs ≠ "" ∧ d = dataPath (head_parent fs) ∧ getHEAD fs = head_parent fs.
Proof.
  unfold committedData, head_parent, getHEAD. intros Hs H.
  destruct (getline_file fs HEAD) as [h|]; cbn [default from_option id] in *.
  - rewrite trim_no_space by done. rewrite remove_spaces_no_space in * by done.
    repeat case_bool_decide; simplify_eq; done.
  - by rewrite bool_decide_eq_true_2 in H.
Qed.

(** What the snapshot of a new commit holds. *)
Lemma createCommit_snapshot (id parent msg now : string) fs fs' :
  well_formed fs →
  createCommit id parent msg now fs = Some fs' →
  (∀ rel c, fs !! (staging ++ rel) = Some (File c) →
            fs' !! (dataPath id ++ rel) = Some (File c)) ∧
  (parent ≠ "" →
   ∀ rel c, fs !! (dataPath parent ++ rel) = Some (File c) →
            is_regular_file fs (staging ++ rel) = false →
            fs' !! (dataPath id ++ rel) = Some (File c)).
Proof.
  intros Hwf H. unfold createCommit in H.
  destruct (create_directories (dataPath id) fs) as [fsA|] eqn:EA; simpl in H; [|done].
  pose proof (create_directories_kept _ _ _ EA) as KA.
  match type of H with (?inh ≫= _) = _ => destruct inh as [fsB|] eqn:EB end;
    simpl in H; [|done].
  match type of H with (?ovl ≫= _) = _ => destruct ovl as [fsC|] eqn:EC end;
    simpl in H; [|done].
  destruct (ofstream_opens fsC (commitInfoPath id)); [|done].
  injection H as <-.
  assert (∀ q, (∀ r, q ≠ dataPath id ++ r) → kept_or_mkdir fsA fsB q) as KB.
  { intros q Hq. destruct (negb (bool_decide (parent = ""))).
    - destruct (fs_exists fsA (dataPath parent)).
      + by eapply copy_tree_frame; [apply dataPath_nonempty|..].
      + simplify_eq. apply kept_or_mkdir_refl.
    - simplify_eq. apply kept_or_mkdir_refl. }
  assert (∀ rel, kept_or_mkdir fs fsB (staging ++ rel)) as KS.
  { intros rel. eapply kept_or_mkdir_trans; [apply KA|].
    apply KB. intros r. apply independent_staging_data. }
  split.
  - intros rel c Hs.
    rewrite lookup_insert_ne by apply commitInfoPath_not_data.
    pose proof (kept_or_mkdir_file _ _ _ _ (KS rel) Hs) as HsB.
    destruct (decide (rel = [])) as [->|Hrel].
    + rewrite app_nil_r in HsB. unfold fs_exists in EC.
      rewrite node_at_lookup, HsB in EC by done.
      apply copy_tree_needs_directory in EC.
      rewrite node_at_lookup in EC by done. congruence.
    + assert (fsB !! staging = Some Dir) as Hdir.
      { specialize (KS []). rewrite app_nil_r in KS.
        apply (kept_or_mkdir_dir _ _ _ KS).
        by eapply well_formed_directory. }
      unfold fs_exists in EC. rewrite node_at_lookup, Hdir in EC by done.
      eapply copy_tree_copies;
        [apply independent_staging_data|apply dataPath_nonempty|done..].
  - intros Hparent rel c Hp Hns.
    rewrite lookup_insert_ne by apply commitInfoPath_not_data.
    pose proof (kept_or_mkdir_file _ _ _ _ (KA _) Hp) as HpA.
    rewrite bool_decide_eq_false_2 in EB by done. simpl in EB.
    assert (fsB !! (dataPath id ++ rel) = Some (File c)) as HB.
    { destruct (decide (rel = [])) as [->|Hrel].
      - rewrite app_nil_r in HpA. unfold fs_exists in EB.
        rewrite node_at_lookup, HpA in EB by done.
        apply copy_tree_needs_directory in EB.
        rewrite node_at_lookup in EB by done. congruence.
      - assert (fsA !! dataPath parent = Some Dir) as Hdir.
        { apply (kept_or_mkdir_dir _ _ _ (KA _)).
          by eapply well_formed_directory. }
        unfold fs_exists in EB. rewrite node_at_lookup, Hdir in EB by done.
        destruct (decide (parent = id)) as [->|Hne].
        + apply (copy_tree_self _ _ _ rel) in EB; [|done].
          assert (is_regular_file fsA (dataPath id ++ rel) = true) as Ht
            by (apply is_regular_file_lookup; by exists c).
          congruence.
        + eapply copy_tree_copies;
            [by apply independent_data|apply dataPath_nonempty|done..]. }
    destruct (fs_exists fsB staging); [|by simplify_eq].
    eapply copy_tree_keeps;
      [apply independent_staging_data|apply dataPath_nonempty|done..|].
    intros r Hreg Heq. apply app_inv_head in Heq. subst r.
    apply is_regular_file_lookup in Hreg as (c' & _ & Hl).
    pose proof (kept_or_mkdir_file_inv _ _ _ _ (KS rel) Hl) as Hl0.
    assert (is_regular_file fs (staging ++ rel) = true) as Ht
      by (apply is_regular_file_lookup; by exists c').
    congruence.
Qed.

(** After a commit the staging directory exists and is empty. *)
Lemma gitCommit_true_staging rnd now msg st st' :
  gitCommit rnd now msg st = Some (true, st') →
  files st' !! staging = Some Dir ∧
  ∀ rel, rel ≠ [] → files st' !! (staging ++ rel) = None.
Proof.
  unfold gitCommit, bind, get_files, try_value, fs_try, print, ret. intros H.
  destruct (staging_empty (files st)) as [[|]|] eqn:Eempty; simpl in H; try done.
  apply staging_empty_false in Eempty as [Hstaging _].
  destruct (addOnTail rnd now msg (files st)) as [fs1|] eqn:Etail; simpl in H; [|done].
  destruct (clearStagingArea fs1) as [fs2|] eqn:Eclear; simpl in H; [|done].
  injection H as <-. simpl. unfold clearStagingArea in Eclear.
  assert (fs_exists fs1 staging = true) as Hex.
  { unfold addOnTail in Etail.
    destruct (createCommit _ _ _ _ (files st)) as [fsc|] eqn:Ecommit;
      simpl in Etail; [|done].
    injection Etail as <-.
    pose proof (createCommit_untouched _ _ _ _ _ _ staging Ecommit) as HS.
    rewrite <- (app_nil_r staging) in HS at 1 2.
    specialize (HS (outside_commit_staging _ [])). rewrite app_nil_r in HS.
    unfold fs_exists in *. rewrite node_at_lookup in * by done.
    rewrite write_file_other by done. by rewrite HS. }
  rewrite Hex in Eclear.
  apply create_directory_spec in Eclear as [Hs Ho]; [|done].
  split; [done|].
  intros rel Hrel. rewrite Ho; [exact (remove_all_lookup_below staging rel fs1)|].
  intros Heq. apply Hrel. apply (app_inv_head staging). by rewrite app_nil_r.
Qed.

Lemma gitCommit_false_inv rnd now msg st st' :
  gitCommit rnd now msg st = Some (false, st') →
  files st' = files st ∧ staging_empty (files st) = Some true.
Proof.
  unfold gitCommit, bind, get_files, try_value, fs_try, print, ret. intros H.
  destruct (staging_empty (files st)) as [[|]|]; simpl in H; [by simplify_eq| |done].
  destruct (addOnTail rnd now msg (files st)) as [fs1|]; simpl in H; [|done].
  destruct (clearStagingArea fs1) as [fs2|]; simpl in H; done.
Qed.

Lemma staging_empty_true_inv fs :
  well_formed fs → staging_empty fs = Some true →
  ∀ rel, is_regular_file fs (staging ++ rel) = false.
Proof.
  unfold staging_empty, fs_exists, recursive_directory_iterator.
  intros Hwf H rel.
  destruct (is_regular_file fs (staging ++ rel)) eqn:Hreg; [exfalso|done].
  apply is_regular_file_lookup in Hreg as (c & _ & Hl).
  destruct (decide (rel = [])) as [->|Hrel].
  - rewrite app_nil_r in Hl. rewrite node_at_lookup, Hl in H by done. done.
  - rewrite node_at_lookup in H by done.
    rewrite (well_formed_directory fs staging rel _ Hwf ltac:(done) Hrel Hl) in H.
    simpl in H. injection H as H. rewrite forallb_forall in H.
    specialize (H (rel, File c)). simpl in H. discriminate H.
    by apply list_elem_of_In, elem_of_entries_under.
Qed.

(** The loop of [gitStatus] over working files that are all committed
    unchanged and not staged finds nothing. *)
Lemma scan_working_clean fs cd es :
  (∀ rel n, (rel, n) ∈ es → is_file_node n = true → isIgnored rel = false →
     fs_exists fs (staging ++ rel) = false ∧
     ∃ d, cd = Some d ∧ fs_exists fs (d ++ rel) = true ∧
          filesAreSame fs rel (d ++ rel) = Some true) →
  scan_working fs cd es = Some ([], []).
Proof.
  induction es as [|[rel0 n0] es IH]; intros H; [done|].
  cbn [scan_working fst snd].
  rewrite IH by (intros rel n Hin; apply H; by right).
  destruct (isIgnored rel0) eqn:Hign; cbn [orb]; [done|].
  destruct (is_file_node n0) eqn:Hfile; cbn [negb]; [|done].
  destruct (H rel0 n0) as (Hst & d & -> & Hex & Hsame); [by left|done..|].
  rewrite Hst. cbn [in_commit]. by rewrite Hex, Hsame.
Qed.

Lemma clean_status fs :
  well_formed fs →
  (∀ rel, is_regular_file fs (staging ++ rel) = false) →
  (∀ rel, working_file fs rel = true →
     fs_exists fs (staging ++ rel) = false ∧
     ∃ d, committedData fs = Some d ∧ d ≠ [] ∧
          read_file fs (d ++ rel) = read_file fs rel) →
  compute_status fs = Some (Status [] [] []).
Proof.
  intros Hwf Hst Hwork. unfold compute_status.
  destruct (scan_staging_spec fs Hwf) as (s & -> & Hs).
  { specialize (Hst []). by rewrite app_nil_r in Hst. }
  assert (s = []) as ->.
  { destruct s as [|rel s]; [done|].
    assert (is_regular_file fs (staging ++ rel) = true) as Hr by (apply Hs; by left).
    by rewrite Hst in Hr. }
  cbn [mbind option_bind].
  rewrite scan_working_clean; [done|].
  intros rel n Hin Hn Hign.
  assert (working_file fs rel = true) as Hw
    by (apply working_file_walk; by exists n).
  destruct (Hwork rel Hw) as (Hns & d & Hcd & Hd & Hread). split; [done|].
  exists d. split; [done|].
  apply elem_of_walk in Hin as (Hne & Hl & _).
  destruct n as [c|]; [|done].
  assert (read_file fs rel = Some (File c) ≫= λ _, Some c) as Hrel.
  { unfold read_file. by rewrite node_at_lookup, Hl. }
  simpl in Hrel. rewrite Hrel in Hread. split.
  - unfold fs_exists. unfold read_file in Hread.
    by destruct (node_at fs (d ++ rel)).
  - rewrite (filesAreSame_regular fs rel (d ++ rel) c c) by done.
    by rewrite bool_decide_eq_true_2.
Qed.

Lemma working_path rel :
  rel ≠ [] → isIgnored rel = false → ∃ x r, rel = x :: r ∧ x ≠ ".git".
Proof.
  intros Hne Hign. destruct rel as [|x r]; [done|]. exists x, r. split; [done|].
  intros ->. rewrite reserved_isIgnored in Hign; [done|]. left. by eexists.
Qed.

Lemma working_file_ext fs fs' :
  (∀ rel, rel ≠ [] → isIgnored rel = false → fs' !! rel = fs !! rel) →
  ∀ rel, working_file fs' rel = working_file fs rel.
Proof.
  intros H rel. unfold working_file.
  destruct (isIgnored rel) eqn:Hign; [by rewrite !andb_false_r|].
  destruct rel as [|x r]; [done|].
  by rewrite (is_regular_file_ext fs fs') by by apply H.
Qed.

(** What [gitAdd()] followed by [gitCommit] leaves behind. *)
Lemma add_commit_state fs fs1 rnd now msg out b st2 :
  well_formed fs →
  is_directory fs HEAD = false →
  no_space (default "" (getline_file fs HEAD)) = true →
  gitAdd fs = Some fs1 →
  gitCommit rnd now msg (State fs1 out) = Some (b, st2) →
  well_formed (files st2) ∧
  (∀ rel, is_regular_file (files st2) (staging ++ rel) = false) ∧
  (∀ rel, rel ≠ [] → isIgnored rel = false → files st2 !! rel = fs !! rel) ∧
  (∀ rel c, working_file fs rel = true → fs !! rel = Some (File c) →
     files st2 !! (staging ++ rel) = None ∧
     committedData (files st2) = Some (dataPath (getHEAD (files st2))) ∧
     files st2 !! (dataPath (getHEAD (files st2)) ++ rel) = Some (File c)).
Proof.
  intros Hwf Hhead Hsp Ha Hc.
  pose proof (well_formed_gitAdd _ _ Ha Hwf) as Hwf1.
  pose proof (well_formed_gitCommit _ _ _ _ _ _ Hc Hwf1) as Hwf2.
  pose proof Ha as Ha'. unfold gitAdd in Ha'.
  assert (∀ e, e ∈ walk isIgnored fs → fs !! e.1 = Some e.2 ∧ e.1 ≠ []) as Hes.
  { intros [rel n] Hin. apply elem_of_walk in Hin as (? & ? & _). done. }
  destruct (add_loop_spec fs (committedData fs) (walk isIgnored fs) fs fs1 Hwf)
    as [Hframe Hres]; [apply committedData_cases|done..|].
  pose proof (add_loop_compares fs (committedData fs) (walk isIgnored fs) fs fs1
                (committedData_cases fs) Hes ltac:(done) Ha') as Hcmp.
  (* what the add leaves for a working file *)
  assert (∀ rel c, working_file fs rel = true → fs !! rel = Some (File c) →
            rel ≠ [] ∧ isIgnored rel = false ∧
            (fs1 !! (staging ++ rel) = Some (File c) ∨
             fs1 !! (staging ++ rel) = None ∧
             committedData fs = Some (dataPath (head_parent fs)) ∧
             head_parent fs ≠ "" ∧ getHEAD fs = head_parent fs ∧
             fs1 !! (dataPath (head_parent fs) ++ rel) = Some (File c))) as Hadd.
  { intros rel c Hw Hl.
    apply working_file_walk in Hw as (n & Hin & Hn & Hign).
    pose proof Hin as Hin'. apply elem_of_walk in Hin' as (Hne & Hl' & _).
    assert (n = File c) as -> by congruence.
    split; [done|split; [done|]].
    destruct (Hres rel c Hin Hign) as [Hsame Hdiff].
    specialize (Hcmp rel c Hin Hign).
    destruct (same_as_committed fs (committedData fs) rel) as [[|]|] eqn:Es;
      [right|left; by apply Hdiff|done].
    split; [by apply Hsame|].
    unfold same_as_committed in Es.
    destruct (committedData fs) as [d|] eqn:Ecd; [|done].
    destruct (committedData_head_parent fs d Hsp Ecd) as (Hp & -> & Hg).
    split; [done|split; [done|split; [done|]]].
    rewrite Hframe by apply off_staging_data.
    destruct (fs_exists fs (dataPath (head_parent fs) ++ rel)); [|done].
    apply filesAreSame_true in Es as (c' & Hr1 & Hr2).
    unfold read_file in Hr1, Hr2.
    rewrite node_at_lookup, Hl in Hr1 by done. injection Hr1 as <-.
    rewrite node_at_app in Hr2 by done.
    by destruct (fs !! (dataPath (head_parent fs) ++ rel)) as [[?|]|]; simplify_eq. }
  assert (fs1 !! HEAD = fs !! HEAD) as HH1 by apply Hframe, off_staging_HEAD.
  destruct b.
  - (* a commit was created *)
    assert (is_directory fs1 HEAD = false) as Hhead1.
    { unfold is_directory in *. rewrite node_at_lookup in * by done.
      by rewrite HH1. }
    destruct (gitCommit_true_files rnd now msg (State fs1 out) st2 Hhead1 Hc)
      as (fsc & Hcc & HH2 & Hfr).
    destruct (gitCommit_true_staging _ _ _ _ _ Hc) as [Hsdir Hempty].
    cbn [files] in Hcc.
    assert (getHEAD (files st2) = gen_random rnd 8) as Hg2.
    { apply getHEAD_written;
        [done|apply gen_random_nonempty|apply gen_random_no_space]. }
    assert (head_parent fs1 = head_parent fs) as Hpar.
    { unfold head_parent, getline_file, read_file.
      rewrite !node_at_lookup by done. by rewrite HH1. }
    rewrite Hpar in Hcc.
    destruct (createCommit_snapshot _ _ _ _ _ _ Hwf1 Hcc) as [Hovl Hinh].
    split; [done|]. split; [|split].
    + intros rel. unfold is_regular_file. rewrite node_at_app by done.
      destruct (decide (rel = [])) as [->|Hrel]; [|by rewrite Hempty].
      by rewrite app_nil_r, Hsdir.
    + intros rel Hne Hign.
      destruct (working_path rel Hne Hign) as (x & r & -> & Hx).
      rewrite Hfr; [|by intros [=]|by intros r' [=]].
      rewrite (createCommit_untouched _ _ _ _ _ _ _ Hcc)
        by by apply outside_commit_working.
      by apply Hframe, off_staging_working.
    + intros rel c Hw Hl.
      destruct (Hadd rel c Hw Hl) as (Hne & Hign & Hcase).
      split; [by apply Hempty|]. rewrite Hg2. split.
      { unfold committedData. rewrite Hg2.
        rewrite bool_decide_eq_false_2; [done|apply gen_random_not_NULL]. }
      rewrite Hfr; [|by intros [=]|by intros r' [=]].
      destruct Hcase as [Hst|(Hst & _ & Hp & _ & Hd)].
      * by apply Hovl.
      * apply Hinh; [done..|]. unfold is_regular_file.
        rewrite node_at_app by done. by rewrite Hst.
  - (* nothing was staged *)
    apply gitCommit_false_inv in Hc as [Hf Hempty]. cbn [files] in Hf, Hempty.
    rewrite Hf in *.
    pose proof (staging_empty_true_inv fs1 Hwf1 Hempty) as Hnone.
    split; [done|]. split; [done|]. split.
    + intros rel Hne Hign. by apply Hframe, off_staging_working.
    + intros rel c Hw Hl.
      destruct (Hadd rel c Hw Hl) as (Hne & Hign & Hcase).
      destruct Hcase as [Hst|(Hst & Hcd & Hp & Hg & Hd)].
      { specialize (Hnone rel). unfold is_regular_file in Hnone.
        rewrite node_at_app in Hnone by done. by rewrite Hst in Hnone. }
      assert (getHEAD fs1 = getHEAD fs) as Hg1.
      { unfold getHEAD, getline_file, read_file.
        rewrite !node_at_lookup by done. by rewrite HH1. }
      rewrite (committedData_ext fs fs1 HH1), Hg1, Hg. done.
Qed.

(** X20.  [gitAdd()] followed by [gitCommit], on a well-formed repository
    whose head file is not a directory and has no blank in its first line
    (as every head the program writes): whatever [gitCommit] returns,
    every working file is left as it was, the snapshot of the head commit
    holds it with the same bytes, and [gitStatus] then finds nothing
    staged, modified or untracked and reports a clean working tree. *)
Theorem add_all_then_commit_is_clean
    (fs fs1 : filesystem) (rnd : nat → nat) (now msg : string)
    (out : list string) (b : bool) (st2 : state) :
  well_formed fs →
  is_directory fs HEAD = false →
  no_space (default "" (getline_file fs HEAD)) = true →
  gitAdd fs = Some fs1 →
  gitCommit rnd now msg (State fs1 out) = Some (b, st2) →
  (∀ rel, working_file fs rel = true →
     read_file (files st2) rel = read_file fs rel ∧
     read_file (files st2) (dataPath (getHEAD (files st2)) ++ rel) = read_file fs rel) ∧
  gitStatus st2 =
    Some (Status [] [] [],
          State (files st2)
                (console st2 ++ ["Nothing to commit, working tree clean."])).
Proof.
  intros Hwf Hhead Hsp Ha Hc.
  destruct (add_commit_state fs fs1 rnd now msg out b st2 Hwf Hhead Hsp Ha Hc)
    as (Hwf2 & Hns & Hwt & Hsnap).
  assert (∀ rel, working_file fs rel = true →
            ∃ c, rel ≠ [] ∧ fs !! rel = Some (File c) ∧
                 files st2 !! rel = Some (File c)) as Hfile.
  { intros rel Hw. pose proof Hw as Hw'. unfold working_file in Hw'.
    rewrite !andb_true_iff, negb_true_iff, is_regular_file_lookup in Hw'.
    destruct Hw' as [[(c & Hne & Hl) Hign] _]. exists c.
    split; [done|split; [done|]]. by rewrite Hwt. }
  split.
  - intros rel Hw. destruct (Hfile rel Hw) as (c & Hne & Hl & Hl2).
    destruct (Hsnap rel c Hw Hl) as (_ & _ & Hd).
    unfold read_file. rewrite node_at_app by done.
    rewrite !node_at_lookup by done. by rewrite Hl, Hl2, Hd.
  - unfold gitStatus, bind, get_files, try_value.
    rewrite (clean_status (files st2) Hwf2 Hns).
    + rewrite for_eachM_print. done.
    + intros rel Hw. rewrite (working_file_ext fs (files st2) Hwt) in Hw.
      destruct (Hfile rel Hw) as (c & Hne & Hl & Hl2).
      destruct (Hsnap rel c Hw Hl) as (Hst & Hcd & Hd). split.
      * unfold fs_exists. rewrite node_at_app by done. by rewrite Hst.
      * eexists. split; [exact Hcd|]. split; [done|].
        unfold read_file. rewrite node_at_app by done.
        rewrite node_at_lookup by done. by rewrite Hl2, Hd.
Qed.

Lemma add_all_then_commit_is_clean_witness :
  let fs := files session_gitignore in
  let fs1 := default ∅ (gitAdd fs) in
  let st1 := State fs1 [] in
  let st2 := default st1 (snd <$> gitCommit rnd2 time2 "second" st1) in
  gitCommit rnd2 time2 "second" st1 = Some (true, st2) ∧
  read_file (files st2) (dataPath (getHEAD (files st2)) ++ ["a.txt"]) =
    read_file fs ["a.txt"] ∧
  gitStatus st2 =
    Some (Status [] [] [],
          State (files st2)
                (console st2 ++ ["Nothing to commit, working tree clean."])).
Proof.
  intros fs fs1 st1 st2.
  assert (well_formed fs) as Hwf by (vm_compute; reflexivity).
  assert (is_directory fs HEAD = false) as Hhead by (vm_compute; reflexivity).
  assert (no_space (default "" (getline_file fs HEAD)) = true) as Hsp
    by (vm_compute; reflexivity).
  assert (gitAdd fs = Some fs1) as Ha
    by (apply completes_Some; vm_compute; reflexivity).
  assert (gitCommit rnd2 time2 "second" st1 = Some (true, st2)) as Hc
    by (apply result_true; vm_compute; reflexivity).
  destruct (add_all_then_commit_is_clean fs fs1 rnd2 time2 "second" [] true st2
              Hwf Hhead Hsp Ha Hc) as [Hsnap Hstatus].
  split; [exact Hc|split; [|exact Hstatus]].
  apply (Hsnap ["a.txt"]). vm_compute. reflexivity.
Defined.

End more_add_commit.

(** * The head file and its readers *)

Section more_head.
Implicit Types (fs : filesystem) (st : state) (s : string).

Lemma remove_spaces_clean s : no_space (remove_spaces s) = true.
Proof.
  unfold no_space. induction s as [|c s IH]; simpl; [done|].
  destruct (isspace c) eqn:E; simpl; [done|]. by rewrite E.
Qed.

(** X21.  [getHEAD] never returns an empty string or one with white space
    in it; it returns [NULL] when [.git/HEAD] is not a regular file; and
    when the first line of the head file has no blank it agrees with the
    parent [addOnTail] reads from the same file, [NULL] standing for no
    parent. *)
Theorem getHEAD_reads_an_identifier (fs : filesystem) :
  getHEAD fs ≠ "" ∧
  no_space (getHEAD fs) = true ∧
  (is_regular_file fs HEAD = false → getHEAD fs = "NULL") ∧
  (no_space (default "" (getline_file fs HEAD)) = true →
   getHEAD fs = if bool_decide (head_parent fs = "") then "NULL" else head_parent fs).
Proof.
  unfold getHEAD, head_parent. repeat split.
  - destruct (getline_file fs HEAD) as [h|]; [|done]. cbn zeta.
    by case_bool_decide.
  - destruct (getline_file fs HEAD) as [h|]; [|done]. cbn zeta.
    case_bool_decide; [done|apply remove_spaces_clean].
  - intros Hreg. unfold getline_file, read_file. unfold is_regular_file in Hreg.
    by destruct (node_at fs HEAD) as [[c|]|].
  - intros Hs.
    destruct (getline_file fs HEAD) as [h|]; cbn [default from_option id] in *;
      [|done].
    cbn zeta. rewrite trim_no_space, remove_spaces_no_space by done.
    repeat case_bool_decide; simplify_eq; done.
Qed.

(** X22.  The reference [HEAD] is an alias of the commit the head file
    names: when [.git/HEAD] is a regular file whose trimmed first line is
    neither empty nor [NULL], [revertCommit("HEAD")] does exactly what
    [revertCommit] does on that identifier. *)
Theorem revertCommit_HEAD_is_the_head_commit
    (rnd : nat → nat) (now : string) (st : state) :
  is_regular_file (files st) HEAD = true →
  trim (default "" (getline_file (files st) HEAD)) ≠ "" →
  trim (default "" (getline_file (files st) HEAD)) ≠ "NULL" →
  revertCommit rnd now "HEAD" st =
  revertCommit rnd now (trim (default "" (getline_file (files st) HEAD))) st.
Proof.
  intros Hreg Hne Hnull. unfold revertCommit, bind, get_files.
  assert (resolve_target "HEAD" (files st) =
          inr (trim (default "" (getline_file (files st) HEAD)))) as Hr.
  { unfold resolve_target. rewrite bool_decide_eq_true_2 by done.
    rewrite Hreg. cbn [negb]. cbn zeta.
    by rewrite !bool_decide_eq_false_2 by done. }
  rewrite Hr.
  destruct (decide (trim (default "" (getline_file (files st) HEAD)) = "HEAD"))
    as [Heq|Hneq].
  - rewrite Heq in *. by rewrite Hr.
  - unfold resolve_target. by rewrite bool_decide_eq_false_2 by done.
Qed.

Lemma revertCommit_HEAD_is_the_head_commit_witness :
  is_regular_file (files session_commit2) HEAD = true ∧
  trim (default "" (getline_file (files session_commit2) HEAD)) = id2 ∧
  revertCommit rnd3 time3 "HEAD" session_commit2 =
  revertCommit rnd3 time3 (trim (default "" (getline_file (files session_commit2) HEAD)))
               session_commit2.
Proof.
  assert (trim (default "" (getline_file (files session_commit2) HEAD)) = id2) as Hh
    by (vm_compute; reflexivity).
  split; [vm_compute; reflexivity|split; [exact Hh|]].
  apply revertCommit_HEAD_is_the_head_commit.
  - vm_compute. reflexivity.
  - rewrite Hh. discriminate.
  - rewrite Hh. discriminate.
Defined.

End more_head.

(** * Running [gitAdd()] twice *)

Section more_idempotent.
Implicit Types (fs : filesystem) (p q rel : path) (cd : option path).

(** [create_directories] on a path whose components are all directories
    changes nothing. *)
Lemma create_directories_from_present base p fs :
  (∀ k, 0 < k ≤ length p → node_at fs (base ++ take k p) = Some Dir) →
  create_directories_from base p fs = Some fs.
Proof.
  revert base. induction p as [|x p IH]; intros base H; simpl; [done|].
  pose proof (H 1 ltac:(simpl; lia)) as H1. simpl in H1. rewrite take_0 in H1.
  rewrite H1. apply IH. intros k Hk.
  specialize (H (S k) ltac:(simpl; lia)). simpl in H.
  by rewrite <- app_assoc.
Qed.

Lemma create_directories_parent_present fs p n :
  well_formed fs → fs !! p = Some n →
  create_directories (parent_path p) fs = Some fs.
Proof.
  intros Hwf Hp. apply create_directories_from_present. intros k Hk. simpl.
  destruct (exists_last (l := p)) as (p' & x & ->).
  { intros ->. unfold parent_path in Hk. simpl in Hk. lia. }
  unfold parent_path in *. rewrite removelast_last in *.
  rewrite node_at_lookup by (destruct p'; [simpl in Hk; lia|by destruct k; [lia|]]).
  eapply well_formed_ancestor; [done..|].
  apply ancestors_spec. split.
  - destruct p'; [simpl in Hk; lia|]. destruct k; [lia|done].
  - exists (drop k p' ++ [x]). split; [by destruct (drop k p')|].
    by rewrite app_assoc, take_drop.
Qed.

(** X23.  [gitAdd()] is idempotent: run again on the state it has left,
    with nothing edited in between, it ends normally and changes nothing. *)
Theorem gitAdd_idempotent (fs fs1 : filesystem) :
  well_formed fs →
  gitAdd fs = Some fs1 →
  gitAdd fs1 = Some fs1.
Proof.
  intros Hwf Ha.
  pose proof (well_formed_gitAdd _ _ Ha Hwf) as Hwf1.
  pose proof Ha as Ha'. unfold gitAdd in Ha'.
  assert (∀ e, e ∈ walk isIgnored fs → fs !! e.1 = Some e.2 ∧ e.1 ≠ []) as Hes.
  { intros [rel n] Hin. apply elem_of_walk in Hin as (? & ? & _). done. }
  destruct (add_loop_spec fs (committedData fs) (walk isIgnored fs) fs fs1 Hwf)
    as [Hframe Hres]; [apply committedData_cases|done..|].
  pose proof (add_loop_compares fs (committedData fs) (walk isIgnored fs) fs fs1
                (committedData_cases fs) Hes ltac:(done) Ha') as Hcmp.
  unfold gitAdd.
  rewrite (committedData_ext fs fs1 (Hframe HEAD off_staging_HEAD)).
  (* every iteration of the second run leaves [fs1] as it is *)
  assert (∀ e, e ∈ walk isIgnored fs1 →
            add_entry (committedData fs) e fs1 = Some fs1) as Hstep.
  { intros [rel n] Hin. unfold add_entry. cbn [fst snd].
    destruct (isIgnored rel) eqn:Hign; [done|].
    destruct n as [c|]; cbn [is_file_node negb]; [|done].
    apply elem_of_walk in Hin as (Hne & Hl & Hanc).
    pose proof (off_staging_working rel Hne Hign) as Hoff.
    assert ((rel, File c) ∈ walk isIgnored fs) as Hin0.
    { apply elem_of_walk. by rewrite <- (Hframe rel Hoff). }
    assert (same_as_committed fs1 (committedData fs) rel
            = same_as_committed fs (committedData fs) rel) as ->.
    { apply same_as_committed_ext; [done|by apply Hframe|].
      intros d Hd. destruct (committedData_cases fs) as [Hc|[id Hc]];
        rewrite Hc in Hd; [done|]. injection Hd as <-.
      split; [done|]. apply Hframe, off_staging_data. }
    destruct (Hres rel c Hin0 Hign) as [Hsame Hdiff].
    specialize (Hcmp rel c Hin0 Hign).
    destruct (same_as_committed fs (committedData fs) rel) as [[|]|];
      cbn [mbind option_bind]; [| |done].
    - unfold fs_exists. rewrite node_at_app by done. by rewrite Hsame.
    - specialize (Hdiff eq_refl).
      rewrite (create_directories_parent_present fs1 _ _ Hwf1 Hdiff).
      cbn [mbind option_bind]. unfold copy_file.
      rewrite node_at_lookup, Hl by done.
      rewrite node_at_app, Hdiff by done.
      rewrite bool_decide_eq_false_2.
      + cbn [andb negb]. by rewrite insert_id.
      + intros Heq. apply (f_equal length) in Heq.
        rewrite length_app in Heq. simpl in Heq. lia. }
  revert Hstep. generalize (walk isIgnored fs1).
  induction l as [|e l IH]; intros Hstep; [done|].
  simpl. rewrite Hstep by by left. simpl. apply IH.
  intros e' He'. apply Hstep. by right.
Qed.

Lemma gitAdd_idempotent_witness :
  let fs := files session_gitignore in
  let fs1 := default ∅ (gitAdd fs) in
  well_formed fs ∧ gitAdd fs = Some fs1 ∧ gitAdd fs1 = Some fs1.
Proof.
  intros fs fs1.
  assert (well_formed fs) as Hwf by (vm_compute; reflexivity).
  assert (gitAdd fs = Some fs1) as Ha
    by (apply completes_Some; vm_compute; reflexivity).
  split; [exact Hwf|split; [exact Ha|]].
  exact (gitAdd_idempotent fs fs1 Hwf Ha).
Defined.

End more_idempotent.

(** * The snapshot of a new commit holds nothing else *)

Section more_snapshot.
Implicit Types (fs : filesystem) (q rel from to d : path) (c id parent : string).

(** Where a regular file found after the copy loop comes from. *)
Lemma copy_entries_origin from to es fs fs' q c :
  independent from to → to ≠ [] →
  copy_entries from to es fs = Some fs' →
  fs' !! q = Some (File c) →
  fs !! q = Some (File c) ∨
  ∃ e, e ∈ es ∧ q = to ++ e.1 ∧ fs !! (from ++ e.1) = Some (File c).
Proof.
  intros Hind Hto. unfold copy_entries. revert fs.
  induction es as [|e es IH]; intros fs H Hq; simpl in H; [simplify_eq; by left|].
  destruct (is_regular_file fs (from ++ e.1)) eqn:Hreg.
  - destruct (install (from ++ e.1) (to ++ e.1) fs) as [fs1|] eqn:E1;
      simpl in H; [|done].
    apply install_spec in E1 as (c' & Hsrc & _ & Hdst & K); [|by destruct to].
    apply is_regular_file_lookup in Hreg as (c'' & Hne & Hl).
    rewrite node_at_lookup, Hl in Hsrc by done. injection Hsrc as ->.
    destruct (IH fs1 H Hq) as [Hq1|(e' & Hin & -> & Hsrc1)].
    + destruct (decide (q = to ++ e.1)) as [->|Hneq].
      * right. exists e. split; [by left|]. split; [done|]. congruence.
      * left. by eapply kept_or_mkdir_file_inv; [apply K|].
    + right. exists e'. split; [by right|]. split; [done|].
      eapply kept_or_mkdir_file_inv; [apply K, Hind|done].
  - simpl in H. destruct (IH fs H Hq) as [?|(e' & Hin & ? & ?)]; [by left|].
    right. exists e'. split; [by right|done].
Qed.

Lemma copy_tree_origin from to fs fs' q c :
  independent from to → to ≠ [] →
  copy_tree from to fs = Some fs' →
  fs' !! q = Some (File c) →
  fs !! q = Some (File c) ∨
  ∃ rel, q = to ++ rel ∧ fs !! (from ++ rel) = Some (File c).
Proof.
  unfold copy_tree. intros Hind Hto H Hq.
  destruct (recursive_directory_iterator fs from) as [es|]; simpl in H; [|done].
  destruct (copy_entries_origin _ _ _ _ _ _ _ Hind Hto H Hq)
    as [?|(e & _ & ? & ?)]; [by left|right; by exists e.1].
Qed.

(** A directory copied onto itself without an exception is unchanged. *)
Lemma copy_tree_self_id d fs fs' : copy_tree d d fs = Some fs' → fs' = fs.
Proof.
  unfold copy_tree, copy_entries. intros H.
  destruct (recursive_directory_iterator fs d) as [es|]; simpl in H; [|done].
  revert H. generalize dependent fs. induction es as [|e es IH]; intros fs H; simpl in H.
  - by simplify_eq.
  - destruct (is_regular_file fs (d ++ e.1)).
    + by rewrite install_self in H.
    + simpl in H. by apply IH.
Qed.

(** X24.  The snapshot of a commit created under a fresh identifier holds
    exactly the staged files, with their staged bytes, and the files of the
    parent's snapshot at whose path no regular file is staged, with the
    parent's bytes -- and no other regular file.  (So a commit drops no
    file of its parent's snapshot.) *)
Theorem createCommit_snapshot_is_exact
    (id parent msg now : string) (fs fs' : filesystem) :
  well_formed fs →
  fs !! commitPath id = None →
  createCommit id parent msg now fs = Some fs' →
  ∀ rel c,
    fs' !! (dataPath id ++ rel) = Some (File c) ↔
    fs !! (staging ++ rel) = Some (File c) ∨
    (is_regular_file fs (staging ++ rel) = false ∧ parent ≠ "" ∧
     fs !! (dataPath parent ++ rel) = Some (File c)).
Proof.
  intros Hwf Hfresh H rel c.
  destruct (createCommit_snapshot id parent msg now fs fs' Hwf H) as [Hovl Hinh].
  split; [|intros [?|(? & ? & ?)]; [by apply Hovl|by apply Hinh]].
  intros Hq.
  (* a staged regular file decides *)
  destruct (is_regular_file fs (staging ++ rel)) eqn:Hreg.
  { apply is_regular_file_lookup in Hreg as (c2 & _ & Hs).
    left. rewrite (Hovl rel c2 Hs) in Hq. congruence. }
  right. split; [done|].
  assert (∀ r n, fs !! (dataPath id ++ r) = Some n → False) as Hnew.
  { intros r n Hl. unfold dataPath in Hl. rewrite <- app_assoc in Hl.
    by rewrite (well_formed_directory fs (commitPath id) (["Data"] ++ r) n Hwf)
      in Hfresh. }
  unfold createCommit in H.
  destruct (create_directories (dataPath id) fs) as [fsA|] eqn:EA; simpl in H; [|done].
  pose proof (create_directories_kept _ _ _ EA) as KA.
  match type of H with (?inh ≫= _) = _ => destruct inh as [fsB|] eqn:EB end;
    simpl in H; [|done].
  match type of H with (?ovl ≫= _) = _ => destruct ovl as [fsC|] eqn:EC end;
    simpl in H; [|done].
  destruct (ofstream_opens fsC (commitInfoPath id)); [|done].
  injection H as <-.
  rewrite lookup_insert_ne in Hq by apply commitInfoPath_not_data.
  assert (∀ r, kept_or_mkdir fsA fsB (staging ++ r)) as KS.
  { intros r. destruct (negb (bool_decide (parent = ""))).
    - destruct (fs_exists fsA (dataPath parent)).
      + eapply copy_tree_frame; [apply dataPath_nonempty|done|].
        intros r'. apply independent_staging_data.
      + simplify_eq. apply kept_or_mkdir_refl.
    - simplify_eq. apply kept_or_mkdir_refl. }
  (* the overlay put nothing there, as no regular file is staged at [rel] *)
  assert (fsB !! (dataPath id ++ rel) = Some (File c)) as HqB.
  { destruct (fs_exists fsB staging); [|by simplify_eq].
    destruct (copy_tree_origin _ _ _ _ _ _ (independent_staging_data id)
                (dataPath_nonempty id) EC Hq) as [?|(r & Heq & Hs)]; [done|].
    apply app_inv_head in Heq. subst r.
    pose proof (kept_or_mkdir_file_inv _ _ _ _ (KS rel) Hs) as HsA.
    pose proof (kept_or_mkdir_file_inv _ _ _ _ (KA _) HsA) as Hs0.
    assert (is_regular_file fs (staging ++ rel) = true) as Ht
      by (apply is_regular_file_lookup; by exists c).
    congruence. }
  (* so the inheritance did *)
  assert (fsA !! (dataPath id ++ rel) = Some (File c) → False) as HnewA.
  { intros Hl. apply (Hnew rel (File c)).
    by apply (kept_or_mkdir_file_inv _ _ _ _ (KA _)). }
  destruct (decide (parent = "")) as [->|Hparent].
  { simpl in EB. injection EB as <-. by destruct (HnewA HqB). }
  split; [done|].
  rewrite bool_decide_eq_false_2 in EB by done. simpl in EB.
  destruct (fs_exists fsA (dataPath parent));
    [|injection EB as <-; by destruct (HnewA HqB)].
  destruct (decide (parent = id)) as [->|Hne].
  { apply copy_tree_self_id in EB. subst fsB. by destruct (HnewA HqB). }
  destruct (copy_tree_origin _ _ _ _ _ _ (independent_data parent id Hne)
              (dataPath_nonempty id) EB HqB) as [?|(r & Heq & Hp)];
    [by destruct HnewA|].
  apply app_inv_head in Heq. subst r.
  by apply (kept_or_mkdir_file_inv _ _ _ _ (KA _)).
Qed.

Lemma createCommit_snapshot_is_exact_witness :
  let fs := files session_added2 in
  let fs' := default ∅ (createCommit id2 id1 "second" time2 fs) in
  createCommit id2 id1 "second" time2 fs = Some fs' ∧
  (fs' !! (dataPath id2 ++ ["b.txt"]) = Some (File "b") ↔
   fs !! (staging ++ ["b.txt"]) = Some (File "b") ∨
   (is_regular_file fs (staging ++ ["b.txt"]) = false ∧ id1 ≠ "" ∧
    fs !! (dataPath id1 ++ ["b.txt"]) = Some (File "b"))) ∧
  fs' !! (dataPath id2 ++ ["b.txt"]) = Some (File "b").
Proof.
  intros fs fs'.
  assert (well_formed fs) as Hwf by (vm_compute; reflexivity).
  assert (fs !! commitPath id2 = None) as Hfresh by (vm_compute; reflexivity).
  assert (createCommit id2 id1 "second" time2 fs = Some fs') as Hc
    by (apply completes_Some; vm_compute; reflexivity).
  pose proof (createCommit_snapshot_is_exact id2 id1 "second" time2 fs fs'
                Hwf Hfresh Hc ["b.txt"] "b") as Hiff.
  split; [exact Hc|split; [exact Hiff|]].
  apply Hiff. right.
  split; [vm_compute; reflexivity|split; [discriminate|vm_compute; reflexivity]].
Defined.

End more_snapshot.
